(** * Extron MAV client (custom_components/extron_mav/extron_client.py)

    A shallow embedding of [ExtronClient] and the properties of its
    session handling, command channel and response parsing.

    Representation choices.
    - A Python [str] is a [string]; a [bytes] value is a [list byte].
      Every text the client parses comes out of
      [decode('ascii', errors='ignore')], so it holds ASCII characters only
      (lemma [decode_ascii_ignore_is_ascii]).  A literal holding a
      non-ASCII character stands for its UTF-8 bytes; [in] and
      [startswith] with an ASCII pattern give the same answer on both
      readings.
    - Python integers are [Z].  The interpreter refuses to read or to
      print a number of more than [sys.get_int_max_str_digits()] decimal
      digits (4300 unless it is started otherwise): [Py.int] and
      [Py.str_of_int] fail there, as [int()], [str()] and f-strings raise
      [ValueError].
    - The device and the network are an oracle (record [World]) that fixes
      the outcome of every [open_connection], [readuntil] and [drain], and
      logs every [writer.write] call.
    - A method of the client is a function from the client's fields and the
      world to an outcome (a value or a raised exception) together with the
      new fields and the new world.  Logging has no effect on either and is
      left out. *)

From Stdlib Require Import ZArith String Ascii List Bool Lia.
From Stdlib Require Import DecimalString DecimalPos.
From stdpp Require Import gmap strings.

Open Scope Z_scope.

Abbreviation byte := Byte.byte.

(** ** Python text primitives *)

Module Py.

Definition CRLF : string := String "013" (String "010" EmptyString).

(** [str.isspace] on the ASCII range: TAB, LF, VT, FF, CR, FS, GS, RS, US
    and the space. *)
Definition is_space (c : ascii) : bool :=
  let n := N_of_ascii c in
  ((9 <=? n) && (n <=? 13) || (28 <=? n) && (n <=? 32))%N.

Definition is_digit (c : ascii) : bool :=
  let n := N_of_ascii c in ((48 <=? n) && (n <=? 57))%N.

Definition digit_val (c : ascii) : Z := Z.of_N (N_of_ascii c) - 48.

Definition is_ascii_char (c : ascii) : bool := (N_of_ascii c <? 128)%N.

Fixpoint is_ascii (s : string) : bool :=
  match s with
  | EmptyString => true
  | String c r => is_ascii_char c && is_ascii r
  end.

Definition is_empty (s : string) : bool :=
  match s with EmptyString => true | String _ _ => false end.

(** [needle in hay] *)
Fixpoint contains (needle hay : string) : bool :=
  String.prefix needle hay ||
  match hay with
  | EmptyString => false
  | String _ r => contains needle r
  end.

(** [s.startswith(p)] *)
Definition startswith (p s : string) : bool := String.prefix p s.

Fixpoint lstrip (s : string) : string :=
  match s with
  | EmptyString => EmptyString
  | String c r => if is_space c then lstrip r else s
  end.

Fixpoint rstrip (s : string) : string :=
  match s with
  | EmptyString => EmptyString
  | String c r =>
      let r' := rstrip r in
      if is_space c && is_empty r' then EmptyString else String c r'
  end.

(** [s.strip()] *)
Definition strip (s : string) : string := rstrip (lstrip s).

(** [data.decode('ascii', errors='ignore')]: bytes above 127 are dropped. *)
Fixpoint decode_ascii_ignore (data : list byte) : string :=
  match data with
  | [] => EmptyString
  | b :: r =>
      let c := ascii_of_byte b in
      if is_ascii_char c then String c (decode_ascii_ignore r)
      else decode_ascii_ignore r
  end.

(** [s.encode('ascii')]: [None] stands for [UnicodeEncodeError]. *)
Fixpoint encode_ascii (s : string) : option (list byte) :=
  match s with
  | EmptyString => Some []
  | String c r =>
      if is_ascii_char c then
        match encode_ascii r with
        | Some bs => Some (byte_of_ascii c :: bs)
        | None => None
        end
      else None
  end.

(** [sys.get_int_max_str_digits()]: the most decimal digits that [int()]
    reads and that [str()] prints. *)
Definition int_max_str_digits : Z := 4300.

(** The decimal digits of an integer, behind a minus sign when it is
    negative. *)
Definition decimal (n : Z) : string := NilZero.string_of_int (Z.to_int n).

(** The number of decimal digits of an integer. *)
Definition digit_count (n : Z) : Z :=
  Z.of_nat (String.length (decimal (Z.abs n))).

(** [str(n)] for an integer, and [{n}] in an f-string.  [None] stands for
    the [ValueError] of a number with more digits than the limit. *)
Definition str_of_int (n : Z) : option string :=
  if digit_count n <=? int_max_str_digits then Some (decimal n) else None.

(** The message of that [ValueError]. *)
Definition str_limit_message : string :=
  "Exceeds the limit (4300 digits) for integer string conversion; use sys.set_int_max_str_digits() to increase the limit".

(** The white space that [int()] skips around an ASCII literal: TAB, LF,
    VT, FF, CR and the space. *)
Definition is_c_space (c : ascii) : bool :=
  let n := N_of_ascii c in ((9 <=? n) && (n <=? 13) || (n =? 32))%N.

Fixpoint skip_space (s : string) : string :=
  match s with
  | EmptyString => EmptyString
  | String c r => if is_c_space c then skip_space r else s
  end.

(** The first pass of [int()] over the characters after the sign: the
    number of digits before the first character that is neither a digit
    nor an underscore.  [underscore] tells that an underscore may not come
    next: at the start and after an underscore.  [None] when one does, or
    when an underscore comes last. *)
Fixpoint scan_digits (count : Z) (underscore : bool) (s : string) : option Z :=
  match s with
  | EmptyString => if underscore then None else Some count
  | String c r =>
      if is_digit c then scan_digits (count + 1) false r
      else if Ascii.eqb c "_" then
        if underscore then None else scan_digits count true r
      else if underscore then None else Some count
  end.

(** The value of a decimal literal: digits, with single underscores allowed
    between digits, then white space only; [prev] tells whether the previous
    character was a digit. *)
Fixpoint int_digits (acc : Z) (prev : bool) (s : string) : option Z :=
  match s with
  | EmptyString => if prev then Some acc else None
  | String c r =>
      if is_digit c then int_digits (10 * acc + digit_val c) true r
      else if Ascii.eqb c "_" && prev then int_digits acc false r
      else if prev && is_empty (skip_space s) then Some acc
      else None
  end.

(** The characters of a text after its leading white space and its sign. *)
Definition int_literal (s : string) : string :=
  match skip_space s with
  | EmptyString => EmptyString
  | String c r =>
      if Ascii.eqb c "-" || Ascii.eqb c "+" then r else String c r
  end.

(** [int(s)] in base ten on an ASCII text: white space, an optional sign,
    the digits, white space.  [None] stands for [ValueError]: the text is
    not a literal, or it has more digits than the limit. *)
Definition int (s : string) : option Z :=
  match scan_digits 0 true (int_literal s) with
  | Some digits =>
      if int_max_str_digits <? digits then None
      else
        match skip_space s with
        | EmptyString => None
        | String c r =>
            if Ascii.eqb c "-" then option_map Z.opp (int_digits 0 false r)
            else if Ascii.eqb c "+" then int_digits 0 false r
            else int_digits 0 false (String c r)
        end
  | None => None
  end.

(** The message of the [ValueError] that [int] raises on a literal of
    [digits] digits, more than the limit. *)
Definition int_limit_message (digits : Z) : string :=
  ("Exceeds the limit (4300 digits) for integer string conversion: value has "
   ++ decimal digits
   ++ " digits; use sys.set_int_max_str_digits() to increase the limit")%string.

(** The message of the [ValueError] that [int(s)] raises. *)
Definition int_error (s : string) : string :=
  match scan_digits 0 true (int_literal s) with
  | Some digits =>
      if int_max_str_digits <? digits then int_limit_message digits
      else "invalid literal for int() with base 10"%string
  | None => "invalid literal for int() with base 10"%string
  end.

(** [s * n] *)
Fixpoint str_mul (s : string) (n : nat) : string :=
  match n with
  | O => EmptyString
  | S n' => (s ++ str_mul s n')%string
  end.

(** Value of a run of digits (the text matched by [\d+]). *)
Fixpoint digits_value (acc : Z) (s : string) : Z :=
  match s with
  | EmptyString => acc
  | String c r => digits_value (10 * acc + digit_val c) r
  end.

(** Longest prefix made of digits. *)
Fixpoint take_digits (s : string) : string :=
  match s with
  | EmptyString => EmptyString
  | String c r => if is_digit c then String c (take_digits r) else EmptyString
  end.

Definition eq_nocase (c : ascii) (upper lower : ascii) : bool :=
  Ascii.eqb c upper || Ascii.eqb c lower.

(** [re.match(r'In(\d+)', s, re.IGNORECASE)]: group 1 when the pattern
    matches at the start of [s]. *)
Definition match_In (s : string) : option string :=
  match s with
  | String i (String n r) =>
      if eq_nocase i "I" "i" && eq_nocase n "N" "n" then
        match take_digits r with
        | EmptyString => None
        | d => Some d
        end
      else None
  | _ => None
  end.

(** [re.search(r'In(\d+)', s, re.IGNORECASE)]: group 1 of the leftmost
    match. *)
Fixpoint search_In (s : string) : option string :=
  match match_In s with
  | Some d => Some d
  | None =>
      match s with
      | EmptyString => None
      | String _ r => search_In r
      end
  end.

(** *** Predicates used to state what the parsers compute *)

Fixpoint all_digits (s : string) : bool :=
  match s with
  | EmptyString => true
  | String c r => is_digit c && all_digits r
  end.

(** The number that a decimal text stands for, whatever its length. *)
Definition decimal_value (s : string) : Z :=
  match s with
  | String c r => if Ascii.eqb c "-" then - digits_value 0 r else digits_value 0 s
  | EmptyString => 0
  end.

Definition starts_with_digit (s : string) : bool :=
  match s with
  | EmptyString => false
  | String c _ => is_digit c
  end.

Fixpoint drop_digits (s : string) : string :=
  match s with
  | EmptyString => EmptyString
  | String c r => if is_digit c then drop_digits r else s
  end.

(** An [In<digits>] token of [s] at offset [k], as the pattern
    [In(\d+)] with [re.IGNORECASE] matches it: the letters I and N in
    either case, then the longest run [d] of one or more digits. *)
Definition In_token_at (s : string) (k : nat) (d : string) : Prop :=
  exists pre i n rest,
    s = (pre ++ String i (String n (d ++ rest)))%string /\
    String.length pre = k /\
    eq_nocase i "I" "i" = true /\ eq_nocase n "N" "n" = true /\
    d <> EmptyString /\ all_digits d = true /\
    starts_with_digit rest = false.

(** *** Text primitives of the select entity *)

(** The words of [s.split()]: [word] is the word being read. *)
Fixpoint split_from (word : string) (s : string) : list string :=
  match s with
  | EmptyString => if is_empty word then [] else [word]
  | String c r =>
      if is_space c then
        if is_empty word then split_from EmptyString r
        else word :: split_from EmptyString r
      else split_from (word ++ String c EmptyString) r
  end.

(** [s.split()]: the runs of characters between white space. *)
Definition split (s : string) : list string := split_from EmptyString s.

(** A text without white space. *)
Fixpoint no_space (s : string) : bool :=
  match s with
  | EmptyString => true
  | String c r => negb (is_space c) && no_space r
  end.

End Py.

(** ** The device and the network *)

(** Exceptions, split the way the handlers of the client split them:
    [asyncio.TimeoutError], and every other subclass of [Exception].
    [msg] is [str(err)]. *)
Inductive exn : Type :=
| TimeoutError (msg : string)
| Exception (msg : string).

Definition str_of_exn (e : exn) : string :=
  match e with TimeoutError m => m | Exception m => m end.

Inductive open_outcome : Type := OpenOk | OpenRaise (e : exn).
Inductive read_outcome : Type := ReadData (data : list byte) | ReadRaise (e : exn).
Inductive drain_outcome : Type := DrainOk | DrainRaise (e : exn).
Inductive close_outcome : Type := CloseOk | CloseRaise (e : exn).

(** The oracles give the outcome of the n-th [open_connection] (under its
    [wait_for]), the n-th [readuntil] (under its [wait_for]), the n-th
    [drain] and the n-th [close]/[wait_closed].  [wire] is the log of the
    [writer.write] calls, oldest first, each with the connection it was
    written to.  A connection is named by the rank of the
    [open_connection] call that returned it. *)
Record World : Type := mkWorld {
  open_oracle : nat -> open_outcome;
  read_oracle : nat -> read_outcome;
  drain_oracle : nat -> drain_outcome;
  close_oracle : nat -> close_outcome;
  n_opens : nat;
  n_reads : nat;
  n_drains : nat;
  n_closes : nat;
  wire : list (nat * list byte)
}.

(** The fields of [ExtronClient] ([_lock] is treated with the tasks, in
    module [Tasks]). *)
Record ExtronClient : Type := mkClient {
  host : string;
  port : Z;
  password : option string;
  _reader : option nat;
  _writer : option nat;
  _connected : bool
}.

(** [ExtronClient.__init__] *)
Definition init (host : string) (port : Z) (password : option string) : ExtronClient :=
  mkClient host port password None None false.

Definition set_streams (r w : option nat) (c : ExtronClient) : ExtronClient :=
  mkClient (host c) (port c) (password c) r w (_connected c).

Definition set_connected (b : bool) (c : ExtronClient) : ExtronClient :=
  mkClient (host c) (port c) (password c) (_reader c) (_writer c) b.

Definition set_password (p : option string) (c : ExtronClient) : ExtronClient :=
  mkClient (host c) (port c) p (_reader c) (_writer c) (_connected c).

(** ** Methods as programs over the transport

    A method is a tree of the operations it performs on the client's
    fields and on the transport, in the order of the source; each
    [Await...] node is a point where the coroutine may be suspended.  The
    tree is run against a world by [exec]; tasks that share a client are
    run one operation at a time by [Tasks.step]. *)

Inductive outcome (A : Type) : Type :=
| Return (a : A)
| Raise (e : exn).
Arguments Return {A} a.
Arguments Raise {A} e.

Inductive prog (A : Type) : Type :=
| Ret (a : A)
| Throw (e : exn)
| GetSelf (k : ExtronClient -> prog A)
| SetSelf (f : ExtronClient -> ExtronClient) (k : prog A)
| AwaitOpen (k : outcome nat -> prog A)
| AwaitRead (conn : nat) (k : outcome (list byte) -> prog A)
| Write (conn : nat) (data : list byte) (k : prog A)
| AwaitDrain (conn : nat) (k : outcome unit -> prog A)
| AwaitClose (conn : nat) (k : outcome unit -> prog A).
Arguments Ret {A} a.
Arguments Throw {A} e.
Arguments GetSelf {A} k.
Arguments SetSelf {A} f k.
Arguments AwaitOpen {A} k.
Arguments AwaitRead {A} conn k.
Arguments Write {A} conn data k.
Arguments AwaitDrain {A} conn k.
Arguments AwaitClose {A} conn k.

Fixpoint bind {A B} (m : prog A) (f : A -> prog B) : prog B :=
  match m with
  | Ret a => f a
  | Throw e => Throw e
  | GetSelf k => GetSelf (fun c => bind (k c) f)
  | SetSelf g k => SetSelf g (bind k f)
  | AwaitOpen k => AwaitOpen (fun r => bind (k r) f)
  | AwaitRead conn k => AwaitRead conn (fun r => bind (k r) f)
  | Write conn data k => Write conn data (bind k f)
  | AwaitDrain conn k => AwaitDrain conn (fun r => bind (k r) f)
  | AwaitClose conn k => AwaitClose conn (fun r => bind (k r) f)
  end.

(** [try: body except ...: handler] *)
Fixpoint try_except {A} (body : prog A) (handler : exn -> prog A) : prog A :=
  match body with
  | Ret a => Ret a
  | Throw e => handler e
  | GetSelf k => GetSelf (fun c => try_except (k c) handler)
  | SetSelf g k => SetSelf g (try_except k handler)
  | AwaitOpen k => AwaitOpen (fun r => try_except (k r) handler)
  | AwaitRead conn k => AwaitRead conn (fun r => try_except (k r) handler)
  | Write conn data k => Write conn data (try_except k handler)
  | AwaitDrain conn k => AwaitDrain conn (fun r => try_except (k r) handler)
  | AwaitClose conn k => AwaitClose conn (fun r => try_except (k r) handler)
  end.

Definition of_outcome {A} (r : outcome A) : prog A :=
  match r with
  | Return a => Ret a
  | Raise e => Throw e
  end.

Definition get_self : prog ExtronClient := GetSelf Ret.

Definition modify_self (f : ExtronClient -> ExtronClient) : prog unit :=
  SetSelf f (Ret tt).

Notation "'let*' x ':=' m 'in' k" := (bind m (fun x => k))
  (at level 10, x pattern, m at level 100, k at level 200).
Notation "m ';;' k" := (bind m (fun _ => k))
  (at level 100, k at level 200, right associativity).

(** *** Transport primitives *)

(** [await asyncio.wait_for(asyncio.open_connection(host, port), timeout)] *)
Definition open_connection : prog nat := AwaitOpen of_outcome.

(** [await asyncio.wait_for(reader.readuntil(RESPONSE_TERMINATOR), timeout)] *)
Definition readuntil (conn : nat) : prog (list byte) := AwaitRead conn of_outcome.

(** [writer.write(data)] *)
Definition writer_write (conn : nat) (data : list byte) : prog unit :=
  Write conn data (Ret tt).

(** [await writer.drain()] *)
Definition drain (conn : nat) : prog unit := AwaitDrain conn of_outcome.

(** [writer.close(); await writer.wait_closed()] *)
Definition close_writer (conn : nat) : prog unit := AwaitClose conn of_outcome.

(** The text of an f-string that prints integers, or the [ValueError] of a
    number with too many digits. *)
Definition formatted (text : option string) : prog string :=
  match text with
  | Some s => Ret s
  | None => Throw (Exception Py.str_limit_message)
  end.

(** [f"{command}\r\n".encode('ascii')] *)
Definition encode_line (command : string) : prog (list byte) :=
  match Py.encode_ascii (command ++ Py.CRLF)%string with
  | Some data => Ret data
  | None => Throw (Exception "'ascii' codec can't encode character")
  end.

(** *** What the transport does at each operation *)

Definition do_open (w : World) : outcome nat * World :=
  (match open_oracle w (n_opens w) with
   | OpenOk => Return (n_opens w)
   | OpenRaise e => Raise e
   end,
   mkWorld (open_oracle w) (read_oracle w) (drain_oracle w) (close_oracle w)
           (S (n_opens w)) (n_reads w) (n_drains w) (n_closes w) (wire w)).

Definition do_read (w : World) : outcome (list byte) * World :=
  (match read_oracle w (n_reads w) with
   | ReadData d => Return d
   | ReadRaise e => Raise e
   end,
   mkWorld (open_oracle w) (read_oracle w) (drain_oracle w) (close_oracle w)
           (n_opens w) (S (n_reads w)) (n_drains w) (n_closes w) (wire w)).

Definition do_write (conn : nat) (data : list byte) (w : World) : World :=
  mkWorld (open_oracle w) (read_oracle w) (drain_oracle w) (close_oracle w)
          (n_opens w) (n_reads w) (n_drains w) (n_closes w)
          (wire w ++ [(conn, data)]).

Definition do_drain (w : World) : outcome unit * World :=
  (match drain_oracle w (n_drains w) with
   | DrainOk => Return tt
   | DrainRaise e => Raise e
   end,
   mkWorld (open_oracle w) (read_oracle w) (drain_oracle w) (close_oracle w)
           (n_opens w) (n_reads w) (S (n_drains w)) (n_closes w) (wire w)).

Definition do_close (w : World) : outcome unit * World :=
  (match close_oracle w (n_closes w) with
   | CloseOk => Return tt
   | CloseRaise e => Raise e
   end,
   mkWorld (open_oracle w) (read_oracle w) (drain_oracle w) (close_oracle w)
           (n_opens w) (n_reads w) (n_drains w) (S (n_closes w)) (wire w)).

(** Running a method to its end, alone on the client. *)
Fixpoint exec {A} (p : prog A) (c : ExtronClient) (w : World)
  : outcome A * ExtronClient * World :=
  match p with
  | Ret a => (Return a, c, w)
  | Throw e => (Raise e, c, w)
  | GetSelf k => exec (k c) c w
  | SetSelf f k => exec k (f c) w
  | AwaitOpen k => exec (k (fst (do_open w))) c (snd (do_open w))
  | AwaitRead conn k => exec (k (fst (do_read w))) c (snd (do_read w))
  | Write conn data k => exec k c (do_write conn data w)
  | AwaitDrain conn k => exec (k (fst (do_drain w))) c (snd (do_drain w))
  | AwaitClose conn k => exec (k (fst (do_close w))) c (snd (do_close w))
  end.

Definition result_of {A} (r : outcome A * ExtronClient * World) : outcome A :=
  fst (fst r).

Definition client_of {A} (r : outcome A * ExtronClient * World) : ExtronClient :=
  snd (fst r).

Definition world_of {A} (r : outcome A * ExtronClient * World) : World :=
  snd r.

(** ** The client *)

(** [is_connected] (property) *)
Definition is_connected (c : ExtronClient) : bool :=
  _connected c &&
  match _writer c with Some _ => true | None => false end.

(** [_read_until_prompt] *)
Definition _read_until_prompt : prog string :=
  try_except
    (let* self := get_self in
     match _reader self with
     | None => Throw (Exception "Not connected - no reader available")
     | Some conn =>
         let* data := readuntil conn in
         Ret (Py.strip (Py.decode_ascii_ignore data))
     end)
    (fun err =>
       match err with
       | TimeoutError _ => Ret EmptyString
       | Exception _ => modify_self (set_connected false) ;; Throw err
       end).

(** The loop condition of [_read_response], without its retry bound:
    [response and "," in response and "202" in response]. *)
Definition looks_like_timestamp (response : string) : bool :=
  negb (Py.is_empty response) &&
  Py.contains "," response && Py.contains "202" response.

(** The [while] loop of [_read_response]; [budget] is [3 - retry_count],
    so that [retry_count < 3] reads [budget] is not [0]. *)
Fixpoint _read_response_loop (budget : nat) (response : string) : prog string :=
  match budget with
  | O => Ret response
  | S budget' =>
      if looks_like_timestamp response then
        let* response' := _read_until_prompt in
        _read_response_loop budget' response'
      else Ret response
  end.

(** [_read_response] *)
Definition _read_response : prog string :=
  let* response := _read_until_prompt in
  _read_response_loop 3 response.

(** [_send_command_raw] *)
Definition _send_command_raw (command : string) : prog unit :=
  let* self := get_self in
  match _writer self with
  | None => Throw (Exception "Not connected")
  | Some conn =>
      let* data := encode_line command in
      writer_write conn data ;;
      drain conn
  end.

(** [not self.password]: true for [None] and for the empty string. *)
Definition no_password (p : option string) : bool :=
  match p with
  | None => true
  | Some s => Py.is_empty s
  end.

(** Lines 43-57 of [connect]: the password exchange. *)
Definition authenticate (response : string) : prog unit :=
  if Py.contains "Password:" response then
    let* self := get_self in
    if no_password (password self) then
      Throw (Exception "Password required but not provided")
    else
      _send_command_raw (default EmptyString (password self)) ;;
      let* login_response := _read_response in
      if negb (Py.contains "Login" login_response) then
        Throw (Exception "Invalid password")
      else Ret tt
  else Ret tt.

(** Lines 34-43 of [connect]: open the connection, keep its streams, read
    the copyright message and then the line that may be the password
    prompt. *)
Definition read_greeting : prog string :=
  let* conn := open_connection in
  modify_self (set_streams (Some conn) (Some conn)) ;;
  _read_until_prompt ;;
  _read_response.

(** Lines 34-57 of [connect]: everything before [_connected] is set. *)
Definition open_and_handshake : prog unit :=
  let* response := read_greeting in
  authenticate response.

(** The [try] block of [connect]. *)
Definition connect_body : prog unit :=
  open_and_handshake ;;
  modify_self (set_connected true).

(** The [except] clauses of [connect]. *)
Definition connect_handler (err : exn) : prog unit :=
  match err with
  | TimeoutError _ =>
      let* self := get_self in
      let* port_text := formatted (Py.str_of_int (port self)) in
      Throw (Exception ("Timeout connecting to " ++ host self ++ ":"
                        ++ port_text)%string)
  | Exception _ =>
      modify_self (set_connected false) ;;
      Throw (Exception ("Failed to connect: " ++ str_of_exn err)%string)
  end.

(** [connect] *)
Definition connect : prog unit := try_except connect_body connect_handler.

(** [disconnect] *)
Definition disconnect : prog unit :=
  let* self := get_self in
  match _writer self with
  | None => Ret tt
  | Some conn =>
      try_except (close_writer conn) (fun err => Ret tt) ;;
      modify_self (fun c => set_connected false (set_streams None None c))
  end.

(** [_ensure_connected] *)
Definition _ensure_connected : prog unit :=
  let* self := get_self in
  if negb (is_connected self) then
    try_except connect (fun err => Throw err)
  else Ret tt.

(** The [try] block of [_send_command]. *)
Definition send_command_body (command : string) (expect_response : bool)
  : prog (option string) :=
  let* self := get_self in
  match _writer self with
  | None => Throw (Exception "'NoneType' object has no attribute 'write'")
  | Some conn =>
      let* data := encode_line command in
      writer_write conn data ;;
      drain conn ;;
      if expect_response then
        let* response := _read_response in
        Ret (Some response)
      else Ret None
  end.

(** The block of [_send_command] under [async with self._lock]. *)
Definition send_command_locked (command : string) (expect_response : bool)
  : prog (option string) :=
  _ensure_connected ;;
  try_except (send_command_body command expect_response)
    (fun err => modify_self (set_connected false) ;; Throw err).

(** [_send_command] when no other task holds the lock: the lock is taken
    at once and released on exit.  Tasks that compete for the lock are
    treated in module [Tasks]. *)
Definition _send_command (command : string) (expect_response : bool)
  : prog (option string) :=
  send_command_locked command expect_response.

(** [get_info] *)
Definition get_info : prog (option string) := _send_command "I" true.

(** Lines 181-195 of [get_output_tie]: the tie number of a response. *)
Definition tie_of_response (response : string) : outcome Z :=
  match Py.search_In response with
  | Some group1 =>
      match Py.int group1 with
      | Some input_num => Return input_num
      | None => Raise (Exception (Py.int_error group1))
      end
  | None =>
      match Py.int (Py.strip response) with
      | Some input_num => Return input_num
      | None => Return 0
      end
  end.

(** The command of [get_output_tie]: [f"{output}%"]. *)
Definition tie_query (output : Z) : option string :=
  match Py.str_of_int output with
  | Some output_text => Some (output_text ++ "%")%string
  | None => None
  end.

(** [get_output_tie] *)
Definition get_output_tie (output : Z) : prog Z :=
  let* command := formatted (tie_query output) in
  let* response := _send_command command true in
  match response with
  | None => Throw (Exception "expected string or bytes-like object")
  | Some response => of_outcome (tie_of_response response)
  end.

(** Line 208 of [set_output_tie]: whether a response acknowledges a tie. *)
Definition ack_of_response (response : string) : bool :=
  Py.contains "Out" response && negb (Py.startswith "E" response).

(** The command of [set_output_tie]: [f"{input_num}*{output}!"]. *)
Definition tie_command (input_num output : Z) : option string :=
  match Py.str_of_int input_num, Py.str_of_int output with
  | Some input_text, Some output_text =>
      Some (input_text ++ "*" ++ output_text ++ "!")%string
  | _, _ => None
  end.

(** [set_output_tie] *)
Definition set_output_tie (input_num output : Z) : prog bool :=
  if input_num =? 0 then Ret false
  else
    let* command := formatted (tie_command input_num output) in
    let* response := _send_command command true in
    match response with
    | None => Throw (Exception "argument of type 'NoneType' is not iterable")
    | Some response => Ret (ack_of_response response)
    end.

(** [range(start, stop)] *)
Definition py_range (start stop : Z) : list Z := seqZ start (stop - start).

(** The [for] loop of [get_all_ties] over the outputs still to query. *)
Fixpoint get_all_ties_loop (outputs : list Z) (ties : gmap Z Z) : prog (gmap Z Z) :=
  match outputs with
  | [] => Ret ties
  | output :: rest =>
      let* ties' :=
        try_except
          (let* tied_input := get_output_tie output in
           Ret (<[output := tied_input]> ties))
          (fun err => Ret (<[output := 0]> ties)) in
      get_all_ties_loop rest ties'
  end.

(** [get_all_ties] *)
Definition get_all_ties (num_outputs : Z) : prog (gmap Z Z) :=
  get_all_ties_loop (py_range 1 (num_outputs + 1)) ∅.

(** ** A scripted device

    A device that accepts every connection, answers the n-th read with the
    n-th line of a script (and lets the read time out once the script is
    used up) and never fails a write. *)

Definition scripted_reads (lines : list string) (n : nat) : read_outcome :=
  match lines !! n with
  | Some line => ReadData (list_byte_of_string (line ++ Py.CRLF)%string)
  | None => ReadRaise (TimeoutError EmptyString)
  end.

Definition scripted_world (lines : list string) : World :=
  mkWorld (fun _ => OpenOk) (scripted_reads lines) (fun _ => DrainOk)
          (fun _ => CloseOk) 0 0 0 0 [].

(** A client whose streams are those of connection 0, not yet marked
    connected, and the same client once connected. *)
Definition opened_client (password : option string) : ExtronClient :=
  set_streams (Some 0%nat) (Some 0%nat) (init "mav.local" 23 password).

Definition connected_client (password : option string) : ExtronClient :=
  set_connected true (opened_client password).

Definition noisy_script : list string :=
  ["2024-05-01, 10:00"; "2024-05-01, 10:01"; "2024-05-01, 10:02";
   "2024-05-01, 10:03"; "Out01 In05 All"]%string.

Definition ready_script : list string :=
  ["(c) Extron"; "ready"; "Out01 In05 All"]%string.

(** The client after a failed command on connection 0. *)
Definition dropped_client : ExtronClient :=
  set_connected false (opened_client None).

(** The scripted device behind a link that fails the first [drain]. *)
Definition flaky_world (lines : list string) : World :=
  mkWorld (fun _ => OpenOk) (scripted_reads lines)
          (fun n => match n with
                    | O => DrainRaise (Exception "Connection lost")
                    | S _ => DrainOk
                    end)
          (fun _ => CloseOk) 0 0 0 0 [].

(** A device that accepts the connection and resets it at every read. *)
Definition broken_world : World :=
  mkWorld (fun _ => OpenOk)
          (fun _ => ReadRaise (Exception "Connection reset by peer"))
          (fun _ => DrainOk) (fun _ => CloseOk) 0 0 0 0 [].

(** A device that refuses every connection. *)
Definition dead_world : World :=
  mkWorld (fun _ => OpenRaise (Exception "Connection refused"))
          (scripted_reads []) (fun _ => DrainOk) (fun _ => CloseOk) 0 0 0 0 [].

(** ** Vocabulary of the statements *)

(** The world after [k] more reads and nothing else. *)
Definition advance_reads (k : nat) (w : World) : World :=
  mkWorld (open_oracle w) (read_oracle w) (drain_oracle w) (close_oracle w)
          (n_opens w) (k + n_reads w) (n_drains w) (n_closes w) (wire w).

(** What [_read_until_prompt] makes of the outcome of its read: the
    decoded and trimmed line, the empty line on a timeout, the error
    otherwise. *)
Definition line_of (o : read_outcome) : outcome string :=
  match o with
  | ReadData data => Return (Py.strip (Py.decode_ascii_ignore data))
  | ReadRaise (TimeoutError _) => Return EmptyString
  | ReadRaise (Exception msg) => Raise (Exception msg)
  end.

(** The line that the [i]-th read from now yields. *)
Definition nth_line (w : World) (i : nat) : outcome string :=
  line_of (read_oracle w (i + n_reads w)).

(** The client after a read that ended with [r]: an error clears
    [_connected]. *)
Definition after_read {A} (r : outcome A) (c : ExtronClient) : ExtronClient :=
  match r with
  | Return _ => c
  | Raise _ => set_connected false c
  end.

(** The same outcome and world, the client changed by [f]. *)
Definition map_client {A} (f : ExtronClient -> ExtronClient)
  (r : outcome A * ExtronClient * World) : outcome A * ExtronClient * World :=
  (fst (fst r), f (snd (fst r)), snd r).

(** The only [writer.write] between [w] and [w'], if any, sent the
    configured password on connection [conn]. *)
Definition credential_only (c : ExtronClient) (conn : nat) (w w' : World) : Prop :=
  wire w' = wire w \/
  exists pw data,
    password c = Some pw /\ pw <> EmptyString /\
    Py.encode_ascii (pw ++ Py.CRLF)%string = Some data /\
    wire w' = wire w ++ [(conn, data)].

(** The states the client can be in: [_connected] is never set without a
    writer. *)
Definition wf (c : ExtronClient) : Prop :=
  _connected c = true -> _writer c <> None.

(** Follows the words of the specification, not the source: a line "looks
    like timestamp noise" when it is not empty and "contains a comma AND a
    3-digit token beginning with 20". *)
Definition spec_timestamp_noise (line : string) : bool :=
  negb (Py.is_empty line) &&
  Py.contains "," line &&
  existsb (fun d => Py.contains ("20" ++ d)%string line)
          ["0"; "1"; "2"; "3"; "4"; "5"; "6"; "7"; "8"; "9"]%string.

(** The write of the query line of an output on connection [conn]: the
    decimal text of the output, a percent sign, CR LF.  There is none when
    the output has too many digits to be printed. *)
Definition query_write (conn : nat) (output : Z) : option (nat * list byte) :=
  match Py.str_of_int output with
  | Some output_text =>
      Some (conn, list_byte_of_string ((output_text ++ "%") ++ Py.CRLF))
  | None => None
  end.

(** The entry that [get_all_ties] records for an output whose query ended
    with [r]. *)
Definition tie_entry (r : outcome Z) : Z :=
  match r with
  | Return input_num => input_num
  | Raise _ => 0
  end.

(** Follows the words of the specification, not the source: the outputs
    are queried one after the other, each query starting where the one
    before ended, whatever its outcome.  The log keeps every output with
    the outcome of its query. *)
Fixpoint query_in_order (outputs : list Z) (c : ExtronClient) (w : World)
  : list (Z * outcome Z) * ExtronClient * World :=
  match outputs with
  | [] => ([], c, w)
  | output :: rest =>
      let '(r, c1, w1) := exec (get_output_tie output) c w in
      let '(log, c2, w2) := query_in_order rest c1 w1 in
      ((output, r) :: log, c2, w2)
  end.

(** ** Tasks that share one client

    [_send_command] runs its block under [async with self._lock].  Several
    tasks (coroutines on one event loop) may be inside [_send_command] at
    once; a task is suspended at the lock until it is free, and may be
    suspended at every [await] of the block, where another task may run.
    A step of the system is a step of one task, chosen freely. *)

Module Tasks.

(** What a task does to the transport. *)
Inductive event : Type :=
| EvOpen
| EvRead (conn : nat)
| EvWrite (conn : nat) (data : list byte)
| EvDrain (conn : nat)
| EvClose (conn : nat).

(** The next operation of a suspended method, run against the shared
    client and the world; [None] when the method has ended. *)
Definition prim_step {A} (p : prog A) (c : ExtronClient) (w : World)
  : option (prog A * ExtronClient * World * option event) :=
  match p with
  | Ret _ => None
  | Throw _ => None
  | GetSelf k => Some (k c, c, w, None)
  | SetSelf f k => Some (k, f c, w, None)
  | AwaitOpen k => Some (k (fst (do_open w)), c, snd (do_open w), Some EvOpen)
  | AwaitRead conn k =>
      Some (k (fst (do_read w)), c, snd (do_read w), Some (EvRead conn))
  | Write conn data k =>
      Some (k, c, do_write conn data w, Some (EvWrite conn data))
  | AwaitDrain conn k =>
      Some (k (fst (do_drain w)), c, snd (do_drain w), Some (EvDrain conn))
  | AwaitClose conn k =>
      Some (k (fst (do_close w)), c, snd (do_close w), Some (EvClose conn))
  end.

(** The outcome of a method that has ended. *)
Definition final {A} (p : prog A) : option (outcome A) :=
  match p with
  | Ret a => Some (Return a)
  | Throw e => Some (Raise e)
  | _ => None
  end.

(** A call of [_send_command]: waiting for the lock, inside the block with
    what is left of it to run, or returned with the lock released. *)
Inductive task : Type :=
| Pending (command : string) (expect_response : bool)
| Critical (p : prog (option string))
| Finished (r : outcome (option string)).

(** [lock] is the task that holds [self._lock]; [trace] lists the
    transport operations so far, oldest first, each with its task. *)
Record config : Type := mkConfig {
  tasks : list task;
  self : ExtronClient;
  world : World;
  lock : option nat;
  trace : list (nat * event)
}.

Definition log_event (t : nat) (ev : option event) (tr : list (nat * event))
  : list (nat * event) :=
  match ev with
  | Some e => tr ++ [(t, e)]
  | None => tr
  end.

Inductive step : config -> config -> Prop :=
| step_acquire ts c w tr t command expect_response :
    ts !! t = Some (Pending command expect_response) ->
    step (mkConfig ts c w None tr)
         (mkConfig (<[t := Critical (send_command_locked command expect_response)]> ts)
                   c w (Some t) tr)
| step_run ts c w l tr t p p' c' w' ev :
    ts !! t = Some (Critical p) ->
    prim_step p c w = Some (p', c', w', ev) ->
    step (mkConfig ts c w l tr)
         (mkConfig (<[t := Critical p']> ts) c' w' l (log_event t ev tr))
| step_release ts c w l tr t p r :
    ts !! t = Some (Critical p) ->
    final p = Some r ->
    step (mkConfig ts c w l tr)
         (mkConfig (<[t := Finished r]> ts) c w None tr).

Inductive steps : config -> config -> Prop :=
| steps_refl cfg : steps cfg cfg
| steps_step cfg1 cfg2 cfg3 : steps cfg1 cfg2 -> step cfg2 cfg3 -> steps cfg1 cfg3.

(** All the calls are waiting, nothing has happened yet. *)
Definition initial (calls : list (string * bool)) (c : ExtronClient) (w : World)
  : config :=
  mkConfig (map (fun call => Pending (fst call) (snd call)) calls) c w None [].

(** No operation of another task falls between two operations of one
    task. *)
Definition no_interleaving (tr : list (nat * event)) : Prop :=
  forall i j k x y z,
    (i < j < k)%nat ->
    tr !! i = Some x -> tr !! j = Some y -> tr !! k = Some z ->
    fst x = fst z -> fst y = fst x.

(** The [writer.write] calls of a trace. *)
Definition writes_of (tr : list (nat * event)) : list (nat * list byte) :=
  omap (fun x => match snd x with
                 | EvWrite conn data => Some (conn, data)
                 | _ => None
                 end) tr.

(** A scheduler that lets task [t] take its next step when it has one. *)
Definition schedule_one (cfg : config) (t : nat) : config :=
  match tasks cfg !! t with
  | Some (Pending command expect_response) =>
      match lock cfg with
      | None =>
          mkConfig (<[t := Critical (send_command_locked command expect_response)]>
                      (tasks cfg))
                   (self cfg) (world cfg) (Some t) (trace cfg)
      | Some _ => cfg
      end
  | Some (Critical p) =>
      match prim_step p (self cfg) (world cfg) with
      | Some (p', c', w', ev) =>
          mkConfig (<[t := Critical p']> (tasks cfg)) c' w' (lock cfg)
                   (log_event t ev (trace cfg))
      | None =>
          match final p with
          | Some r =>
              mkConfig (<[t := Finished r]> (tasks cfg)) (self cfg) (world cfg)
                       None (trace cfg)
          | None => cfg
          end
      end
  | _ => cfg
  end.

Definition run_schedule (sched : list nat) (cfg : config) : config :=
  fold_left schedule_one sched cfg.

(** The tasks take turns, [n] times each. *)
Definition round_robin (n : nat) : list nat := concat (replicate n [0; 1]%nat).

(** Two commands called at once on a connected client. *)
Definition two_commands : config :=
  initial [("1%"%string, true); ("5*2!"%string, true)]
          (connected_client None)
          (scripted_world ["Out01 In05 All"; "Out02 In05 All"]%string).

(** What holds of every configuration that the tasks can reach:
    only the holder of the lock is inside the block, a waiting task has
    done nothing yet, and whatever follows an operation of the holder in
    the trace is the holder's too. *)
Record inv (w0 : World) (cfg : config) : Prop := mkInv {
  inv_critical : forall t p,
    tasks cfg !! t = Some (Critical p) -> lock cfg = Some t;
  inv_pending : forall t command expect_response x,
    tasks cfg !! t = Some (Pending command expect_response) ->
    x ∈ trace cfg -> fst x <> t;
  inv_suffix : forall t i j x y,
    lock cfg = Some t -> (i < j)%nat ->
    trace cfg !! i = Some x -> trace cfg !! j = Some y ->
    fst x = t -> fst y = t;
  inv_serial : no_interleaving (trace cfg);
  inv_wire : wire (world cfg) = wire w0 ++ writes_of (trace cfg)
}.

End Tasks.

(** ** The coordinator (coordinator.py) *)

Module Coordinator.

(** [ExtronDataUpdateCoordinator._async_update_data]; [UpdateFailed] is a
    subclass of [Exception]. *)
Definition _async_update_data (num_outputs : Z) : prog (gmap string (gmap Z Z)) :=
  try_except
    (let* ties := get_all_ties num_outputs in
     Ret ({["ties"%string := ties]} : gmap string (gmap Z Z)))
    (fun err =>
       Throw (Exception ("Error communicating with device: " ++ str_of_exn err)%string)).

End Coordinator.

(** ** The select entity (select.py) *)

Module Select.

(** [f"Input {i}"]; [None] stands for the [ValueError] of a number with
    too many digits to print. *)
Definition input_option (i : Z) : option string :=
  match Py.str_of_int i with
  | Some text => Some ("Input " ++ text)%string
  | None => None
  end.

(** [self._attr_options] of [ExtronOutputSelect.__init__]; [None] when
    the text of one of the inputs cannot be printed. *)
Definition options (num_inputs : Z) : option (list string) :=
  match mapM input_option (py_range 1 (num_inputs + 1)) with
  | Some inputs => Some ("None"%string :: inputs)
  | None => None
  end.

(** [ExtronOutputSelect.current_option]; [data] is [coordinator.data],
    [None] before the first refresh.  A dict is true when it is not
    empty.  The result [None] stands for the [ValueError] of a tie with
    too many digits to print. *)
Definition current_option (data : option (gmap string (gmap Z Z))) (output : Z)
  : option string :=
  match data with
  | Some d =>
      if bool_decide (d <> ∅) then
        match d !! "ties"%string with
        | Some ties =>
            let tied_input := default 0 (ties !! output) in
            if tied_input =? 0 then Some "None"%string
            else input_option tied_input
        | None => Some "None"%string
        end
      else Some "None"%string
  | None => Some "None"%string
  end.

(** Lines 70-74 of [async_select_option]: the input number of an option. *)
Definition option_input (option : string) : outcome Z :=
  if String.eqb option "None" then Return 0
  else
    match last (Py.split option) with
    | None => Raise (Exception "list index out of range")
    | Some word =>
        match Py.int word with
        | Some input_num => Return input_num
        | None => Raise (Exception (Py.int_error word))
        end
    end.

(** The input that [current_option] shows for an output: the entry of the
    output in [data["ties"]], 0 when there is none. *)
Definition shown_input (data : option (gmap string (gmap Z Z))) (output : Z) : Z :=
  match data with
  | Some d =>
      match d !! "ties"%string with
      | Some ties => default 0 (ties !! output)
      | None => 0
      end
  | None => 0
  end.

End Select.

(** ** The connection test of the config flow (config_flow.py) *)

Module ConfigFlow.

(** Lines 38-40 of [async_step_user], on the client of lines 31-35. *)
Definition test_connection : prog (option string) :=
  connect ;;
  let* info := get_info in
  disconnect ;;
  Ret info.

End ConfigFlow.

(** ** Use of the transport *)

(** Numbers of [open_connection], [readuntil], [writer.write], [drain] and
    [close] calls. *)
Record usage : Type := mkUsage {
  u_opens : nat;
  u_reads : nat;
  u_writes : nat;
  u_drains : nat;
  u_closes : nat
}.

Definition usage_zero : usage := mkUsage 0 0 0 0 0.

Definition usage_add (u v : usage) : usage :=
  mkUsage (u_opens u + u_opens v) (u_reads u + u_reads v)
          (u_writes u + u_writes v) (u_drains u + u_drains v)
          (u_closes u + u_closes v).

Definition usage_le (u v : usage) : Prop :=
  (u_opens u <= u_opens v)%nat /\ (u_reads u <= u_reads v)%nat /\
  (u_writes u <= u_writes v)%nat /\ (u_drains u <= u_drains v)%nat /\
  (u_closes u <= u_closes v)%nat.

Fixpoint usage_times (n : nat) (u : usage) : usage :=
  match n with
  | O => usage_zero
  | S n' => usage_add u (usage_times n' u)
  end.

(** [w'] is [w] after at most [u] calls of each kind: the same device,
    counters that only grew, a wire that only got longer. *)
Definition within (u : usage) (w w' : World) : Prop :=
  open_oracle w' = open_oracle w /\ read_oracle w' = read_oracle w /\
  drain_oracle w' = drain_oracle w /\ close_oracle w' = close_oracle w /\
  (n_opens w <= n_opens w' <= n_opens w + u_opens u)%nat /\
  (n_reads w <= n_reads w' <= n_reads w + u_reads u)%nat /\
  (n_drains w <= n_drains w' <= n_drains w + u_drains u)%nat /\
  (n_closes w <= n_closes w' <= n_closes w + u_closes u)%nat /\
  exists written,
    wire w' = wire w ++ written /\ (length written <= u_writes u)%nat.

(** A method that makes at most [u] calls, whatever the client and the
    device. *)
Definition bounded {A} (u : usage) (p : prog A) : Prop :=
  forall c w, within u w (snd (exec p c w)).

(** The most one command asks of the transport: one connection, 13 reads
    (1 + 4 + 4 to connect, 4 for the response), the password and the
    command written and drained. *)
Definition command_usage : usage := mkUsage 1 13 2 2 0.

(** A link and a device that never fail: every [drain] succeeds and no
    read ends with an error other than a timeout. *)
Definition healthy (w : World) : Prop :=
  (forall n, drain_oracle w n = DrainOk) /\
  (forall n msg, read_oracle w n <> ReadRaise (Exception msg)).

(** A device that cannot be reached: every [open_connection] fails. *)
Definition unreachable (w : World) : Prop :=
  forall n, exists e, open_oracle w n = OpenRaise e.

(** ** Facts about the text primitives *)

Section TextFacts.

Import Py.

Lemma append_String c (s t : string) :
  (String c s ++ t)%string = String c (s ++ t)%string.
Proof. reflexivity. Qed.

Lemma append_Empty (t : string) : (EmptyString ++ t)%string = t.
Proof. reflexivity. Qed.

Lemma prefix_app (p s : string) :
  String.prefix p s = true <-> exists post, s = (p ++ post)%string.
Proof.
  revert s. induction p as [|a p IH]; intros s.
  - destruct s; simpl; split; eauto.
  - destruct s as [|b s]; simpl.
    + split; [discriminate | intros [post H]; discriminate].
    + destruct (ascii_dec a b) as [->|Hne].
      * rewrite IH. split; intros [post H]; exists post.
        -- rewrite H. reflexivity.
        -- rewrite append_String in H. congruence.
      * split; [discriminate |].
        intros [post H]. rewrite append_String in H. congruence.
Qed.

Lemma contains_nil needle :
  contains needle EmptyString = String.prefix needle EmptyString.
Proof. simpl. apply orb_false_r. Qed.

Lemma contains_cons needle c hay :
  contains needle (String c hay) =
  String.prefix needle (String c hay) || contains needle hay.
Proof. reflexivity. Qed.

(** [needle in hay] holds exactly when [hay] has [needle] as a substring. *)
Lemma contains_app (needle hay : string) :
  contains needle hay = true <->
  exists pre post, hay = (pre ++ needle ++ post)%string.
Proof.
  split.
  - induction hay as [|c hay IH].
    + rewrite contains_nil. intros H.
      apply prefix_app in H as [post H]. exists EmptyString, post. exact H.
    + rewrite contains_cons, orb_true_iff. intros [H|H].
      * apply prefix_app in H as [post H]. exists EmptyString, post. exact H.
      * destruct (IH H) as (pre & post & ->).
        exists (String c pre), post. reflexivity.
  - intros (pre & post & ->).
    induction pre as [|c pre IH].
    + rewrite append_Empty.
      assert (H : String.prefix needle (needle ++ post) = true)
        by (apply prefix_app; eauto).
      destruct (needle ++ post)%string.
      * rewrite contains_nil. exact H.
      * rewrite contains_cons, H. reflexivity.
    + rewrite append_String, contains_cons, IH. apply orb_true_r.
Qed.

Lemma is_digit_not_space c : is_digit c = true -> is_space c = false.
Proof.
  unfold is_digit, is_space. generalize (N_of_ascii c). intros n H.
  apply andb_true_iff in H as [H1 H2].
  apply N.leb_le in H1. apply N.leb_le in H2.
  apply orb_false_iff; split; apply andb_false_iff.
  - right. apply N.leb_gt. lia.
  - right. apply N.leb_gt. lia.
Qed.

Lemma is_digit_val c : is_digit c = true -> 0 <= digit_val c <= 9.
Proof.
  unfold is_digit, digit_val. generalize (N_of_ascii c). intros n H.
  apply andb_true_iff in H as [H1 H2].
  apply N.leb_le in H1. apply N.leb_le in H2. lia.
Qed.

Lemma take_digits_all s : all_digits (take_digits s) = true.
Proof.
  induction s as [|c s IH]; simpl; [reflexivity|].
  destruct (is_digit c) eqn:E; simpl; [rewrite E, IH|]; reflexivity.
Qed.

Lemma rstrip_digits s :
  all_digits s = true -> rstrip s = s.
Proof.
  induction s as [|c s IH]; simpl; [reflexivity|].
  intros H. apply andb_true_iff in H as [Hc Hs].
  rewrite (is_digit_not_space _ Hc), IH by assumption. reflexivity.
Qed.

Lemma strip_digits s :
  all_digits s = true -> strip s = s.
Proof.
  intros H. unfold strip.
  destruct s as [|c s]; [reflexivity|].
  simpl in H. apply andb_true_iff in H as [Hc Hs].
  simpl lstrip. rewrite (is_digit_not_space _ Hc).
  apply rstrip_digits. simpl. rewrite Hc, Hs. reflexivity.
Qed.

Lemma int_digits_all s : forall acc prev,
  all_digits s = true -> (s <> EmptyString \/ prev = true) ->
  int_digits acc prev s = Some (digits_value acc s).
Proof.
  induction s as [|c s IH]; intros acc prev H Hne; simpl.
  - destruct Hne as [Hne| ->]; [congruence | reflexivity].
  - simpl in H. apply andb_true_iff in H as [Hc Hs].
    rewrite Hc. apply IH; auto.
Qed.

Lemma digits_value_nonneg s : forall acc,
  all_digits s = true -> 0 <= acc -> acc <= digits_value acc s.
Proof.
  induction s as [|c s IH]; intros acc H Hacc; simpl; [lia|].
  simpl in H. apply andb_true_iff in H as [Hc Hs].
  pose proof (is_digit_val _ Hc).
  specialize (IH (10 * acc + digit_val c) Hs). lia.
Qed.

Lemma int_digits_nonneg s : forall acc prev n,
  int_digits acc prev s = Some n -> 0 <= acc -> acc <= n.
Proof.
  induction s as [|c s IH]; intros acc prev n; cbn [int_digits].
  - destruct prev; [intros [= <-]; lia | discriminate].
  - destruct (is_digit c) eqn:Hc.
    + intros H Hacc. pose proof (is_digit_val _ Hc).
      apply IH in H; lia.
    + destruct (Ascii.eqb c "_" && prev).
      * intros H Hacc. apply IH in H; lia.
      * destruct (prev && is_empty (skip_space (String c s)));
          [intros [= <-]; lia | discriminate].
Qed.

Lemma is_c_space_is_space c : is_c_space c = true -> is_space c = true.
Proof.
  unfold is_c_space, is_space. generalize (N_of_ascii c). intros n H.
  apply orb_true_iff in H as [H|H].
  - rewrite H. reflexivity.
  - apply N.eqb_eq in H. subst n. reflexivity.
Qed.

Lemma is_digit_not_c_space c : is_digit c = true -> is_c_space c = false.
Proof.
  intros H. apply is_digit_not_space in H.
  destruct (is_c_space c) eqn:E; [|reflexivity].
  apply is_c_space_is_space in E. congruence.
Qed.

Lemma skip_space_digits d : all_digits d = true -> skip_space d = d.
Proof.
  destruct d as [|c d]; [reflexivity|]. simpl.
  intros H. apply andb_true_iff in H as [Hc _].
  rewrite (is_digit_not_c_space _ Hc). reflexivity.
Qed.

Lemma is_digit_not_sign c :
  is_digit c = true -> Ascii.eqb c "-" = false /\ Ascii.eqb c "+" = false.
Proof.
  intros Hc. split.
  - destruct (Ascii.eqb_spec c "-") as [->|_]; [vm_compute in Hc; discriminate | reflexivity].
  - destruct (Ascii.eqb_spec c "+") as [->|_]; [vm_compute in Hc; discriminate | reflexivity].
Qed.

Lemma int_literal_digits d : all_digits d = true -> int_literal d = d.
Proof.
  intros H. unfold int_literal. rewrite (skip_space_digits _ H).
  destruct d as [|c d]; [reflexivity|].
  simpl in H. apply andb_true_iff in H as [Hc _].
  destruct (is_digit_not_sign _ Hc) as [-> ->]. reflexivity.
Qed.

(** The first pass counts the digits of a run of digits. *)
Lemma scan_digits_all d : forall count underscore,
  all_digits d = true -> (d <> EmptyString \/ underscore = false) ->
  scan_digits count underscore d = Some (count + Z.of_nat (String.length d)).
Proof.
  induction d as [|c d IH]; intros count underscore H Hne.
  - destruct Hne as [Hne| ->]; [congruence|]. simpl. f_equal. lia.
  - simpl in H. apply andb_true_iff in H as [Hc Hd].
    cbn [scan_digits]. rewrite Hc.
    rewrite (IH _ false Hd (or_intror eq_refl)). f_equal.
    cbn [String.length]. lia.
Qed.

(** [int] applied to a non-empty run of digits reads the run in base ten
    when it has no more digits than the limit, and fails otherwise. *)
Lemma int_of_digits d :
  all_digits d = true -> d <> EmptyString ->
  Py.int d =
  if int_max_str_digits <? Z.of_nat (String.length d) then None
  else Some (digits_value 0 d).
Proof.
  intros H Hne. unfold Py.int.
  rewrite (int_literal_digits _ H), (scan_digits_all d 0 true H (or_introl Hne)).
  rewrite Z.add_0_l, (skip_space_digits _ H).
  destruct (int_max_str_digits <? Z.of_nat (String.length d)); [reflexivity|].
  destruct d as [|c d]; [congruence|].
  assert (Hc : is_digit c = true) by (simpl in H; apply andb_true_iff in H; tauto).
  destruct (is_digit_not_sign _ Hc) as [-> ->].
  apply int_digits_all; auto.
Qed.

Lemma int_error_of_digits d :
  all_digits d = true -> d <> EmptyString ->
  int_max_str_digits < Z.of_nat (String.length d) ->
  int_error d = int_limit_message (Z.of_nat (String.length d)).
Proof.
  intros H Hne Hlen. unfold int_error.
  rewrite (int_literal_digits _ H), (scan_digits_all d 0 true H (or_introl Hne)).
  rewrite Z.add_0_l. apply Z.ltb_lt in Hlen. rewrite Hlen. reflexivity.
Qed.

Lemma decode_ascii_ignore_is_ascii data :
  is_ascii (decode_ascii_ignore data) = true.
Proof.
  induction data as [|b data IH]; simpl; [reflexivity|].
  destruct (is_ascii_char (ascii_of_byte b)) eqn:E; simpl; [rewrite E|]; exact IH.
Qed.

Lemma take_drop_digits s :
  s = (take_digits s ++ drop_digits s)%string /\
  starts_with_digit (drop_digits s) = false.
Proof.
  induction s as [|c s [IH1 IH2]]; simpl; [split; reflexivity|].
  destruct (is_digit c) eqn:E.
  - rewrite append_String, <- IH1. auto.
  - rewrite append_Empty. simpl. auto.
Qed.

Lemma take_digits_app d rest :
  all_digits d = true -> starts_with_digit rest = false ->
  take_digits (d ++ rest) = d.
Proof.
  intros Hd Hrest. induction d as [|c d IH].
  - rewrite append_Empty. destruct rest as [|c rest]; simpl in *; [reflexivity|].
    rewrite Hrest. reflexivity.
  - simpl in Hd. apply andb_true_iff in Hd as [Hc Hd].
    rewrite append_String. simpl. rewrite Hc, IH by assumption. reflexivity.
Qed.

Lemma match_In_token s d :
  match_In s = Some d <-> In_token_at s 0 d.
Proof.
  split.
  - destruct s as [|i [|n r]]; simpl; try discriminate.
    destruct (eq_nocase i "I" "i" && eq_nocase n "N" "n") eqn:E; [|discriminate].
    apply andb_true_iff in E as [Ei En].
    destruct (take_drop_digits r) as [Hr Hrest].
    pose proof (take_digits_all r) as Hall.
    destruct (take_digits r) as [|c t] eqn:Et; [discriminate|].
    intros [= <-].
    exists EmptyString, i, n, (drop_digits r).
    rewrite append_Empty, <- Hr. repeat split; auto; discriminate.
  - intros (pre & i & n & rest & -> & Hlen & Hi & Hn & Hne & Hall & Hrest).
    destruct pre; [|discriminate]. rewrite append_Empty. simpl.
    rewrite Hi, Hn, (take_digits_app _ _ Hall Hrest). simpl.
    destruct d; [congruence | reflexivity].
Qed.

Lemma In_token_at_S c s k d :
  In_token_at (String c s) (S k) d <-> In_token_at s k d.
Proof.
  split.
  - intros (pre & i & n & rest & Hs & Hlen & H).
    destruct pre as [|c' pre]; [discriminate|].
    rewrite append_String in Hs. injection Hs as -> ->.
    injection Hlen as Hlen.
    exists pre, i, n, rest. auto.
  - intros (pre & i & n & rest & -> & Hlen & H).
    exists (String c pre), i, n, rest. simpl. rewrite <- Hlen. auto.
Qed.

Lemma In_token_at_nil k d : ~ In_token_at EmptyString k d.
Proof.
  intros (pre & i & n & rest & Hs & _). destruct pre; discriminate.
Qed.

(** [search_In] finds the leftmost token. *)
Lemma search_In_Some s d :
  search_In s = Some d <->
  exists k, In_token_at s k d /\
            forall k' d', (k' < k)%nat -> ~ In_token_at s k' d'.
Proof.
  induction s as [|c s IH].
  - simpl. split; [discriminate|].
    intros (k & H & _). destruct (In_token_at_nil _ _ H).
  - change (search_In (String c s))
      with (match match_In (String c s) with
            | Some d => Some d
            | None => search_In s
            end).
    destruct (match_In (String c s)) as [d0|] eqn:E.
    + apply match_In_token in E. split.
      * intros [= <-]. exists O. split; [exact E | intros; lia].
      * intros (k & Hk & Hleft). destruct k as [|k].
        -- apply match_In_token in E, Hk. congruence.
        -- destruct (Hleft O d0); [lia | exact E].
    + rewrite IH. split.
      * intros (k & Hk & Hleft). exists (S k). split.
        -- apply In_token_at_S. exact Hk.
        -- intros [|k'] d' Hlt Htok.
           ++ apply match_In_token in Htok. congruence.
           ++ apply In_token_at_S in Htok. apply (Hleft k' d'); [lia | exact Htok].
      * intros (k & Hk & Hleft). destruct k as [|k].
        -- apply match_In_token in Hk. congruence.
        -- exists k. split; [apply In_token_at_S in Hk; exact Hk|].
           intros k' d' Hlt Htok.
           apply (Hleft (S k') d'); [lia | apply In_token_at_S; exact Htok].
Qed.

Lemma search_In_None s :
  search_In s = None <-> forall k d, ~ In_token_at s k d.
Proof.
  induction s as [|c s IH].
  - simpl. split; [intros _ k d; apply In_token_at_nil | reflexivity].
  - change (search_In (String c s))
      with (match match_In (String c s) with
            | Some d => Some d
            | None => search_In s
            end).
    destruct (match_In (String c s)) as [d0|] eqn:E.
    + split; [discriminate|]. intros H.
      apply match_In_token in E. destruct (H _ _ E).
    + rewrite IH. split.
      * intros H [|k] d Htok.
        -- apply match_In_token in Htok. congruence.
        -- apply In_token_at_S in Htok. exact (H _ _ Htok).
      * intros H k d Htok. apply (H (S k) d). apply In_token_at_S. exact Htok.
Qed.

Lemma search_In_digits s d :
  search_In s = Some d -> all_digits d = true /\ d <> EmptyString.
Proof.
  intros H. apply search_In_Some in H as (k & Htok & _).
  destruct Htok as (pre & i & n & rest & _ & _ & _ & _ & Hne & Hall & _). auto.
Qed.

Lemma rstrip_idem s : rstrip (rstrip s) = rstrip s.
Proof.
  induction s as [|c s IH]; simpl; [reflexivity|].
  destruct (is_space c && is_empty (rstrip s)) eqn:E; simpl; [reflexivity|].
  rewrite IH, E. reflexivity.
Qed.

Lemma lstrip_head s :
  match lstrip s with
  | EmptyString => True
  | String c _ => is_space c = false
  end.
Proof.
  induction s as [|c s IH]; simpl; [exact I|].
  destruct (is_space c) eqn:E; [exact IH | exact E].
Qed.

Lemma strip_idem s : strip (strip s) = strip s.
Proof.
  unfold strip. pose proof (lstrip_head s) as H.
  destruct (lstrip s) as [|c t]; [reflexivity|].
  assert (E : rstrip (String c t) = String c (rstrip t))
    by (simpl; rewrite H; reflexivity).
  rewrite E. simpl lstrip. rewrite H, <- E. apply rstrip_idem.
Qed.

Lemma skip_space_strip s : skip_space (strip s) = strip s.
Proof.
  unfold strip. pose proof (lstrip_head s) as H.
  destruct (lstrip s) as [|c t]; [reflexivity|].
  assert (E : rstrip (String c t) = String c (rstrip t))
    by (simpl; rewrite H; reflexivity).
  rewrite E. simpl.
  destruct (is_c_space c) eqn:Hc; [|reflexivity].
  apply is_c_space_is_space in Hc. congruence.
Qed.

(** The value [int] reads is negative only behind a minus sign. *)
Lemma int_nonneg s n :
  Py.int s = Some n -> startswith "-" (skip_space s) = false -> 0 <= n.
Proof.
  unfold Py.int, startswith.
  destruct (scan_digits 0 true (int_literal s)) as [digits|]; [|discriminate].
  destruct (int_max_str_digits <? digits); [discriminate|].
  destruct (skip_space s) as [|c r]; [discriminate|].
  destruct (Ascii.eqb_spec c "-") as [->|_].
  - intros _ H.
    assert (String.prefix "-" (String "-" r) = true)
      by (apply prefix_app; exists r; reflexivity).
    congruence.
  - intros H _. destruct (Ascii.eqb c "+");
      apply int_digits_nonneg in H; lia.
Qed.

End TextFacts.

(** ** Response parser *)

Section ResponseParser.

Import Py.

Lemma tie_of_response_token response k d :
  In_token_at response k d ->
  (forall k' d', (k' < k)%nat -> ~ In_token_at response k' d') ->
  tie_of_response response =
  if int_max_str_digits <? Z.of_nat (String.length d)
  then Raise (Exception (int_limit_message (Z.of_nat (String.length d))))
  else Return (digits_value 0 d).
Proof.
  intros Htok Hleft.
  assert (H : search_In response = Some d)
    by (apply search_In_Some; exists k; auto).
  unfold tie_of_response. rewrite H.
  destruct (search_In_digits _ _ H) as [Hall Hne].
  rewrite (int_of_digits _ Hall Hne).
  destruct (int_max_str_digits <? Z.of_nat (String.length d)) eqn:E; [|reflexivity].
  apply Z.ltb_lt in E. rewrite (int_error_of_digits _ Hall Hne E). reflexivity.
Qed.

Lemma tie_of_response_bare response :
  (forall k d, ~ In_token_at response k d) ->
  tie_of_response response = Return (default 0 (Py.int (strip response))).
Proof.
  intros H. apply search_In_None in H.
  unfold tie_of_response. rewrite H.
  destruct (Py.int (strip response)); reflexivity.
Qed.

Example In_token_at_full_format : In_token_at "Out01 In05 All" 6 "05".
Proof.
  exists "Out01 "%string, "I"%char, "n"%char, " All"%string.
  repeat split; discriminate.
Qed.

(** C4.  The tie number of a response text.  When the text holds an
    [In<digits>] token (letters in either case), the parse reads the digits
    of the leftmost one: it returns their value when they are at most 4300,
    and raises the [ValueError] of [int()] when they are more, since the
    conversion of line 183 stands outside the [try] that guards the
    conversion of line 190.  Without a token it never raises: it returns
    the integer that [int] reads in the whole trimmed text, and 0 when
    there is none.  The text "In" followed by 4301 digits makes it raise;
    the four texts of the specification give 5, 5, 0 and 0. *)
Theorem tie_of_response_parse :
  (forall response k d,
     In_token_at response k d ->
     (forall k' d', (k' < k)%nat -> ~ In_token_at response k' d') ->
     (Z.of_nat (String.length d) <= int_max_str_digits ->
      tie_of_response response = Return (digits_value 0 d)) /\
     (int_max_str_digits < Z.of_nat (String.length d) ->
      tie_of_response response =
        Raise (Exception (int_limit_message (Z.of_nat (String.length d)))))) /\
  (forall response,
     (forall k d, ~ In_token_at response k d) ->
     tie_of_response response =
       Return (match Py.int (strip response) with
               | Some n => n
               | None => 0
               end)) /\
  tie_of_response ("In" ++ str_mul "1" (Z.to_nat 4301)) =
    Raise (Exception
      "Exceeds the limit (4300 digits) for integer string conversion: value has 4301 digits; use sys.set_int_max_str_digits() to increase the limit") /\
  tie_of_response "Out01 In05 All" = Return 5 /\
  tie_of_response "05" = Return 5 /\
  tie_of_response "garbage" = Return 0 /\
  tie_of_response "" = Return 0.
Proof.
  split.
  { intros response k d Htok Hleft.
    rewrite (tie_of_response_token _ _ _ Htok Hleft). split; intros H.
    - apply Z.ltb_ge in H. rewrite H. reflexivity.
    - apply Z.ltb_lt in H. rewrite H. reflexivity. }
  split; [exact tie_of_response_bare|].
  split; [vm_compute; reflexivity|].
  repeat split; reflexivity.
Qed.

Lemma tie_of_response_sign response n :
  tie_of_response response = Return n ->
  (exists k d, In_token_at response k d) \/
  startswith "-" (strip response) = false ->
  0 <= n.
Proof.
  unfold tie_of_response.
  destruct (search_In response) as [d|] eqn:H.
  - destruct (search_In_digits _ _ H) as [Hall Hne].
    rewrite (int_of_digits _ Hall Hne).
    destruct (int_max_str_digits <? Z.of_nat (String.length d)); [discriminate|].
    intros [= <-] _.
    apply (digits_value_nonneg d 0 Hall). lia.
  - intros Hn [(k & d & Htok)|Hsign].
    + destruct (proj1 (search_In_None _) H _ _ Htok).
    + destruct (Py.int (strip response)) as [m|] eqn:E.
      * injection Hn as <-. apply (int_nonneg _ _ E).
        rewrite skip_space_strip. exact Hsign.
      * injection Hn as <-. lia.
Qed.

(** C6.  The acknowledgment check of [set_output_tie] holds exactly for
    the texts that have "Out" as a substring and do not start with "E"; it
    accepts "Out01•In05•All" and rejects "E10" and the empty text. *)
Theorem ack_of_response_iff :
  (forall response,
     ack_of_response response = true <->
     (exists pre post, response = (pre ++ "Out" ++ post)%string) /\
     ~ (exists rest, response = ("E" ++ rest)%string)) /\
  ack_of_response "Out01•In05•All" = true /\
  ack_of_response "E10" = false /\
  ack_of_response "" = false.
Proof.
  split; [|repeat split; reflexivity].
  intros response. unfold ack_of_response, startswith.
  rewrite andb_true_iff, negb_true_iff, contains_app.
  rewrite <- not_true_iff_false, prefix_app. reflexivity.
Qed.

End ResponseParser.

(** ** Decimal texts *)

Section Decimal.

Import Py.

Lemma digits_value_of_uint_acc d : forall acc,
  digits_value (Z.pos acc) (NilEmpty.string_of_uint d) =
  Z.pos (Pos.of_uint_acc d acc).
Proof.
  induction d; intros acc; simpl; try reflexivity;
    rewrite <- IHd; f_equal; unfold digit_val; simpl; lia.
Qed.

Lemma digits_value_of_uint d :
  digits_value 0 (NilEmpty.string_of_uint d) = Z.of_uint d.
Proof.
  unfold Z.of_uint.
  induction d; simpl; try reflexivity; try exact IHd;
    apply (digits_value_of_uint_acc d).
Qed.

Lemma all_digits_of_uint d : all_digits (NilEmpty.string_of_uint d) = true.
Proof. induction d; simpl; auto. Qed.

Lemma string_of_uint_pos p :
  NilZero.string_of_uint (Pos.to_uint p) = NilEmpty.string_of_uint (Pos.to_uint p) /\
  NilEmpty.string_of_uint (Pos.to_uint p) <> EmptyString.
Proof.
  pose proof (DecimalPos.Unsigned.of_to p) as H.
  destruct (Pos.to_uint p) eqn:E; simpl in *; split;
    try reflexivity; discriminate.
Qed.

(** The decimal text of a number that is not negative: a non-empty run of
    digits whose value is the number. *)
Lemma decimal_nonneg n :
  0 <= n ->
  all_digits (decimal n) = true /\ decimal n <> EmptyString /\
  digits_value 0 (decimal n) = n.
Proof.
  intros Hn. unfold decimal. destruct n as [|p|p]; [| |lia]; simpl.
  - repeat split; discriminate.
  - destruct (string_of_uint_pos p) as [E Hne]. rewrite E.
    split; [apply all_digits_of_uint|]. split; [exact Hne|].
    rewrite digits_value_of_uint. unfold Z.of_uint.
    rewrite DecimalPos.Unsigned.of_to. reflexivity.
Qed.

(** The decimal text of a negative number: a minus sign, then the text of
    its absolute value. *)
Lemma decimal_neg n :
  n < 0 -> decimal n = String "-" (decimal (Z.abs n)).
Proof.
  intros Hn. destruct n as [|p|p]; [lia | lia | reflexivity].
Qed.

Lemma decimal_shape n :
  decimal n = if n <? 0 then String "-" (decimal (Z.abs n)) else decimal (Z.abs n).
Proof.
  destruct (Z.ltb_spec n 0) as [Hn|Hn].
  - apply decimal_neg. exact Hn.
  - rewrite Z.abs_eq by exact Hn. reflexivity.
Qed.

Lemma all_digits_no_space d : all_digits d = true -> no_space d = true.
Proof.
  induction d as [|c d IH]; [reflexivity|]. simpl.
  intros H. apply andb_true_iff in H as [Hc Hd].
  rewrite (is_digit_not_space _ Hc), (IH Hd). reflexivity.
Qed.

Lemma no_space_decimal n : no_space (decimal n) = true.
Proof.
  rewrite decimal_shape.
  destruct (decimal_nonneg (Z.abs n) (Z.abs_nonneg n)) as (Hall & _ & _).
  destruct (n <? 0); [simpl|]; apply all_digits_no_space; exact Hall.
Qed.

Lemma decimal_nonempty n : decimal n <> EmptyString.
Proof.
  rewrite decimal_shape.
  destruct (decimal_nonneg (Z.abs n) (Z.abs_nonneg n)) as (_ & Hne & _).
  destruct (n <? 0); [discriminate | exact Hne].
Qed.

Lemma rstrip_no_space s : no_space s = true -> rstrip s = s.
Proof.
  induction s as [|c s IH]; [reflexivity|]. simpl.
  intros H. apply andb_true_iff in H as [Hc Hs].
  apply negb_true_iff in Hc. rewrite Hc, (IH Hs). reflexivity.
Qed.

Lemma strip_no_space s : no_space s = true -> strip s = s.
Proof.
  intros H. unfold strip.
  destruct s as [|c s]; [reflexivity|].
  pose proof H as H'. simpl in H'. apply andb_true_iff in H' as [Hc _].
  apply negb_true_iff in Hc. simpl lstrip. rewrite Hc.
  apply rstrip_no_space. exact H.
Qed.

Lemma decimal_value_decimal n : decimal_value (decimal n) = n.
Proof.
  rewrite decimal_shape.
  destruct (decimal_nonneg (Z.abs n) (Z.abs_nonneg n)) as (Hall & Hne & Hval).
  destruct (Z.ltb_spec n 0) as [Hn|Hn].
  - simpl. rewrite Hval. lia.
  - destruct (decimal (Z.abs n)) as [|c d] eqn:E; [congruence|].
    assert (Hc : is_digit c = true)
      by (simpl in Hall; apply andb_true_iff in Hall; tauto).
    unfold decimal_value. destruct (is_digit_not_sign _ Hc) as [-> _].
    rewrite Hval. lia.
Qed.

Lemma decimal_inj n m : decimal n = decimal m -> n = m.
Proof.
  intros H. rewrite <- (decimal_value_decimal n), H. apply decimal_value_decimal.
Qed.

Lemma str_of_int_Some n text :
  str_of_int n = Some text <->
  text = decimal n /\ digit_count n <= int_max_str_digits.
Proof.
  unfold str_of_int.
  destruct (Z.leb_spec (digit_count n) int_max_str_digits) as [H|H]; split.
  - intros [= <-]. auto.
  - intros [-> _]. reflexivity.
  - discriminate.
  - intros [_ H']. lia.
Qed.

Lemma str_of_int_None n :
  str_of_int n = None <-> int_max_str_digits < digit_count n.
Proof.
  unfold str_of_int.
  destruct (Z.leb_spec (digit_count n) int_max_str_digits) as [H|H]; split;
    try discriminate; try reflexivity; auto; lia.
Qed.

(** [int] reads the decimal text of a number that can be printed. *)
Lemma int_decimal n :
  digit_count n <= int_max_str_digits -> Py.int (decimal n) = Some n.
Proof.
  intros Hlim. unfold digit_count in Hlim.
  destruct (decimal_nonneg (Z.abs n) (Z.abs_nonneg n)) as (Hall & Hne & Hval).
  destruct (Z.ltb_spec n 0) as [Hn|Hn].
  - rewrite (decimal_neg n Hn). unfold Py.int.
    change (int_literal (String "-" (decimal (Z.abs n))))
      with (decimal (Z.abs n)).
    change (skip_space (String "-" (decimal (Z.abs n))))
      with (String "-" (decimal (Z.abs n))).
    rewrite (scan_digits_all _ 0 true Hall (or_introl Hne)), Z.add_0_l.
    apply Z.ltb_ge in Hlim. rewrite Hlim.
    change (Ascii.eqb "-" "-") with true. cbv iota.
    rewrite (int_digits_all _ 0 false Hall (or_introl Hne)), Hval.
    simpl. f_equal. lia.
  - rewrite Z.abs_eq in * by exact Hn.
    rewrite (int_of_digits _ Hall Hne).
    apply Z.ltb_ge in Hlim. rewrite Hlim, Hval. reflexivity.
Qed.

(** [int(str(n)) == n] *)
Lemma int_str_of_int n text : str_of_int n = Some text -> Py.int text = Some n.
Proof.
  intros H. apply str_of_int_Some in H as [-> H]. apply int_decimal. exact H.
Qed.

Lemma str_of_int_inj n m text :
  str_of_int n = Some text -> str_of_int m = Some text -> n = m.
Proof.
  intros Hn Hm. apply str_of_int_Some in Hn as [-> _].
  apply str_of_int_Some in Hm as [Hm _]. apply decimal_inj. exact Hm.
Qed.

Lemma digits_value_bounds s : forall acc,
  all_digits s = true -> 0 <= acc ->
  acc * 10 ^ Z.of_nat (String.length s) <= digits_value acc s
  < (acc + 1) * 10 ^ Z.of_nat (String.length s).
Proof.
  induction s as [|c s IH]; intros acc H Hacc.
  - simpl. lia.
  - simpl in H. apply andb_true_iff in H as [Hc Hs].
    pose proof (is_digit_val _ Hc) as Hv.
    cbn [digits_value String.length].
    specialize (IH (10 * acc + digit_val c) Hs).
    rewrite Nat2Z.inj_succ, Z.pow_succ_r by lia.
    assert (Hp : 0 < 10 ^ Z.of_nat (String.length s)) by (apply Z.pow_pos_nonneg; lia).
    nia.
Qed.

(** The decimal text of a positive number does not start with a zero. *)
Lemma to_uint_head p :
  match Pos.to_uint p with
  | Decimal.Nil | Decimal.D0 _ => False
  | _ => True
  end.
Proof.
  pose proof (DecimalPos.Unsigned.to_of (Pos.to_uint p)) as H.
  rewrite DecimalPos.Unsigned.of_to in H. simpl in H.
  pose proof (DecimalPos.Unsigned.to_uint_nonzero p) as Hnz.
  pose proof (DecimalFacts.nzhead_nonzero (Pos.to_uint p)) as Hhead.
  unfold Decimal.unorm in H.
  destruct (Decimal.nzhead (Pos.to_uint p)) eqn:E;
    try (rewrite H; exact I).
  - congruence.
  - destruct (Hhead u). reflexivity.
Qed.

Lemma decimal_pos_lower p :
  10 ^ (Z.of_nat (String.length (decimal (Z.pos p))) - 1) <= Z.pos p.
Proof.
  destruct (decimal_nonneg (Z.pos p)) as (Hall & Hne & Hval); [lia|].
  unfold decimal in *. simpl in *.
  destruct (string_of_uint_pos p) as [E _]. rewrite E in *.
  pose proof (to_uint_head p) as Hhead.
  destruct (Pos.to_uint p) as [|u|u|u|u|u|u|u|u|u|u]; try contradiction;
    cbn [NilEmpty.string_of_uint String.length] in *;
    rewrite Nat2Z.inj_succ, Z.sub_1_r, Z.pred_succ;
    rewrite <- Hval; cbn [digits_value];
    (apply andb_true_iff in Hall as [_ Hall]);
    match goal with
    | |- _ <= digits_value ?a ?t =>
        pose proof (digits_value_bounds t a Hall ltac:(unfold digit_val; simpl; lia)) as Hb;
        unfold digit_val in *; simpl in *; lia
    end.
Qed.

(** A smaller number has no more digits. *)
Lemma digit_count_mono a b :
  0 <= a <= b -> digit_count a <= digit_count b.
Proof.
  intros [Ha Hab]. unfold digit_count.
  rewrite !Z.abs_eq by lia.
  destruct (decimal_nonneg b) as (Hallb & Hneb & Hvalb); [lia|].
  pose proof (digits_value_bounds (decimal b) 0 Hallb ltac:(lia)) as Hb.
  rewrite Hvalb in Hb.
  destruct a as [|p|p]; [| |lia].
  - change (decimal 0) with "0"%string. simpl String.length.
    destruct (decimal b); [congruence|]. simpl String.length. lia.
  - pose proof (decimal_pos_lower p) as Hp.
    destruct (Z.le_gt_cases (Z.of_nat (String.length (decimal (Z.pos p))))
                (Z.of_nat (String.length (decimal b)))) as [H|H]; [exact H|].
    assert (Hle : 10 ^ Z.of_nat (String.length (decimal b))
                  <= 10 ^ (Z.of_nat (String.length (decimal (Z.pos p))) - 1))
      by (apply Z.pow_le_mono_r; lia).
    lia.
Qed.

Lemma str_of_int_mono a b :
  0 <= a <= b -> digit_count b <= int_max_str_digits ->
  exists text, str_of_int a = Some text.
Proof.
  intros Hab Hb. exists (decimal a). apply str_of_int_Some. split; [reflexivity|].
  pose proof (digit_count_mono a b Hab). lia.
Qed.

Lemma all_digits_middle pre i rest :
  all_digits (pre ++ String i rest) = true -> is_digit i = true.
Proof.
  induction pre as [|c pre IH].
  - rewrite append_Empty. simpl. intros H. apply andb_true_iff in H. tauto.
  - rewrite append_String. simpl. intros H. apply andb_true_iff in H as [_ H]. auto.
Qed.

Lemma eq_nocase_I_not_digit i :
  eq_nocase i "I" "i" = true -> is_digit i = false /\ i <> "-"%char.
Proof.
  unfold eq_nocase. intros H. apply orb_true_iff in H as [H|H];
    apply Ascii.eqb_eq in H; subst; split; (reflexivity || discriminate).
Qed.

(** The decimal text of an integer holds no [In<digits>] token. *)
Lemma decimal_no_token n k d : ~ In_token_at (decimal n) k d.
Proof.
  intros (pre & i & m & rest & Hs & _ & Hi & _).
  apply eq_nocase_I_not_digit in Hi as [Hdig Hminus].
  destruct (decimal_nonneg (Z.abs n) (Z.abs_nonneg n)) as (Hall & _ & _).
  rewrite decimal_shape in Hs.
  destruct (n <? 0).
  - destruct pre as [|c pre].
    + rewrite append_Empty in Hs. congruence.
    + rewrite append_String in Hs. injection Hs as _ Hs. rewrite Hs in Hall.
      apply all_digits_middle in Hall. congruence.
  - rewrite Hs in Hall. apply all_digits_middle in Hall. congruence.
Qed.

Lemma is_ascii_app s t : is_ascii (s ++ t)%string = is_ascii s && is_ascii t.
Proof.
  induction s as [|c s IH]; [reflexivity|].
  rewrite append_String. simpl. rewrite IH. apply andb_assoc.
Qed.

Lemma is_ascii_string_of_uint d : is_ascii (NilEmpty.string_of_uint d) = true.
Proof. induction d; simpl; auto. Qed.

Lemma is_ascii_string_of_uint0 d : is_ascii (NilZero.string_of_uint d) = true.
Proof.
  destruct d; try reflexivity; apply (is_ascii_string_of_uint (_ d)).
Qed.

Lemma is_ascii_decimal n : is_ascii (decimal n) = true.
Proof.
  unfold decimal, NilZero.string_of_int.
  destruct (Z.to_int n) as [d|d].
  - apply is_ascii_string_of_uint0.
  - change (is_ascii (String "-" (NilZero.string_of_uint d)))
      with (is_ascii (NilZero.string_of_uint d)).
    apply is_ascii_string_of_uint0.
Qed.

Lemma encode_ascii_is_ascii s :
  is_ascii s = true -> encode_ascii s = Some (list_byte_of_string s).
Proof.
  induction s as [|c s IH]; [reflexivity|].
  simpl. intros H. apply andb_true_iff in H as [Hc Hs].
  rewrite Hc, (IH Hs). reflexivity.
Qed.

End Decimal.

(** ** Running programs *)

Section Exec.

Lemma exec_bind {A B} (m : prog A) (f : A -> prog B) c w :
  exec (bind m f) c w =
  match exec m c w with
  | (Return a, c', w') => exec (f a) c' w'
  | (Raise e, c', w') => (Raise e, c', w')
  end.
Proof.
  revert c w. induction m; intros c w; simpl; auto.
Qed.

Lemma exec_try_except {A} (body : prog A) (handler : exn -> prog A) c w :
  exec (try_except body handler) c w =
  match exec body c w with
  | (Return a, c', w') => (Return a, c', w')
  | (Raise e, c', w') => exec (handler e) c' w'
  end.
Proof.
  revert c w. induction body; intros c w; simpl; auto.
Qed.

Lemma exec_of_outcome {A} (r : outcome A) c w :
  exec (of_outcome r) c w = (r, c, w).
Proof. destruct r; reflexivity. Qed.

Lemma advance_reads_0 w : advance_reads 0 w = w.
Proof. destruct w; reflexivity. Qed.

Lemma advance_reads_add j k w :
  advance_reads j (advance_reads k w) = advance_reads (j + k) w.
Proof. unfold advance_reads; simpl. f_equal. lia. Qed.

Lemma nth_line_advance w k i :
  nth_line (advance_reads k w) i = nth_line w (i + k).
Proof. unfold nth_line; simpl. f_equal. f_equal. lia. Qed.

End Exec.

(** ** Transport session: reading *)

Section Reading.

Lemma exec_read_until_prompt_none c w :
  _reader c = None ->
  exec _read_until_prompt c w =
  (Raise (Exception "Not connected - no reader available"),
   set_connected false c, w).
Proof.
  intros Hr. unfold _read_until_prompt.
  rewrite exec_try_except. simpl. rewrite Hr. reflexivity.
Qed.

Lemma read_response_loop_S budget line :
  _read_response_loop (S budget) line =
  if looks_like_timestamp line then
    bind _read_until_prompt (_read_response_loop budget)
  else Ret line.
Proof. reflexivity. Qed.

Section WithReader.

(** A client that has a reader. *)
Variables (c : ExtronClient) (conn : nat).
Hypothesis Hreader : _reader c = Some conn.

Lemma exec_read_until_prompt w :
  exec _read_until_prompt c w =
  (nth_line w 0, after_read (nth_line w 0) c, advance_reads 1 w).
Proof.
  unfold _read_until_prompt, nth_line.
  rewrite exec_try_except. simpl. rewrite Hreader. simpl.
  destruct (read_oracle w (n_reads w)) as [data|[msg|msg]]; reflexivity.
Qed.

(** With line [j] at hand, the loop stops at some line [k] after at most
    [budget] more reads; every line before [k] looked like a timestamp,
    and line [k] does not unless the budget is used up. *)
Lemma exec_read_response_loop w :
  forall budget j line,
  nth_line w j = Return line ->
  exists k,
    (j <= k <= j + budget)%nat /\
    exec (_read_response_loop budget line) c (advance_reads (S j) w) =
      (nth_line w k, after_read (nth_line w k) c, advance_reads (S k) w) /\
    (forall i, (j <= i < k)%nat ->
       exists l, nth_line w i = Return l /\ looks_like_timestamp l = true) /\
    ((k < j + budget)%nat ->
       forall l, nth_line w k = Return l -> looks_like_timestamp l = false).
Proof.
  induction budget as [|budget IH]; intros j line Hj.
  - exists j. rewrite Hj. simpl. repeat split; intros; lia.
  - rewrite read_response_loop_S.
    destruct (looks_like_timestamp line) eqn:Hline.
    + rewrite exec_bind, exec_read_until_prompt.
      rewrite nth_line_advance, advance_reads_add.
      change (0 + S j)%nat with (S j). change (1 + S j)%nat with (S (S j)).
      destruct (nth_line w (S j)) as [line'|e] eqn:Hnext.
      * simpl after_read.
        destruct (IH (S j) line' Hnext) as (k & Hk & Hexec & Hnoise & Hstop).
        exists k. split; [lia|]. split; [exact Hexec|]. split.
        -- intros i Hi. destruct (Nat.eq_dec i j) as [->|Hne].
           ++ exists line. auto.
           ++ apply Hnoise. lia.
        -- intros Hlt. apply Hstop. lia.
      * exists (S j). rewrite Hnext. split; [lia|]. split; [reflexivity|]. split.
        -- intros i Hi. assert (i = j) as -> by lia. exists line. auto.
        -- intros _ l [=].
    + exists j. rewrite Hj. split; [lia|]. split; [reflexivity|]. split.
      * intros; lia.
      * intros _ l [= <-]. exact Hline.
Qed.

Lemma exec_read_response w :
  exists k,
    (k <= 3)%nat /\
    exec _read_response c w =
      (nth_line w k, after_read (nth_line w k) c, advance_reads (S k) w) /\
    (forall i, (i < k)%nat ->
       exists l, nth_line w i = Return l /\ looks_like_timestamp l = true) /\
    ((k < 3)%nat ->
       forall l, nth_line w k = Return l -> looks_like_timestamp l = false).
Proof.
  unfold _read_response.
  rewrite exec_bind, exec_read_until_prompt.
  destruct (nth_line w 0) as [line|e] eqn:H0.
  - simpl after_read.
    destruct (exec_read_response_loop w 3 0%nat line H0)
      as (k & Hk & Hexec & Hnoise & Hstop).
    exists k. split; [lia|]. split; [exact Hexec|]. split.
    + intros i Hi. apply Hnoise. lia.
    + intros Hlt. apply Hstop. lia.
  - exists O. rewrite H0. split; [lia|]. split; [reflexivity|]. split.
    + intros; lia.
    + intros _ l [=].
Qed.

End WithReader.

Lemma looks_like_timestamp_iff line :
  looks_like_timestamp line = true <->
  line <> EmptyString /\
  (exists pre post, line = (pre ++ "," ++ post)%string) /\
  (exists pre post, line = (pre ++ "202" ++ post)%string).
Proof.
  unfold looks_like_timestamp.
  rewrite !andb_true_iff, negb_true_iff, !contains_app.
  destruct line; simpl; intuition congruence.
Qed.

(** C3 (amended).  [_read_response] reads a line and reads again exactly
    while the line at hand is not empty, contains a comma and contains the
    text "202", and fewer than 3 re-reads were made.  So it stops at a line
    [k] with [k <= 3] (at most 4 reads), and its result is the last line
    read, an error of that read included. *)
Theorem read_response_retry_budget c w conn :
  _reader c = Some conn ->
  exists k,
    (k <= 3)%nat /\
    exec _read_response c w =
      (nth_line w k, after_read (nth_line w k) c, advance_reads (S k) w) /\
    (forall i, (i < k)%nat ->
       exists l, nth_line w i = Return l /\
         l <> EmptyString /\
         (exists pre post, l = (pre ++ "," ++ post)%string) /\
         (exists pre post, l = (pre ++ "202" ++ post)%string)) /\
    ((k < 3)%nat ->
       forall l, nth_line w k = Return l ->
         ~ (l <> EmptyString /\
            (exists pre post, l = (pre ++ "," ++ post)%string) /\
            (exists pre post, l = (pre ++ "202" ++ post)%string))).
Proof.
  intros Hr.
  destruct (exec_read_response c conn Hr w) as (k & Hk & Hexec & Hnoise & Hstop).
  exists k. split; [exact Hk|]. split; [exact Hexec|]. split.
  - intros i Hi. destruct (Hnoise i Hi) as (l & Hl & Hts).
    exists l. split; [exact Hl|]. apply looks_like_timestamp_iff. exact Hts.
  - intros Hlt l Hl Hts. apply looks_like_timestamp_iff in Hts.
    rewrite (Hstop Hlt l Hl) in Hts. discriminate.
Qed.

(** Four timestamps in a row: the fourth is returned after 4 reads.  A
    device that stays silent gives the empty line. *)
Lemma read_response_retry_budget_witness :
  (exists k,
    (k <= 3)%nat /\
    exec _read_response (opened_client None) (scripted_world noisy_script) =
      (nth_line (scripted_world noisy_script) k,
       after_read (nth_line (scripted_world noisy_script) k) (opened_client None),
       advance_reads (S k) (scripted_world noisy_script)) /\
    (forall i, (i < k)%nat ->
       exists l, nth_line (scripted_world noisy_script) i = Return l /\
         l <> EmptyString /\
         (exists pre post, l = (pre ++ "," ++ post)%string) /\
         (exists pre post, l = (pre ++ "202" ++ post)%string)) /\
    ((k < 3)%nat ->
       forall l, nth_line (scripted_world noisy_script) k = Return l ->
         ~ (l <> EmptyString /\
            (exists pre post, l = (pre ++ "," ++ post)%string) /\
            (exists pre post, l = (pre ++ "202" ++ post)%string)))) /\
  exec _read_response (opened_client None) (scripted_world noisy_script) =
    (Return "2024-05-01, 10:03"%string, opened_client None,
     advance_reads 4 (scripted_world noisy_script)) /\
  result_of (exec _read_response (opened_client None) (scripted_world [])) =
    Return EmptyString.
Proof.
  split; [|split].
  - apply (read_response_retry_budget (opened_client None)
             (scripted_world noisy_script) 0%nat).
    reflexivity.
  - vm_compute. reflexivity.
  - vm_compute. reflexivity.
Defined.

(** C3 as the specification words it.  The line "2019-12-31, 23:59" is not
    empty, contains a comma and the 3-digit token "201" beginning with
    "20", and no re-read was made yet; [_read_response] returns it after a
    single read. *)
Lemma read_response_keeps_2019_line :
  spec_timestamp_noise "2019-12-31, 23:59" = true /\
  exec _read_response (opened_client None)
       (scripted_world ["2019-12-31, 23:59"; "Out01 In05 All"]%string) =
    (Return "2019-12-31, 23:59"%string, opened_client None,
     advance_reads 1 (scripted_world ["2019-12-31, 23:59"; "Out01 In05 All"]%string)).
Proof.
  split; vm_compute; reflexivity.
Qed.

End Reading.

(** ** Transport session: connecting *)

Section Session.

Lemma exec_send_command_raw command c w :
  exec (_send_command_raw command) c w =
  match _writer c with
  | None => (Raise (Exception "Not connected"), c, w)
  | Some conn =>
      match Py.encode_ascii (command ++ Py.CRLF)%string with
      | None => (Raise (Exception "'ascii' codec can't encode character"), c, w)
      | Some data =>
          (fst (do_drain (do_write conn data w)), c,
           snd (do_drain (do_write conn data w)))
      end
  end.
Proof.
  unfold _send_command_raw, encode_line. simpl.
  destruct (_writer c) as [conn|]; [|reflexivity].
  destruct (Py.encode_ascii _) as [data|]; [|reflexivity].
  simpl. destruct (drain_oracle w (n_drains w)); reflexivity.
Qed.

Lemma nth_line_raise w k e :
  nth_line w k = Raise e -> exists msg, e = Exception msg.
Proof.
  unfold nth_line, line_of.
  destruct (read_oracle w (k + n_reads w)) as [data|[msg|msg]];
    intros [=]; subst; eauto.
Qed.

Lemma exec_get_self c w : exec get_self c w = (Return c, c, w).
Proof. reflexivity. Qed.

Lemma exec_modify_self f c w : exec (modify_self f) c w = (Return tt, f c, w).
Proof. reflexivity. Qed.

Ltac exec_step :=
  first [ rewrite exec_bind | rewrite exec_try_except
        | rewrite exec_get_self | rewrite exec_modify_self ];
  cbv beta iota.

Lemma exec_authenticate_no_password response c w :
  Py.contains "Password:" response = true ->
  no_password (password c) = true ->
  exec (authenticate response) c w =
  (Raise (Exception "Password required but not provided"), c, w).
Proof.
  intros Hprompt Hpw. unfold authenticate. rewrite Hprompt.
  do 2 exec_step. rewrite Hpw. reflexivity.
Qed.

Lemma exec_authenticate response c w conn :
  _reader c = Some conn -> _writer c = Some conn ->
  exists r c' w',
    exec (authenticate response) c w = (r, c', w') /\
    credential_only c conn w w' /\
    match r with
    | Return _ => c' = c
    | Raise (TimeoutError _) => c' = c
    | Raise (Exception _) => c' = c \/ c' = set_connected false c
    end.
Proof.
  intros Hr Hw. unfold authenticate.
  destruct (Py.contains "Password:" response).
  2:{ exists (Return tt), c, w. split; [reflexivity|]. split; [left|]; reflexivity. }
  do 2 exec_step.
  destruct (no_password (password c)) eqn:Hpw.
  { exists (Raise (Exception "Password required but not provided")), c, w.
    split; [reflexivity|]. split; [left; reflexivity | left; reflexivity]. }
  destruct (password c) as [pw|] eqn:Hpass; [|discriminate].
  simpl default. exec_step. rewrite exec_send_command_raw, Hw.
  destruct (Py.encode_ascii (pw ++ Py.CRLF)) as [data|] eqn:Henc.
  2:{ eexists _, c, w. split; [reflexivity|]. split; [left; reflexivity | left; reflexivity]. }
  assert (Hcred : forall w', wire w' = wire (do_write conn data w) ->
                             credential_only c conn w w').
  { intros w' Hw'. right. exists pw, data. rewrite Hpass.
    repeat split; auto. intros ->. discriminate. }
  unfold do_drain at 1. cbn [fst].
  destruct (drain_oracle _ _) as [|e] eqn:Hdrain.
  2:{ eexists (Raise e), c, _. split; [reflexivity|]. split.
      - apply Hcred. reflexivity.
      - destruct e; auto. }
  exec_step.
  destruct (exec_read_response c conn Hr (snd (do_drain (do_write conn data w))))
    as (k & _ & Hexec & _).
  rewrite Hexec.
  destruct (nth_line _ k) as [login|e] eqn:Hline.
  - cbn [after_read].
    destruct (negb (Py.contains "Login" login));
      eexists _, c, _; (split; [reflexivity|]); (split; [apply Hcred; reflexivity|]); auto.
  - destruct (nth_line_raise _ _ _ Hline) as [msg ->].
    eexists _, _, _. split; [reflexivity|]. split; [apply Hcred; reflexivity|].
    right. reflexivity.
Qed.

Lemma wire_do_open w : wire (snd (do_open w)) = wire w.
Proof. reflexivity. Qed.

Lemma credential_only_wire c conn w1 w2 w' :
  wire w2 = wire w1 -> credential_only c conn w2 w' -> credential_only c conn w1 w'.
Proof.
  intros Hw [H|(pw & data & H1 & H2 & H3 & H4)].
  - left. congruence.
  - right. exists pw, data. rewrite <- Hw. auto.
Qed.

Lemma credential_only_config c1 c2 conn w w' :
  password c2 = password c1 ->
  credential_only c1 conn w w' -> credential_only c2 conn w w'.
Proof.
  intros Hp [H|(pw & data & H1 & H2 & H3 & H4)].
  - left. exact H.
  - right. exists pw, data. rewrite Hp. auto.
Qed.

Lemma read_greeting_post c w :
  let opened := set_streams (Some (n_opens w)) (Some (n_opens w)) c in
  exists r c' w',
    exec read_greeting c w = (r, c', w') /\
    wire w' = wire w /\
    match r with
    | Return _ => c' = opened
    | Raise (TimeoutError _) => c' = c
    | Raise (Exception _) => c' = c \/ c' = set_connected false opened
    end.
Proof.
  intros opened. unfold read_greeting.
  exec_step. unfold open_connection. cbn [exec]. rewrite exec_of_outcome.
  cbv beta iota. unfold do_open at 1. cbn [fst].
  destruct (open_oracle w (n_opens w)) as [|e] eqn:Hopen.
  2:{ exists (Raise e), c, (snd (do_open w)).
      split; [reflexivity|]. split; [reflexivity|]. destruct e; auto. }
  do 2 exec_step. fold opened.
  assert (Hr : _reader opened = Some (n_opens w)) by reflexivity.
  exec_step. rewrite (exec_read_until_prompt _ _ Hr).
  destruct (nth_line (snd (do_open w)) 0) as [banner|e] eqn:Hbanner.
  2:{ destruct (nth_line_raise _ _ _ Hbanner) as [msg ->].
      eexists _, _, _. split; [reflexivity|]. split; [reflexivity|].
      right. reflexivity. }
  cbn [after_read].
  destruct (exec_read_response opened _ Hr (advance_reads 1 (snd (do_open w))))
    as (k & _ & Hexec & _).
  rewrite Hexec.
  destruct (nth_line _ k) as [response|e] eqn:Hline.
  - eexists _, _, _. split; [reflexivity|]. split; reflexivity.
  - destruct (nth_line_raise _ _ _ Hline) as [msg ->].
    eexists _, _, _. split; [reflexivity|]. split; [reflexivity|].
    right. reflexivity.
Qed.

(** Lines 34-57 of [connect]: what is left of the client when they end. *)
Lemma open_and_handshake_post c w :
  let opened := set_streams (Some (n_opens w)) (Some (n_opens w)) c in
  exists r c' w',
    exec open_and_handshake c w = (r, c', w') /\
    credential_only c (n_opens w) w w' /\
    match r with
    | Return _ => c' = opened
    | Raise (TimeoutError _) => c' = c \/ c' = opened
    | Raise (Exception _) =>
        c' = c \/ c' = opened \/ c' = set_connected false opened
    end.
Proof.
  intros opened. unfold open_and_handshake. exec_step.
  destruct (read_greeting_post c w) as (r & c1 & w1 & Hgreet & Hwire & Hc1).
  fold opened in Hc1. rewrite Hgreet.
  destruct r as [response|e].
  2:{ exists (Raise e), c1, w1. split; [reflexivity|]. split; [left; exact Hwire|].
      destruct e; intuition. }
  subst c1.
  destruct (exec_authenticate response opened w1 (n_opens w) eq_refl eq_refl)
    as (r & c' & w' & Hauth & Hcred & Hc').
  rewrite Hauth. exists r, c', w'. split; [reflexivity|]. split.
  - apply (credential_only_config opened); [reflexivity|].
    eapply credential_only_wire; [exact Hwire | exact Hcred].
  - destruct r as [[]|[msg|msg]]; intuition.
Qed.

(** [connect]: the client and the wire when it ends. *)
Lemma connect_post c w :
  let opened := set_streams (Some (n_opens w)) (Some (n_opens w)) c in
  exists r c' w',
    exec connect c w = (r, c', w') /\
    credential_only c (n_opens w) w w' /\
    match r with
    | Return _ =>
        c' = set_connected true opened /\
        exec open_and_handshake c w = (Return tt, opened, w')
    | Raise e =>
        (exists msg, e = Exception msg) /\
        (c' = c \/ c' = opened \/
         c' = set_connected false c \/ c' = set_connected false opened)
    end.
Proof.
  intros opened. unfold connect, connect_body. do 2 exec_step.
  destruct (open_and_handshake_post c w) as (r & c' & w' & Hbody & Hcred & Hc').
  fold opened in Hc'. rewrite Hbody.
  destruct r as [[]|[msg|msg]].
  - subst c'. exec_step. exists (Return tt), (set_connected true opened), w'. auto.
  - unfold connect_handler. exec_step. rewrite exec_get_self. cbv beta iota.
    rewrite exec_bind.
    destruct (Py.str_of_int (port c')) as [port_text|]; cbn [formatted exec];
      (eexists _, c', w'; split; [reflexivity|]; split; [exact Hcred|];
       split; [eauto|]; tauto).
  - unfold connect_handler. do 2 exec_step.
    eexists _, _, w'. split; [reflexivity|]. split; [exact Hcred|].
    split; [eauto|].
    destruct Hc' as [->|[->| ->]]; auto.
Qed.

(** C2 (amended).  When [connect] is called with [_connected] unset: if it
    returns, the streams are those of the connection it opened,
    [_connected] is set, and lines 34-57 (open, greeting, password
    exchange) ran to their end; if it raises, [_connected] is unset and
    [is_connected] is false, whether or not a writer is kept. *)
Theorem connect_all_or_nothing c w :
  _connected c = false ->
  match result_of (exec connect c w) with
  | Return _ =>
      _writer (client_of (exec connect c w)) = Some (n_opens w) /\
      _reader (client_of (exec connect c w)) = Some (n_opens w) /\
      _connected (client_of (exec connect c w)) = true /\
      is_connected (client_of (exec connect c w)) = true /\
      result_of (exec open_and_handshake c w) = Return tt
  | Raise _ =>
      _connected (client_of (exec connect c w)) = false /\
      is_connected (client_of (exec connect c w)) = false
  end.
Proof.
  intros Hc.
  destruct (connect_post c w) as (r & c' & w' & Hexec & _ & Hpost).
  rewrite Hexec. unfold result_of, client_of. cbn [fst snd].
  destruct r as [[]|e].
  - destruct Hpost as [-> Hhs]. rewrite Hhs. repeat split.
  - destruct Hpost as [_ Hc'].
    assert (H : _connected c' = false)
      by (destruct Hc' as [->|[->|[->| ->]]]; auto).
    unfold is_connected. rewrite H. auto.
Qed.

Lemma connect_all_or_nothing_witness :
  match result_of (exec connect (init "mav.local" 23 None)
                        (scripted_world ["(c) Extron"; "ready"]%string)) with
  | Return _ =>
      _writer (client_of (exec connect (init "mav.local" 23 None)
                 (scripted_world ["(c) Extron"; "ready"]%string))) = Some 0%nat /\
      _reader (client_of (exec connect (init "mav.local" 23 None)
                 (scripted_world ["(c) Extron"; "ready"]%string))) = Some 0%nat /\
      _connected (client_of (exec connect (init "mav.local" 23 None)
                 (scripted_world ["(c) Extron"; "ready"]%string))) = true /\
      is_connected (client_of (exec connect (init "mav.local" 23 None)
                 (scripted_world ["(c) Extron"; "ready"]%string))) = true /\
      result_of (exec open_and_handshake (init "mav.local" 23 None)
                 (scripted_world ["(c) Extron"; "ready"]%string)) = Return tt
  | Raise _ =>
      _connected (client_of (exec connect (init "mav.local" 23 None)
                 (scripted_world ["(c) Extron"; "ready"]%string))) = false /\
      is_connected (client_of (exec connect (init "mav.local" 23 None)
                 (scripted_world ["(c) Extron"; "ready"]%string))) = false
  end.
Proof.
  apply (connect_all_or_nothing (init "mav.local" 23 None)
           (scripted_world ["(c) Extron"; "ready"]%string)).
  reflexivity.
Defined.

(** C2 as the specification words it.  The device asks for a password and
    none is configured: [connect] raises, and the client keeps the writer
    of the connection it opened while [_connected] is unset: neither
    connected nor without a handle. *)
Lemma connect_failure_keeps_handle :
  result_of (exec connect (init "mav.local" 23 None)
               (scripted_world ["(c) Extron"; "Password:"]%string)) =
    Raise (Exception "Failed to connect: Password required but not provided") /\
  _writer (client_of (exec connect (init "mav.local" 23 None)
               (scripted_world ["(c) Extron"; "Password:"]%string))) = Some 0%nat /\
  _connected (client_of (exec connect (init "mav.local" 23 None)
               (scripted_world ["(c) Extron"; "Password:"]%string))) = false.
Proof.
  repeat split; vm_compute; reflexivity.
Qed.

End Session.

(** ** Authentication handshake: the credential *)

Section Credential.

Lemma exec_read_until_prompt_password q c w :
  exec _read_until_prompt (set_password q c) w =
  map_client (set_password q) (exec _read_until_prompt c w).
Proof.
  destruct (_reader c) as [conn|] eqn:Hr.
  - rewrite (exec_read_until_prompt (set_password q c) conn Hr w).
    rewrite (exec_read_until_prompt c conn Hr w).
    destruct (nth_line w 0); reflexivity.
  - rewrite (exec_read_until_prompt_none (set_password q c) w Hr).
    rewrite (exec_read_until_prompt_none c w Hr). reflexivity.
Qed.

Lemma exec_read_response_loop_password q budget : forall line c w,
  exec (_read_response_loop budget line) (set_password q c) w =
  map_client (set_password q) (exec (_read_response_loop budget line) c w).
Proof.
  induction budget as [|budget IH]; intros line c w; [reflexivity|].
  rewrite read_response_loop_S.
  destruct (looks_like_timestamp line); [|reflexivity].
  rewrite !exec_bind, exec_read_until_prompt_password.
  destruct (exec _read_until_prompt c w) as [[[line'|e] c'] w']; unfold map_client;
    cbn [fst snd]; [apply IH | reflexivity].
Qed.

Lemma exec_read_response_password q c w :
  exec _read_response (set_password q c) w =
  map_client (set_password q) (exec _read_response c w).
Proof.
  unfold _read_response.
  rewrite !exec_bind, exec_read_until_prompt_password.
  destruct (exec _read_until_prompt c w) as [[[line'|e] c'] w']; unfold map_client;
    cbn [fst snd]; [apply exec_read_response_loop_password | reflexivity].
Qed.

(** The greeting is read the same way whatever the password. *)
Lemma exec_read_greeting_password q c w :
  exec read_greeting (set_password q c) w =
  map_client (set_password q) (exec read_greeting c w).
Proof.
  unfold read_greeting. rewrite !exec_bind.
  unfold open_connection. cbn [exec]. rewrite !exec_of_outcome.
  destruct (fst (do_open w)) as [conn|e]; [|reflexivity].
  rewrite !exec_bind, !exec_modify_self.
  change (set_streams (Some conn) (Some conn) (set_password q c))
    with (set_password q (set_streams (Some conn) (Some conn) c)).
  rewrite !exec_bind, exec_read_until_prompt_password.
  destruct (exec _read_until_prompt _ _) as [[[banner|e] c'] w']; unfold map_client;
    cbn [fst snd]; [apply exec_read_response_password | reflexivity].
Qed.

Lemma read_greeting_config c w :
  password (client_of (exec read_greeting c w)) = password c /\
  wire (world_of (exec read_greeting c w)) = wire w.
Proof.
  destruct (read_greeting_post c w) as (r & c' & w' & Hexec & Hwire & Hc').
  rewrite Hexec. unfold client_of, world_of. cbn [fst snd].
  split; [|exact Hwire].
  destruct r as [line|[msg|msg]]; [subst; reflexivity | subst; reflexivity |].
  destruct Hc' as [->| ->]; reflexivity.
Qed.

Lemma exec_connect_no_password c w response c' w' :
  exec read_greeting c w = (Return response, c', w') ->
  Py.contains "Password:" response = true ->
  no_password (password c) = true ->
  exec connect c w =
  (Raise (Exception "Failed to connect: Password required but not provided"),
   set_connected false c', w').
Proof.
  intros Hgreet Hprompt Hpw.
  pose proof (read_greeting_config c w) as [Hpass _].
  rewrite Hgreet in Hpass. unfold client_of in Hpass. cbn [fst snd] in Hpass.
  unfold connect, connect_body, open_and_handshake.
  rewrite exec_try_except, !exec_bind, Hgreet.
  rewrite (exec_authenticate_no_password response c' w' Hprompt)
    by (rewrite Hpass; exact Hpw).
  reflexivity.
Qed.

(** C10.  The password is the empty string and the line read after the
    copyright message holds "Password:".  Then [connect] raises the
    password-required error and nothing was written to the wire, and with
    no password at all it ends the same way, in the same world. *)
Theorem connect_empty_password c w response c' w' :
  password c = Some EmptyString ->
  exec read_greeting c w = (Return response, c', w') ->
  Py.contains "Password:" response = true ->
  exec connect c w =
    (Raise (Exception "Failed to connect: Password required but not provided"),
     set_connected false c', w') /\
  wire w' = wire w /\
  exec connect (set_password None c) w =
    (Raise (Exception "Failed to connect: Password required but not provided"),
     set_password None (set_connected false c'), w').
Proof.
  intros Hpw Hgreet Hprompt. split; [|split].
  - apply (exec_connect_no_password c w response c' w' Hgreet Hprompt).
    rewrite Hpw. reflexivity.
  - pose proof (read_greeting_config c w) as [_ Hwire].
    rewrite Hgreet in Hwire. exact Hwire.
  - apply (exec_connect_no_password (set_password None c) w response
             (set_password None c') w'); [|exact Hprompt|reflexivity].
    rewrite exec_read_greeting_password, Hgreet. reflexivity.
Qed.

Lemma connect_empty_password_witness :
  exec connect (init "mav.local" 23 (Some EmptyString))
       (scripted_world ["(c) Extron"; "Password:"]%string) =
    (Raise (Exception "Failed to connect: Password required but not provided"),
     set_connected false (opened_client (Some EmptyString)),
     advance_reads 2 (snd (do_open (scripted_world ["(c) Extron"; "Password:"]%string)))) /\
  wire (advance_reads 2 (snd (do_open (scripted_world ["(c) Extron"; "Password:"]%string)))) =
    wire (scripted_world ["(c) Extron"; "Password:"]%string) /\
  exec connect (set_password None (init "mav.local" 23 (Some EmptyString)))
       (scripted_world ["(c) Extron"; "Password:"]%string) =
    (Raise (Exception "Failed to connect: Password required but not provided"),
     set_password None (set_connected false (opened_client (Some EmptyString))),
     advance_reads 2 (snd (do_open (scripted_world ["(c) Extron"; "Password:"]%string)))).
Proof.
  apply (connect_empty_password (init "mav.local" 23 (Some EmptyString))
           (scripted_world ["(c) Extron"; "Password:"]%string) "Password:").
  - reflexivity.
  - vm_compute. reflexivity.
  - reflexivity.
Defined.

End Credential.

(** ** Command channel *)

Section CommandChannel.

Lemma exec_ensure_connected c w :
  exec _ensure_connected c w =
  if is_connected c then (Return tt, c, w) else exec connect c w.
Proof.
  unfold _ensure_connected. rewrite exec_bind, exec_get_self. cbv beta iota.
  destruct (is_connected c); [reflexivity|].
  cbn [negb]. rewrite exec_try_except.
  destruct (exec connect c w) as [[[[]|e] c'] w']; reflexivity.
Qed.

(** The handler of the [try] block of [_send_command]. *)
Lemma exec_send_command c w command expect_response :
  exec (_send_command command expect_response) c w =
  match exec _ensure_connected c w with
  | (Return _, c1, w1) =>
      match exec (send_command_body command expect_response) c1 w1 with
      | (Return a, c2, w2) => (Return a, c2, w2)
      | (Raise e, c2, w2) => (Raise e, set_connected false c2, w2)
      end
  | (Raise e, c1, w1) => (Raise e, c1, w1)
  end.
Proof.
  unfold _send_command, send_command_locked. rewrite exec_bind.
  destruct (exec _ensure_connected c w) as [[[[]|e] c1] w1]; [|reflexivity].
  rewrite exec_try_except.
  destruct (exec (send_command_body command expect_response) c1 w1)
    as [[[a|e] c2] w2]; [reflexivity|].
  rewrite exec_bind, exec_modify_self. reflexivity.
Qed.

Lemma exec_send_command_connected c w command expect_response :
  is_connected c = true ->
  exec (_send_command command expect_response) c w =
  match exec (send_command_body command expect_response) c w with
  | (Return a, c2, w2) => (Return a, c2, w2)
  | (Raise e, c2, w2) => (Raise e, set_connected false c2, w2)
  end.
Proof.
  intros Hc. rewrite exec_send_command, exec_ensure_connected, Hc. reflexivity.
Qed.

Lemma wf_not_connected c :
  wf c -> is_connected c = false -> _connected c = false.
Proof.
  unfold wf, is_connected. intros Hwf H.
  destruct (_connected c); [|reflexivity].
  destruct (_writer c); [discriminate|]. destruct Hwf; reflexivity.
Qed.

Lemma is_connected_set_false c : is_connected (set_connected false c) = false.
Proof. reflexivity. Qed.

(** The [try] block of [_send_command] on a client that has a writer. *)
Lemma exec_send_command_body c w conn command expect_response :
  _writer c = Some conn ->
  exec (send_command_body command expect_response) c w =
  match Py.encode_ascii (command ++ Py.CRLF)%string with
  | None => (Raise (Exception "'ascii' codec can't encode character"), c, w)
  | Some data =>
      match fst (do_drain (do_write conn data w)) with
      | Raise e => (Raise e, c, snd (do_drain (do_write conn data w)))
      | Return _ =>
          if expect_response then
            match exec _read_response c (snd (do_drain (do_write conn data w))) with
            | (Return response, c', w') => (Return (Some response), c', w')
            | (Raise e, c', w') => (Raise e, c', w')
            end
          else (Return None, c, snd (do_drain (do_write conn data w)))
      end
  end.
Proof.
  intros Hw. unfold send_command_body, encode_line.
  rewrite exec_bind, exec_get_self. cbv beta iota. rewrite Hw.
  destruct (Py.encode_ascii _) as [data|]; [|reflexivity].
  rewrite exec_bind. cbn [exec]. cbv beta iota.
  rewrite exec_bind. cbn [writer_write exec]. cbv beta iota.
  rewrite exec_bind. unfold drain. cbn [exec]. rewrite exec_of_outcome.
  destruct (fst (do_drain (do_write conn data w))) as [[]|e]; [|reflexivity].
  destruct expect_response; [|reflexivity].
  rewrite exec_bind.
  destruct (exec _read_response c _) as [[[response|e] c'] w']; reflexivity.
Qed.

Lemma exec_send_command_body_none c w command expect_response :
  _writer c = None ->
  exec (send_command_body command expect_response) c w =
  (Raise (Exception "'NoneType' object has no attribute 'write'"), c, w).
Proof.
  intros Hw. unfold send_command_body.
  rewrite exec_bind, exec_get_self. cbv beta iota. rewrite Hw. reflexivity.
Qed.

(** A command that raises leaves [_connected] unset. *)
Lemma send_command_raise_disconnected c w command expect_response e c' w' :
  wf c ->
  exec (_send_command command expect_response) c w = (Raise e, c', w') ->
  _connected c' = false.
Proof.
  intros Hwf. rewrite exec_send_command, exec_ensure_connected.
  destruct (is_connected c) eqn:Hc.
  - destruct (exec (send_command_body command expect_response) c w)
      as [[[a|e2] c2] w2]; intros [= <- <- <-]. reflexivity.
  - pose proof (wf_not_connected c Hwf Hc) as Hflag.
    destruct (connect_post c w) as (r & c1 & w1 & Hconn & _ & Hpost).
    rewrite Hconn. destruct r as [[]|e1].
    + destruct (exec (send_command_body command expect_response) c1 w1)
        as [[[a|e2] c2] w2]; intros [= <- <- <-]. reflexivity.
    + intros [= <- <- <-]. destruct Hpost as [_ [->|[->|[->| ->]]]]; auto.
Qed.

End CommandChannel.

(** ** States of the client *)

Section WellFormed.

Lemma wf_init host port password : wf (init host port password).
Proof. intros H. discriminate H. Qed.

Lemma wf_set_connected_false c : wf (set_connected false c).
Proof. intros H. discriminate H. Qed.

Lemma connect_wf c w : wf c -> wf (client_of (exec connect c w)).
Proof.
  intros Hwf.
  destruct (connect_post c w) as (r & c' & w' & Hexec & _ & Hpost).
  rewrite Hexec. unfold client_of. cbn [fst snd].
  destruct r as [[]|e].
  - destruct Hpost as [-> _]. intros _. discriminate.
  - destruct Hpost as [_ [->|[->|[->| ->]]]]; try apply wf_set_connected_false.
    + exact Hwf.
    + intros _. discriminate.
Qed.

Lemma exec_read_response_client c w :
  client_of (exec _read_response c w) = c \/
  client_of (exec _read_response c w) = set_connected false c.
Proof.
  destruct (_reader c) as [conn|] eqn:Hr.
  - destruct (exec_read_response c conn Hr w) as (k & _ & Hexec & _).
    rewrite Hexec. destruct (nth_line w k); auto.
  - unfold _read_response.
    rewrite exec_bind, (exec_read_until_prompt_none c w Hr). auto.
Qed.

Lemma send_command_body_client c w command expect_response :
  client_of (exec (send_command_body command expect_response) c w) = c \/
  client_of (exec (send_command_body command expect_response) c w) =
    set_connected false c.
Proof.
  destruct (_writer c) as [conn|] eqn:Hw.
  - rewrite (exec_send_command_body c w conn _ _ Hw).
    destruct (Py.encode_ascii _) as [data|]; [|auto].
    destruct (fst (do_drain _)) as [[]|e]; [|auto].
    destruct expect_response; [|auto].
    pose proof (exec_read_response_client c (snd (do_drain (do_write conn data w)))) as H.
    destruct (exec _read_response c _) as [[[response|e] c'] w']; exact H.
  - rewrite (exec_send_command_body_none c w _ _ Hw). auto.
Qed.

(** Every command leaves the client in a state it can be in. *)
Lemma send_command_wf c w command expect_response :
  wf c -> wf (client_of (exec (_send_command command expect_response) c w)).
Proof.
  intros Hwf. rewrite exec_send_command, exec_ensure_connected.
  assert (Hbody : forall c1 w1, wf c1 ->
            wf (client_of
                  match exec (send_command_body command expect_response) c1 w1 with
                  | (Return a, c2, w2) => (Return a, c2, w2)
                  | (Raise e, c2, w2) => (Raise e, set_connected false c2, w2)
                  end)).
  { intros c1 w1 Hwf1.
    pose proof (send_command_body_client c1 w1 command expect_response) as H.
    destruct (exec (send_command_body _ _) c1 w1) as [[[a|e] c2] w2];
      unfold client_of in *; cbn [fst snd] in *;
      [|apply wf_set_connected_false].
    destruct H as [->| ->]; [exact Hwf1 | apply wf_set_connected_false]. }
  destruct (is_connected c); [apply Hbody; exact Hwf|].
  pose proof (connect_wf c w Hwf) as Hconn.
  destruct (exec connect c w) as [[[[]|e] c1] w1]; [apply Hbody|]; exact Hconn.
Qed.

Lemma disconnect_wf c w : wf c -> wf (client_of (exec disconnect c w)).
Proof.
  intros Hwf. unfold disconnect. rewrite exec_bind, exec_get_self. cbv beta iota.
  destruct (_writer c) as [conn|] eqn:Hw; [|exact Hwf].
  rewrite exec_bind, exec_try_except. unfold close_writer. cbn [exec].
  rewrite exec_of_outcome.
  destruct (fst (do_close w)); intros H; discriminate H.
Qed.

End WellFormed.

(** ** Command channel: failure and reconnection *)

Section Reconnection.

(** The read that fails is the last one [_read_response] makes. *)
Lemma exec_read_response_failure c conn w k msg :
  _reader c = Some conn ->
  (k <= 3)%nat ->
  (forall i, (i < k)%nat ->
     exists l, nth_line w i = Return l /\ looks_like_timestamp l = true) ->
  read_oracle w (k + n_reads w) = ReadRaise (Exception msg) ->
  exec _read_response c w =
    (Raise (Exception msg), set_connected false c, advance_reads (S k) w).
Proof.
  intros Hr Hk Hnoise Hfail.
  assert (Hline : nth_line w k = Raise (Exception msg))
    by (unfold nth_line; rewrite Hfail; reflexivity).
  destruct (exec_read_response c conn Hr w) as (k' & Hk' & Hexec & Hnoise' & Hstop).
  assert (k' = k) as ->.
  { destruct (lt_eq_lt_dec k' k) as [[Hlt|Heq]|Hgt]; [|exact Heq|].
    - destruct (Hnoise k' Hlt) as (l & Hl & Hts).
      assert (Hlt3 : (k' < 3)%nat) by lia.
      rewrite (Hstop Hlt3 l Hl) in Hts. discriminate.
    - destruct (Hnoise' k Hgt) as (l & Hl & _). congruence. }
  rewrite Hexec, Hline. reflexivity.
Qed.

(** C7.  On a client in a state it can be in.  A command that raises
    leaves [is_connected] false.  On a connected client whose command line
    is written: when the [drain] of the write fails, the command raises
    the error of the [drain] and [_connected] is unset; when the [drain]
    succeeds and one of the reads of the response fails (the reads before
    it having given lines that are skipped), the command raises the error
    of that read and [_connected] is unset.  A command called while
    [is_connected] is false first runs [connect]: if that returns, the
    session is connected and the command goes on from there, and if that
    raises, the command raises the same error in the world [connect]
    left, where nothing was written but possibly the password. *)
Theorem send_command_failure_and_reconnect command expect_response c w :
  wf c ->
  (forall e c' w',
     exec (_send_command command expect_response) c w = (Raise e, c', w') ->
     is_connected c' = false) /\
  (forall conn data e,
     is_connected c = true ->
     _writer c = Some conn ->
     Py.encode_ascii (command ++ Py.CRLF) = Some data ->
     drain_oracle w (n_drains w) = DrainRaise e ->
     exec (_send_command command expect_response) c w =
       (Raise e, set_connected false c, snd (do_drain (do_write conn data w)))) /\
  (forall conn rconn data k msg,
     is_connected c = true ->
     _writer c = Some conn ->
     _reader c = Some rconn ->
     Py.encode_ascii (command ++ Py.CRLF) = Some data ->
     drain_oracle w (n_drains w) = DrainOk ->
     expect_response = true ->
     (k <= 3)%nat ->
     (forall i, (i < k)%nat ->
        exists l, nth_line w i = Return l /\ looks_like_timestamp l = true) ->
     read_oracle w (k + n_reads w) = ReadRaise (Exception msg) ->
     exec (_send_command command expect_response) c w =
       (Raise (Exception msg), set_connected false c,
        advance_reads (S k) (snd (do_drain (do_write conn data w))))) /\
  (is_connected c = false ->
   match exec connect c w with
   | (Return _, c1, w1) =>
       is_connected c1 = true /\
       exec (_send_command command expect_response) c w =
         exec (_send_command command expect_response) c1 w1
   | (Raise e, c1, w1) =>
       exec (_send_command command expect_response) c w = (Raise e, c1, w1) /\
       credential_only c (n_opens w) w w1
   end).
Proof.
  intros Hwf. split; [|split; [|split]].
  - intros e c' w' Hexec. unfold is_connected.
    rewrite (send_command_raise_disconnected _ _ _ _ _ _ _ Hwf Hexec). reflexivity.
  - intros conn data e Hc Hw Henc Hdrain.
    rewrite (exec_send_command_connected _ _ _ _ Hc).
    rewrite (exec_send_command_body c w conn _ _ Hw), Henc.
    assert (Hd : fst (do_drain (do_write conn data w)) = Raise e)
      by (unfold do_drain, do_write; cbn [fst drain_oracle n_drains];
          rewrite Hdrain; reflexivity).
    rewrite Hd. reflexivity.
  - intros conn rconn data k msg Hc Hw Hr Henc Hdrain -> Hk Hnoise Hfail.
    rewrite (exec_send_command_connected _ _ _ _ Hc).
    rewrite (exec_send_command_body c w conn _ _ Hw), Henc.
    assert (Hd : fst (do_drain (do_write conn data w)) = Return tt)
      by (unfold do_drain, do_write; cbn [fst drain_oracle n_drains];
          rewrite Hdrain; reflexivity).
    rewrite Hd.
    rewrite (exec_read_response_failure c rconn
               (snd (do_drain (do_write conn data w))) k msg Hr Hk);
      [reflexivity | exact Hnoise | exact Hfail].
  - intros Hc.
    destruct (connect_post c w) as (r & c1 & w1 & Hconn & Hcred & Hpost).
    rewrite Hconn. destruct r as [[]|e].
    + destruct Hpost as [-> _].
      assert (H1 : is_connected
                     (set_connected true
                        (set_streams (Some (n_opens w)) (Some (n_opens w)) c)) = true)
        by reflexivity.
      split; [exact H1|].
      rewrite (exec_send_command_connected _ w1 _ _ H1).
      rewrite exec_send_command, exec_ensure_connected, Hc, Hconn. reflexivity.
    + split; [|exact Hcred].
      rewrite exec_send_command, exec_ensure_connected, Hc, Hconn. reflexivity.
Qed.

(** A link that fails the first [drain]: the command raises the error of
    the [drain] and the session is left disconnected; the next command
    reconnects.  A device that resets the connection at the read of the
    response: the command raises the error of the read. *)
Lemma send_command_failure_and_reconnect_witness :
  exec (_send_command "1%" true) (connected_client None) (flaky_world ready_script) =
    (Raise (Exception "Connection lost"),
     set_connected false (connected_client None),
     snd (do_drain (do_write 0 (list_byte_of_string ("1%" ++ Py.CRLF))
                             (flaky_world ready_script)))) /\
  exec (_send_command "1%" true) (connected_client None) broken_world =
    (Raise (Exception "Connection reset by peer"),
     set_connected false (connected_client None),
     advance_reads 1
       (snd (do_drain (do_write 0 (list_byte_of_string ("1%" ++ Py.CRLF))
                               broken_world)))) /\
  (is_connected dropped_client = false ->
   match exec connect dropped_client
           (snd (do_drain (do_write 0 (list_byte_of_string ("1%" ++ Py.CRLF))
                                   (flaky_world ready_script)))) with
   | (Return _, c1, w1) =>
       is_connected c1 = true /\
       exec (_send_command "1%" true) dropped_client
         (snd (do_drain (do_write 0 (list_byte_of_string ("1%" ++ Py.CRLF))
                                 (flaky_world ready_script)))) =
         exec (_send_command "1%" true) c1 w1
   | (Raise e, c1, w1) =>
       exec (_send_command "1%" true) dropped_client
         (snd (do_drain (do_write 0 (list_byte_of_string ("1%" ++ Py.CRLF))
                                 (flaky_world ready_script))))
         = (Raise e, c1, w1) /\
       credential_only dropped_client
         (n_opens (snd (do_drain (do_write 0 (list_byte_of_string ("1%" ++ Py.CRLF))
                                           (flaky_world ready_script)))))
         (snd (do_drain (do_write 0 (list_byte_of_string ("1%" ++ Py.CRLF))
                                 (flaky_world ready_script))))
         w1
   end).
Proof.
  split; [|split].
  - apply (send_command_failure_and_reconnect "1%" true (connected_client None)
             (flaky_world ready_script));
      [intros _; discriminate | reflexivity..].
  - apply (send_command_failure_and_reconnect "1%" true (connected_client None)
             broken_world) with (rconn := 0%nat) (k := 0%nat);
      [intros _; discriminate | try reflexivity..].
    + lia.
    + intros i Hi. lia.
  - apply (send_command_failure_and_reconnect "1%" true dropped_client
             (snd (do_drain (do_write 0 (list_byte_of_string ("1%" ++ Py.CRLF))
                                     (flaky_world ready_script))))).
    intros H. discriminate H.
Defined.

(** A drain that fails, then a device that answers: the first command
    raises and leaves the session disconnected, the next one reconnects
    and gets its answer. *)
Example send_command_reconnects_after_failure :
  exec (_send_command "1%" true) (connected_client None) (flaky_world ready_script) =
    (Raise (Exception "Connection lost"),
     set_connected false (opened_client None),
     snd (do_drain (do_write 0 (list_byte_of_string ("1%" ++ Py.CRLF))
                             (flaky_world ready_script)))) /\
  result_of
    (exec (_send_command "1%" true) (set_connected false (opened_client None))
       (snd (do_drain (do_write 0 (list_byte_of_string ("1%" ++ Py.CRLF))
                                (flaky_world ready_script))))) =
    Return (Some "Out01 In05 All"%string) /\
  is_connected
    (client_of
       (exec (_send_command "1%" true) (set_connected false (opened_client None))
          (snd (do_drain (do_write 0 (list_byte_of_string ("1%" ++ Py.CRLF))
                                   (flaky_world ready_script)))))) = true.
Proof.
  repeat split; vm_compute; reflexivity.
Qed.

End Reconnection.

(** ** Tie commands *)

Section TieCommands.

Import Py.

Lemma exec_formatted text c w :
  exec (formatted text) c w =
  match text with
  | Some s => (Return s, c, w)
  | None => (Raise (Exception str_limit_message), c, w)
  end.
Proof. destruct text; reflexivity. Qed.

Lemma tie_command_Some input_num output command :
  tie_command input_num output = Some command <->
  exists input_text output_text,
    str_of_int input_num = Some input_text /\
    str_of_int output = Some output_text /\
    command = (input_text ++ "*" ++ output_text ++ "!")%string.
Proof.
  unfold tie_command.
  destruct (str_of_int input_num) as [a|], (str_of_int output) as [b|]; split;
    try discriminate.
  - intros [= <-]. eauto.
  - intros (a' & b' & [= <-] & [= <-] & ->). reflexivity.
  - intros (a' & b' & _ & [=] & _).
  - intros (a' & b' & [=] & _).
  - intros (a' & b' & [=] & _).
Qed.

Lemma tie_query_Some output command :
  tie_query output = Some command <->
  exists output_text,
    str_of_int output = Some output_text /\
    command = (output_text ++ "%")%string.
Proof.
  unfold tie_query. destruct (str_of_int output) as [a|]; split; try discriminate.
  - intros [= <-]. eauto.
  - intros (a' & [= <-] & ->). reflexivity.
  - intros (a' & [=] & _).
Qed.

Lemma is_ascii_str_of_int n text : str_of_int n = Some text -> is_ascii text = true.
Proof.
  intros H. apply str_of_int_Some in H as [-> _]. apply is_ascii_decimal.
Qed.

(** The line of a tie command is always encodable. *)
Lemma encode_tie_command input_num output command :
  tie_command input_num output = Some command ->
  encode_ascii (command ++ CRLF) = Some (list_byte_of_string (command ++ CRLF)).
Proof.
  intros H. apply tie_command_Some in H as (a & b & Ha & Hb & ->).
  apply encode_ascii_is_ascii.
  rewrite !is_ascii_app, (is_ascii_str_of_int _ _ Ha), (is_ascii_str_of_int _ _ Hb).
  reflexivity.
Qed.

Lemma encode_tie_query output command :
  tie_query output = Some command ->
  encode_ascii (command ++ CRLF) = Some (list_byte_of_string (command ++ CRLF)).
Proof.
  intros H. apply tie_query_Some in H as (a & Ha & ->).
  apply encode_ascii_is_ascii.
  rewrite !is_ascii_app, (is_ascii_str_of_int _ _ Ha). reflexivity.
Qed.

Lemma exec_read_response_frame c w response c' w' :
  exec _read_response c w = (Return response, c', w') ->
  c' = c /\ wire w' = wire w.
Proof.
  destruct (_reader c) as [conn|] eqn:Hr.
  - destruct (exec_read_response c conn Hr w) as (k & _ & Hexec & _).
    rewrite Hexec. destruct (nth_line w k); intros [= <- <- <-]. auto.
  - unfold _read_response.
    rewrite exec_bind, (exec_read_until_prompt_none c w Hr). discriminate.
Qed.

(** Reading a response writes nothing, however it ends. *)
Lemma exec_read_response_wire c w :
  wire (snd (exec _read_response c w)) = wire w.
Proof.
  destruct (_reader c) as [conn|] eqn:Hr.
  - destruct (exec_read_response c conn Hr w) as (k & _ & Hexec & _).
    rewrite Hexec. reflexivity.
  - unfold _read_response.
    rewrite exec_bind, (exec_read_until_prompt_none c w Hr). reflexivity.
Qed.

(** On a connected client the line of the command is written, and nothing
    else, however the command ends. *)
Lemma send_command_connected_wire c w conn command data expect_response :
  is_connected c = true ->
  _writer c = Some conn ->
  encode_ascii (command ++ CRLF) = Some data ->
  wire (snd (exec (_send_command command expect_response) c w)) =
  wire w ++ [(conn, data)].
Proof.
  intros Hc Hw Henc.
  rewrite (exec_send_command_connected _ _ _ _ Hc).
  rewrite (exec_send_command_body c w conn _ _ Hw), Henc.
  destruct (fst (do_drain (do_write conn data w))) as [[]|e]; [|reflexivity].
  destruct expect_response; [|reflexivity].
  pose proof (exec_read_response_wire c (snd (do_drain (do_write conn data w)))) as H.
  destruct (exec _read_response c _) as [[[response|e] c'] w']; exact H.
Qed.

(** A command that returns wrote its line last, on the writer the client
    ends with. *)
Lemma send_command_return_wire c w command expect_response a c' w' :
  exec (_send_command command expect_response) c w = (Return a, c', w') ->
  exists conn data,
    _writer c' = Some conn /\
    encode_ascii (command ++ CRLF) = Some data /\
    last (wire w') = Some (conn, data).
Proof.
  rewrite exec_send_command.
  destruct (exec _ensure_connected c w) as [[[[]|e] c1] w1] eqn:Hens; [|discriminate].
  assert (Hw : exists conn, _writer c1 = Some conn).
  { rewrite exec_ensure_connected in Hens.
    destruct (is_connected c) eqn:Hc.
    - injection Hens as <- <-. unfold is_connected in Hc.
      destruct (_writer c); eauto. rewrite andb_false_r in Hc. discriminate.
    - destruct (connect_post c w) as (r & c2 & w2 & Hconn & _ & Hpost).
      rewrite Hconn in Hens. injection Hens as -> -> ->.
      destruct Hpost as [-> _]. eauto. }
  destruct Hw as [conn Hw].
  rewrite (exec_send_command_body c1 w1 conn _ _ Hw).
  destruct (encode_ascii (command ++ CRLF)) as [data|]; [|discriminate].
  destruct (fst (do_drain (do_write conn data w1))) as [[]|e]; [|discriminate].
  assert (Hlast : last (wire (snd (do_drain (do_write conn data w1)))) = Some (conn, data))
    by (simpl; apply last_snoc).
  destruct expect_response.
  - destruct (exec _read_response c1 _) as [[[response|e] c2] w2] eqn:Hread;
      [|discriminate].
    apply exec_read_response_frame in Hread as [-> Hwire].
    intros [= <- <- <-]. exists conn, data. rewrite Hwire. auto.
  - intros [= <- <- <-]. exists conn, data. auto.
Qed.

Lemma exec_set_output_tie input_num output c w :
  input_num <> 0 ->
  exec (set_output_tie input_num output) c w =
  match tie_command input_num output with
  | Some command =>
      match exec (_send_command command true) c w with
      | (Return (Some response), c', w') => (Return (ack_of_response response), c', w')
      | (Return None, c', w') =>
          (Raise (Exception "argument of type 'NoneType' is not iterable"), c', w')
      | (Raise e, c', w') => (Raise e, c', w')
      end
  | None => (Raise (Exception str_limit_message), c, w)
  end.
Proof.
  intros Hne. unfold set_output_tie.
  destruct (Z.eqb_spec input_num 0) as [->|_]; [congruence|].
  rewrite exec_bind, exec_formatted.
  destruct (tie_command input_num output) as [command|]; [|reflexivity].
  rewrite exec_bind.
  destruct (exec (_send_command _ true) c w) as [[[[response|]|e] c'] w']; reflexivity.
Qed.

(** C8.  [set_output_tie] with input 0 returns [False] and leaves the
    client and the world, wire included, as they were.  With another input
    it prints the two numbers in decimal and runs [_send_command] on the
    line made of the input, a star, the output and an exclamation mark; a
    number of more than 4300 digits makes the f-string raise instead.
    Whenever it returns, its result is the acknowledgment check of the
    response, and that line, ended by CR LF, is the last one written, on
    the client's writer; the two decimal texts read back as the two
    numbers.  On a connected client that line is written, and nothing
    else, however the command ends. *)
Theorem set_output_tie_spec :
  (forall output c w,
     exec (set_output_tie 0 output) c w = (Return false, c, w)) /\
  (forall input_num output c w,
     input_num <> 0 ->
     exec (set_output_tie input_num output) c w =
     match str_of_int input_num, str_of_int output with
     | Some input_text, Some output_text =>
         match exec (_send_command (input_text ++ "*" ++ output_text ++ "!") true)
                 c w with
         | (Return (Some response), c', w') =>
             (Return (ack_of_response response), c', w')
         | (Return None, c', w') =>
             (Raise (Exception "argument of type 'NoneType' is not iterable"), c', w')
         | (Raise e, c', w') => (Raise e, c', w')
         end
     | _, _ => (Raise (Exception str_limit_message), c, w)
     end) /\
  (forall input_num output c w success c' w',
     input_num <> 0 ->
     exec (set_output_tie input_num output) c w = (Return success, c', w') ->
     exists input_text output_text conn response,
       str_of_int input_num = Some input_text /\
       str_of_int output = Some output_text /\
       Py.int input_text = Some input_num /\
       Py.int output_text = Some output /\
       exec (_send_command (input_text ++ "*" ++ output_text ++ "!") true) c w =
         (Return (Some response), c', w') /\
       success = ack_of_response response /\
       _writer c' = Some conn /\
       last (wire w') =
         Some (conn,
               list_byte_of_string
                 ((input_text ++ "*" ++ output_text ++ "!") ++ CRLF))) /\
  (forall input_num output c w conn input_text output_text,
     input_num <> 0 ->
     is_connected c = true ->
     _writer c = Some conn ->
     str_of_int input_num = Some input_text ->
     str_of_int output = Some output_text ->
     wire (world_of (exec (set_output_tie input_num output) c w)) =
       wire w ++
       [(conn,
         list_byte_of_string ((input_text ++ "*" ++ output_text ++ "!") ++ CRLF))]) /\
  exec (set_output_tie 5 1) (connected_client None)
       (scripted_world ["Out01 In05 All"]%string) =
    (Return true, connected_client None,
     advance_reads 1
       (snd (do_drain (do_write 0 (list_byte_of_string ("5*1!" ++ CRLF))
                                (scripted_world ["Out01 In05 All"]%string))))) /\
  wire (world_of (exec (set_output_tie 12 3) (connected_client None)
                    (scripted_world ["E01"]%string))) =
    [(0%nat, list_byte_of_string ("12*3!" ++ CRLF))] /\
  wire (world_of (exec (set_output_tie (-7) 16) (connected_client None)
                    (flaky_world []))) =
    [(0%nat, list_byte_of_string ("-7*16!" ++ CRLF))].
Proof.
  split; [reflexivity|]. split.
  { intros input_num output c w Hne.
    rewrite (exec_set_output_tie _ _ _ _ Hne). unfold tie_command.
    destruct (str_of_int input_num), (str_of_int output); reflexivity. }
  split.
  { intros input_num output c w success c' w' Hne.
    rewrite (exec_set_output_tie _ _ _ _ Hne).
    destruct (tie_command input_num output) as [command|] eqn:Hcmd; [|discriminate].
    pose proof (encode_tie_command _ _ _ Hcmd) as Hline.
    apply tie_command_Some in Hcmd as (a & b & Ha & Hb & ->).
    destruct (exec (_send_command _ true) c w) as [[[[response|]|e] c1] w1] eqn:Hsend;
      intros [= <- <- <-].
    destruct (send_command_return_wire _ _ _ _ _ _ _ Hsend)
      as (conn & data & Hw & Henc & Hlast).
    rewrite Hline in Henc. injection Henc as <-.
    exists a, b, conn, response.
    split; [exact Ha|]. split; [exact Hb|].
    split; [exact (int_str_of_int _ _ Ha)|].
    split; [exact (int_str_of_int _ _ Hb)|]. auto. }
  split.
  { intros input_num output c w conn a b Hne Hc Hw Ha Hb.
    assert (Hcmd : tie_command input_num output = Some (a ++ "*" ++ b ++ "!")%string)
      by (unfold tie_command; rewrite Ha, Hb; reflexivity).
    rewrite (exec_set_output_tie _ _ _ _ Hne), Hcmd.
    pose proof (send_command_connected_wire c w conn _ _ true Hc Hw
                  (encode_tie_command _ _ _ Hcmd)) as H.
    unfold world_of.
    destruct (exec (_send_command _ true) c w) as [[[[response|]|e] c1] w1];
      exact H. }
  repeat split; vm_compute; reflexivity.
Qed.

End TieCommands.

(** ** Tie queries and the bulk query *)

Section TieQueries.

Import Py.

Lemma exec_get_output_tie output c w :
  exec (get_output_tie output) c w =
  match tie_query output with
  | Some command =>
      match exec (_send_command command true) c w with
      | (Return (Some response), c', w') => (tie_of_response response, c', w')
      | (Return None, c', w') =>
          (Raise (Exception "expected string or bytes-like object"), c', w')
      | (Raise e, c', w') => (Raise e, c', w')
      end
  | None => (Raise (Exception str_limit_message), c, w)
  end.
Proof.
  unfold get_output_tie. rewrite exec_bind, exec_formatted.
  destruct (tie_query output) as [command|]; [|reflexivity].
  rewrite exec_bind.
  destruct (exec (_send_command _ true) c w) as [[[[response|]|e] c'] w'];
    [apply exec_of_outcome | reflexivity | reflexivity].
Qed.

(** C5 (amended).  When [get_output_tie] returns, its result is the tie
    number of the response that [_send_command] gave to the query line, and
    it is not negative if the response holds an [In<digits>] token or if
    its trimmed text does not start with a minus sign. *)
Theorem get_output_tie_nonneg output c w input_num c' w' :
  exec (get_output_tie output) c w = (Return input_num, c', w') ->
  exists command response,
    tie_query output = Some command /\
    exec (_send_command command true) c w =
      (Return (Some response), c', w') /\
    tie_of_response response = Return input_num /\
    ((exists k d, In_token_at response k d) \/
     startswith "-" (strip response) = false ->
     0 <= input_num).
Proof.
  rewrite exec_get_output_tie.
  destruct (tie_query output) as [command|]; [|discriminate].
  destruct (exec (_send_command _ true) c w) as [[[[response|]|e] c1] w1] eqn:Hsend;
    intros [= Htie <- <-].
  exists command, response. split; [reflexivity|].
  split; [exact Hsend|]. split; [exact Htie|].
  apply tie_of_response_sign. exact Htie.
Qed.

Lemma get_output_tie_nonneg_witness :
  exists command response,
    tie_query 1 = Some command /\
    exec (_send_command command true) (connected_client None)
         (scripted_world ["05"]%string) =
      (Return (Some response), connected_client None,
       advance_reads 1
         (snd (do_drain (do_write 0 (list_byte_of_string ("1%" ++ CRLF))
                                  (scripted_world ["05"]%string))))) /\
    tie_of_response response = Return 5 /\
    ((exists k d, In_token_at response k d) \/
     startswith "-" (strip response) = false ->
     0 <= 5).
Proof.
  apply (get_output_tie_nonneg 1 (connected_client None)
           (scripted_world ["05"]%string)).
  vm_compute. reflexivity.
Defined.

(** C5 as the specification words it.  The device answers "-5" to the
    query for output 1: [get_output_tie] returns -5. *)
Lemma get_output_tie_negative :
  result_of (exec (get_output_tie 1) (connected_client None)
               (scripted_world ["-5"]%string)) = Return (-5) /\
  -5 < 0.
Proof.
  split; [vm_compute; reflexivity | lia].
Qed.

(** The device answers the query for output 1 with "In" and 4301 digits:
    [get_output_tie] raises the [ValueError] of [int()], and
    [get_all_ties] records the output as 0. *)
Example get_output_tie_long_token :
  result_of (exec (get_output_tie 1) (connected_client None)
               (scripted_world [("In" ++ str_mul "1" (Z.to_nat 4301))%string])) =
    Raise (Exception (int_limit_message 4301)) /\
  result_of (exec (get_all_ties 1) (connected_client None)
               (scripted_world [("In" ++ str_mul "1" (Z.to_nat 4301))%string])) =
    Return {[1 := 0]}.
Proof.
  split; vm_compute; reflexivity.
Qed.

Lemma exec_get_all_ties_step output rest ties c w :
  exec (get_all_ties_loop (output :: rest) ties) c w =
  match exec (get_output_tie output) c w with
  | (r, c1, w1) =>
      exec (get_all_ties_loop rest (<[output := tie_entry r]> ties)) c1 w1
  end.
Proof.
  cbn [get_all_ties_loop]. rewrite exec_bind, exec_try_except, exec_bind.
  destruct (exec (get_output_tie output) c w) as [[[n|e] c1] w1]; reflexivity.
Qed.

(** The loop of [get_all_ties] against the queries made in order. *)
Lemma get_all_ties_loop_spec outputs : forall (ties0 : gmap Z Z) c w,
  exists (ties : gmap Z Z) log c' w',
    query_in_order outputs c w = (log, c', w') /\
    exec (get_all_ties_loop outputs ties0) c w = (Return ties, c', w') /\
    log.*1 = outputs /\
    (forall output, output ∉ outputs -> ties !! output = ties0 !! output) /\
    (NoDup outputs ->
     forall output r, (output, r) ∈ log -> ties !! output = Some (tie_entry r)).
Proof.
  induction outputs as [|o rest IH]; intros ties0 c w.
  - exists ties0, [], c, w. repeat split; auto.
    intros _ output r H. apply elem_of_nil in H. destruct H.
  - rewrite exec_get_all_ties_step. cbn [query_in_order].
    destruct (exec (get_output_tie o) c w) as [[r c1] w1].
    destruct (IH (<[o := tie_entry r]> ties0) c1 w1)
      as (ties & log & c' & w' & Hq & Hexec & Hkeys & Hframe & Hlog).
    exists ties, ((o, r) :: log), c', w'. rewrite Hq.
    split; [reflexivity|]. split; [exact Hexec|]. split; [|split].
    + cbn. rewrite Hkeys. reflexivity.
    + intros output Hnot. apply not_elem_of_cons in Hnot as [Hne Hnot].
      etransitivity; [apply Hframe; exact Hnot | apply lookup_insert_ne; congruence].
    + intros Hnd output r' Hin. apply NoDup_cons in Hnd as [Ho Hnd].
      apply elem_of_cons in Hin as [Heq|Hin].
      * injection Heq as H1 H2. subst output r'.
        etransitivity; [apply Hframe; exact Ho | apply lookup_insert_eq].
      * apply (Hlog Hnd). exact Hin.
Qed.

(** C1.  [get_all_ties] makes the queries of outputs 1 to [num_outputs] in
    ascending order, each one whatever the outcome of those before; it
    never raises, and the mapping it returns has one entry for each of
    these outputs and no other: the tie number the query returned, or 0 if
    the query raised. *)
Theorem get_all_ties_spec num_outputs c w :
  exists (ties : gmap Z Z) log c' w',
    query_in_order (seqZ 1 num_outputs) c w = (log, c', w') /\
    exec (get_all_ties num_outputs) c w = (Return ties, c', w') /\
    log.*1 = seqZ 1 num_outputs /\
    (forall output r, (output, r) ∈ log -> ties !! output = Some (tie_entry r)) /\
    (forall output, is_Some (ties !! output) <-> 1 <= output <= num_outputs) /\
    size ties = Z.to_nat num_outputs.
Proof.
  unfold get_all_ties, py_range. rewrite Z.add_simpl_r.
  destruct (get_all_ties_loop_spec (seqZ 1 num_outputs) ∅ c w)
    as (ties & log & c' & w' & Hq & Hexec & Hkeys & Hframe & Hlog).
  exists ties, log, c', w'.
  split; [exact Hq|]. split; [exact Hexec|]. split; [exact Hkeys|].
  pose proof (NoDup_seqZ 1 num_outputs) as Hnd.
  assert (Hdom : forall output,
            is_Some (ties !! output) <-> output ∈ seqZ 1 num_outputs).
  { intros output. split.
    - intros Hsome. destruct (decide (output ∈ seqZ 1 num_outputs)) as [|Hnot]; [done|].
      rewrite (Hframe output Hnot), lookup_empty in Hsome.
      destruct Hsome as [x Hx]. discriminate.
    - intros Hin. rewrite <- Hkeys in Hin.
      apply list_elem_of_fmap in Hin as ([o r] & -> & Hin).
      cbn [fst]. rewrite (Hlog Hnd _ _ Hin). eauto. }
  split; [exact (Hlog Hnd)|]. split.
  - intros output. rewrite Hdom, elem_of_seqZ. lia.
  - rewrite <- size_dom, <- (length_seqZ 1 num_outputs).
    rewrite <- (size_list_to_set (C:=gset Z) _ Hnd). f_equal.
    apply set_eq. intros output.
    rewrite elem_of_dom, elem_of_list_to_set. apply Hdom.
Qed.

(** Two outputs behind a link that fails the first [drain]: the query of
    output 1 raises and is recorded as 0, the query of output 2 reconnects
    and is answered. *)
Example get_all_ties_isolates_failure :
  result_of (exec (get_all_ties 2) (connected_client None)
               (flaky_world ["(c) Extron"; "ready"; "Out02 In07 All"]%string)) =
  Return (<[2 := 7]> (<[1 := 0]> ∅)).
Proof. vm_compute. reflexivity. Qed.

End TieQueries.

(** ** Serialization of commands *)

Section Serialization.

Import Tasks.

(** Running a method alone is taking its steps one after the other. *)
Lemma prim_step_exec {A} (p p' : prog A) c w c' w' ev :
  prim_step p c w = Some (p', c', w', ev) ->
  exec p c w = exec p' c' w'.
Proof.
  destruct p; simpl; intros [= <- <- <- <-]; reflexivity.
Qed.

Lemma final_exec {A} (p : prog A) r c w :
  final p = Some r -> exec p c w = (r, c, w).
Proof.
  destruct p; simpl; intros [= <-]; reflexivity.
Qed.

(** A step adds to the wire exactly the write it logs. *)
Lemma prim_step_wire {A} (p p' : prog A) c w c' w' ev t :
  prim_step p c w = Some (p', c', w', ev) ->
  wire w' = wire w ++ writes_of (log_event t ev []).
Proof.
  destruct p; simpl; intros [= <- <- <- <-]; simpl;
    rewrite ?app_nil_r; reflexivity.
Qed.

Lemma log_event_app t ev tr : log_event t ev tr = tr ++ log_event t ev [].
Proof. destruct ev; simpl; [reflexivity | symmetry; apply app_nil_r]. Qed.

Lemma log_event_fst t ev x : x ∈ log_event t ev [] -> fst x = t.
Proof.
  destruct ev; simpl; intros H.
  - apply list_elem_of_singleton in H. subst. reflexivity.
  - apply elem_of_nil in H. destruct H.
Qed.

Lemma inv_initial calls c w : inv w (initial calls c w).
Proof.
  split; simpl.
  - intros t p H. rewrite list_lookup_fmap in H.
    destruct (calls !! t); discriminate.
  - intros t command expect_response x _ H. apply elem_of_nil in H. destruct H.
  - discriminate.
  - intros i j k x y z _ H. rewrite lookup_nil in H. discriminate.
  - symmetry. apply app_nil_r.
Qed.

Lemma no_interleaving_snoc tr t e :
  no_interleaving tr ->
  (forall i j x y, (i < j)%nat -> tr !! i = Some x -> tr !! j = Some y ->
                   fst x = t -> fst y = t) ->
  no_interleaving (tr ++ [(t, e)]).
Proof.
  intros Hser Hsuf i j k x y z Hlt Hi Hj Hk Hxz.
  apply lookup_snoc_Some in Hk as [[Hk1 Hk2]|[Hk1 <-]].
  - rewrite lookup_app_l in Hi by lia. rewrite lookup_app_l in Hj by lia.
    exact (Hser i j k x y z Hlt Hi Hj Hk2 Hxz).
  - rewrite lookup_app_l in Hi by lia. rewrite lookup_app_l in Hj by lia.
    simpl in Hxz. rewrite Hxz.
    apply (Hsuf i j x y); [lia | exact Hi | exact Hj | exact Hxz].
Qed.

Lemma inv_step w0 cfg cfg' : inv w0 cfg -> step cfg cfg' -> inv w0 cfg'.
Proof.
  intros [Hcrit Hpend Hsuf Hser Hwire] Hstep.
  destruct Hstep as [ts c w tr t command expect_response Ht
                    |ts c w l tr t p p' c' w' ev Ht Hprim
                    |ts c w l tr t p r Ht Hfin]; simpl in *.
  - (* the lock is taken *)
    split; simpl.
    + intros t' p Hp. apply list_lookup_insert_Some in Hp as [[-> _]|[_ Hp]];
        [reflexivity|]. discriminate (Hcrit _ _ Hp).
    + intros t' command' expect' x Hp Hx.
      apply list_lookup_insert_Some in Hp as [[_ [[=] _]]|[_ Hp]].
      exact (Hpend _ _ _ _ Hp Hx).
    + intros t' i j x y [= <-] _ Hi _ Hx.
      destruct (Hpend t _ _ x Ht); [|exact Hx].
      apply list_elem_of_lookup. eauto.
    + exact Hser.
    + exact Hwire.
  - (* the holder takes a step of the block *)
    pose proof (Hcrit _ _ Ht) as Hl. subst l.
    assert (Hsuf' : forall i j x y, (i < j)%nat ->
              tr !! i = Some x -> tr !! j = Some y -> fst x = t -> fst y = t)
      by (intros i j x y; apply Hsuf; reflexivity).
    split; simpl.
    + intros t' p0 Hp. apply list_lookup_insert_Some in Hp as [[-> _]|[_ Hp]];
        [reflexivity | exact (Hcrit _ _ Hp)].
    + intros t' command' expect' x Hp Hx.
      apply list_lookup_insert_Some in Hp as [[_ [[=] _]]|[Hne Hp]].
      rewrite log_event_app in Hx. apply elem_of_app in Hx as [Hx|Hx].
      * exact (Hpend _ _ _ _ Hp Hx).
      * rewrite (log_event_fst _ _ _ Hx). exact Hne.
    + intros t' i j x y [= <-] Hlt Hi Hj Hx.
      destruct ev as [e|]; simpl in *; [|exact (Hsuf' i j x y Hlt Hi Hj Hx)].
      apply lookup_snoc_Some in Hj as [[Hj1 Hj2]|[_ <-]]; [|reflexivity].
      rewrite lookup_app_l in Hi by lia.
      exact (Hsuf' i j x y Hlt Hi Hj2 Hx).
    + destruct ev as [e|]; simpl; [|exact Hser].
      apply no_interleaving_snoc; assumption.
    + rewrite (prim_step_wire _ _ _ _ _ _ _ t Hprim), Hwire.
      rewrite (log_event_app t ev tr). unfold writes_of.
      rewrite omap_app, app_assoc. reflexivity.
  - (* the block has ended, the lock is released *)
    pose proof (Hcrit _ _ Ht) as Hl. subst l.
    split; simpl.
    + intros t' p0 Hp. apply list_lookup_insert_Some in Hp as [[_ [[=] _]]|[Hne Hp]].
      pose proof (Hcrit _ _ Hp) as [= ->]. congruence.
    + intros t' command' expect' x Hp Hx.
      apply list_lookup_insert_Some in Hp as [[_ [[=] _]]|[_ Hp]].
      exact (Hpend _ _ _ _ Hp Hx).
    + discriminate.
    + exact Hser.
    + exact Hwire.
Qed.

Lemma inv_steps w0 cfg cfg' : inv w0 cfg -> steps cfg cfg' -> inv w0 cfg'.
Proof.
  intros Hinv Hsteps. induction Hsteps as [|cfg1 cfg2 cfg3 _ IH Hstep]; [exact Hinv|].
  exact (inv_step _ _ _ (IH Hinv) Hstep).
Qed.

(** The scheduler only takes steps of the system. *)
Lemma schedule_one_steps cfg t : steps cfg (schedule_one cfg t).
Proof.
  unfold schedule_one. destruct cfg as [ts c w l tr]. simpl.
  destruct (ts !! t) as [[command expect_response|p|r]|] eqn:Ht;
    try apply steps_refl.
  - destruct l; [apply steps_refl|].
    eapply steps_step; [apply steps_refl|]. apply step_acquire. exact Ht.
  - destruct (prim_step p c w) as [[[[p' c'] w'] ev]|] eqn:Hprim.
    + eapply steps_step; [apply steps_refl|]. eapply step_run; eassumption.
    + destruct (final p) as [r|] eqn:Hfin; [|apply steps_refl].
      eapply steps_step; [apply steps_refl|]. eapply step_release; eassumption.
Qed.

Lemma steps_trans cfg1 cfg2 cfg3 :
  steps cfg1 cfg2 -> steps cfg2 cfg3 -> steps cfg1 cfg3.
Proof.
  intros H12 H23. induction H23 as [|cfg2 cfg3 cfg4 _ IH Hstep]; [exact H12|].
  eapply steps_step; [exact (IH H12) | exact Hstep].
Qed.

Lemma run_schedule_steps sched : forall cfg, steps cfg (run_schedule sched cfg).
Proof.
  induction sched as [|t sched IH]; intros cfg; [apply steps_refl|].
  simpl. eapply steps_trans; [apply schedule_one_steps | apply IH].
Qed.

(** C9.  Whatever calls of [_send_command] run as tasks on one client and
    however they are scheduled: at most one task is inside the block under
    the lock; in the trace of transport operations no operation of another
    task falls between two operations of one task, so that the line a task
    writes and the reads of its response come before any write of a task
    that enters later; and the wire holds the writes of the trace in that
    order. *)
Theorem no_command_interleaving calls c w cfg :
  steps (initial calls c w) cfg ->
  (forall t1 t2 p1 p2,
     tasks cfg !! t1 = Some (Critical p1) ->
     tasks cfg !! t2 = Some (Critical p2) -> t1 = t2) /\
  no_interleaving (trace cfg) /\
  wire (world cfg) = wire w ++ writes_of (trace cfg).
Proof.
  intros Hsteps.
  destruct (inv_steps w _ _ (inv_initial calls c w) Hsteps)
    as [Hcrit _ _ Hser Hwire].
  split; [|split; assumption].
  intros t1 t2 p1 p2 H1 H2.
  pose proof (Hcrit _ _ H1) as E1. pose proof (Hcrit _ _ H2) as E2.
  congruence.
Qed.

(** Two commands on a connected client, the tasks taking turns: the
    second task gets the lock only when the first has released it, and the
    two blocks of operations follow one another. *)
Lemma no_command_interleaving_witness :
  ((forall t1 t2 p1 p2,
      tasks (run_schedule (round_robin 30) two_commands) !! t1 = Some (Critical p1) ->
      tasks (run_schedule (round_robin 30) two_commands) !! t2 = Some (Critical p2) ->
      t1 = t2) /\
   no_interleaving (trace (run_schedule (round_robin 30) two_commands)) /\
   wire (world (run_schedule (round_robin 30) two_commands)) =
     wire (scripted_world ["Out01 In05 All"; "Out02 In05 All"]%string) ++
     writes_of (trace (run_schedule (round_robin 30) two_commands))) /\
  trace (run_schedule (round_robin 30) two_commands) =
    [(0, EvWrite 0 (list_byte_of_string ("1%" ++ Py.CRLF)));
     (0, EvDrain 0); (0, EvRead 0);
     (1, EvWrite 0 (list_byte_of_string ("5*2!" ++ Py.CRLF)));
     (1, EvDrain 0); (1, EvRead 0)]%nat /\
  tasks (run_schedule (round_robin 30) two_commands) =
    [Finished (Return (Some "Out01 In05 All"%string));
     Finished (Return (Some "Out02 In05 All"%string))].
Proof.
  split; [|split; vm_compute; reflexivity].
  apply (no_command_interleaving
           [("1%"%string, true); ("5*2!"%string, true)]
           (connected_client None)
           (scripted_world ["Out01 In05 All"; "Out02 In05 All"]%string)
           (run_schedule (round_robin 30) two_commands)).
  apply run_schedule_steps.
Defined.

End Serialization.

Section BareNumber.

Import Py.

(** [int] refuses the decimal text of a number that cannot be printed. *)
Lemma int_decimal_long n :
  int_max_str_digits < digit_count n -> Py.int (decimal n) = None.
Proof.
  intros Hlim. unfold digit_count in Hlim.
  destruct (decimal_nonneg (Z.abs n) (Z.abs_nonneg n)) as (Hall & Hne & Hval).
  apply Z.ltb_lt in Hlim.
  destruct (Z.ltb_spec n 0) as [Hn|Hn].
  - rewrite (decimal_neg n Hn). unfold Py.int.
    change (int_literal (String "-" (decimal (Z.abs n))))
      with (decimal (Z.abs n)).
    rewrite (scan_digits_all _ 0 true Hall (or_introl Hne)), Z.add_0_l, Hlim.
    reflexivity.
  - rewrite Z.abs_eq in * by exact Hn.
    rewrite (int_of_digits _ Hall Hne), Hlim. reflexivity.
Qed.

(** X13.  A response that is the decimal text of an integer, negative or
    not, is read back as that integer when the integer has at most 4300
    digits, the numbers that [str] prints; the decimal text of a number
    with more digits is read as 0. *)
Theorem tie_of_response_str_of_int n :
  match str_of_int n with
  | Some text => text = decimal n /\ tie_of_response text = Return n
  | None => tie_of_response (decimal n) = Return 0
  end.
Proof.
  destruct (str_of_int n) as [text|] eqn:H.
  - pose proof (int_str_of_int _ _ H) as Hint.
    apply str_of_int_Some in H as [-> _]. split; [reflexivity|].
    rewrite tie_of_response_bare by apply decimal_no_token.
    rewrite (strip_no_space _ (no_space_decimal n)), Hint. reflexivity.
  - apply str_of_int_None in H.
    rewrite tie_of_response_bare by apply decimal_no_token.
    rewrite (strip_no_space _ (no_space_decimal n)), (int_decimal_long _ H).
    reflexivity.
Qed.

End BareNumber.

Section SelectEntity.

Import Py Select.

Lemma split_from_no_space w : forall word,
  no_space w = true -> (word ++ w)%string <> EmptyString ->
  split_from word w = [(word ++ w)%string].
Proof.
  induction w as [|c w IH]; intros word Hns Hne.
  - simpl. assert (E : (word ++ "")%string = word)
      by (clear; induction word as [|a word IHw]; [reflexivity|];
          rewrite append_String, IHw; reflexivity).
    rewrite E in *. destruct word; [congruence | reflexivity].
  - simpl in Hns. apply andb_true_iff in Hns as [Hc Hw].
    apply negb_true_iff in Hc. simpl. rewrite Hc.
    assert (E : ((word ++ String c "") ++ w)%string = (word ++ String c w)%string).
    { clear. induction word as [|a word IHw]; [reflexivity|].
      rewrite !append_String, IHw. reflexivity. }
    rewrite IH; [rewrite E; reflexivity | exact Hw |].
    rewrite E. destruct word; discriminate.
Qed.

Lemma split_input_option w :
  no_space w = true -> w <> EmptyString ->
  split ("Input " ++ w) = ["Input"%string; w].
Proof.
  intros Hns Hne. unfold split.
  rewrite !append_String, append_Empty.
  change (split_from "" (String "I" (String "n" (String "p" (String "u"
            (String "t" (String " " w)))))))
    with ("Input"%string :: split_from "" w).
  rewrite (split_from_no_space w "" Hns) by (rewrite append_Empty; exact Hne).
  reflexivity.
Qed.

Lemma input_option_Some i option :
  input_option i = Some option <->
  exists text, str_of_int i = Some text /\ option = ("Input " ++ text)%string.
Proof.
  unfold input_option. destruct (str_of_int i) as [text|]; split; try discriminate.
  - intros [= <-]. eauto.
  - intros (text' & [= <-] & ->). reflexivity.
  - intros (text' & [=] & _).
Qed.

Lemma input_option_None i :
  input_option i = None <-> int_max_str_digits < digit_count i.
Proof.
  rewrite <- str_of_int_None. unfold input_option.
  destruct (str_of_int i); split; (discriminate || reflexivity).
Qed.

Lemma option_input_of_input n option :
  input_option n = Some option -> option_input option = Return n.
Proof.
  intros H. apply input_option_Some in H as (text & Htext & ->).
  pose proof (int_str_of_int _ _ Htext) as Hint.
  apply str_of_int_Some in Htext as [-> _].
  unfold option_input.
  rewrite (split_input_option _ (no_space_decimal n) (decimal_nonempty n)).
  rewrite !append_String, append_Empty. simpl.
  rewrite Hint. reflexivity.
Qed.

Lemma input_option_inj i j option :
  input_option i = Some option -> input_option j = Some option -> i = j.
Proof.
  intros Hi Hj.
  apply input_option_Some in Hi as (a & Ha & ->).
  apply input_option_Some in Hj as (b & Hb & E).
  rewrite !append_String, !append_Empty in E. injection E as E. subst b.
  exact (str_of_int_inj _ _ _ Ha Hb).
Qed.

Lemma input_option_not_None i : input_option i <> Some "None"%string.
Proof.
  intros H. apply input_option_Some in H as (a & _ & E).
  rewrite !append_String in E. discriminate.
Qed.

Lemma current_option_cases data output :
  (shown_input data output = 0 /\
   current_option data output = Some "None"%string) \/
  (shown_input data output <> 0 /\
   current_option data output = input_option (shown_input data output)).
Proof.
  unfold shown_input, current_option.
  destruct data as [d|]; [|left; auto].
  destruct (bool_decide_reflect (d <> ∅)) as [Hne|He].
  - destruct (d !! "ties"%string) as [ties|]; [|left; auto].
    cbv zeta. destruct (Z.eqb_spec (default 0 (ties !! output)) 0) as [E|E];
      [left | right]; auto.
  - assert (d = ∅) as -> by (destruct (decide (d = ∅)); [done | contradiction]).
    rewrite lookup_empty. left; auto.
Qed.

(** The options offered: "None", and the text of every input from 1 to
    [num_inputs]. *)
Lemma options_Some num_inputs opts :
  options num_inputs = Some opts ->
  forall option,
    option ∈ opts <->
    option = "None"%string \/
    exists i, 1 <= i <= num_inputs /\ input_option i = Some option.
Proof.
  unfold options, py_range. rewrite Z.add_simpl_r.
  destruct (mapM input_option (seqZ 1 num_inputs)) as [inputs|] eqn:E; [|discriminate].
  intros [= <-] option. apply mapM_Some in E.
  rewrite elem_of_cons. split; (intros [H|H]; [left; exact H | right]).
  - apply list_elem_of_lookup in H as [k Hk].
    destruct (Forall2_lookup_r _ _ _ _ _ E Hk) as (i & Hi & Hopt).
    exists i. split; [|exact Hopt].
    apply list_elem_of_lookup_2, elem_of_seqZ in Hi. lia.
  - destruct H as (i & Hi & Hopt).
    assert (Hin : i ∈ seqZ 1 num_inputs) by (apply elem_of_seqZ; lia).
    apply list_elem_of_lookup in Hin as [k Hk].
    destruct (Forall2_lookup_l _ _ _ _ _ E Hk) as (y & Hy & Hopt').
    assert (y = option) as -> by congruence.
    apply list_elem_of_lookup_2 in Hy. exact Hy.
Qed.

(** X18.  The option that the entity shows for an output, selected again,
    asks for the input that is shown: 0 for "None", and the number of
    "Input n" otherwise, negative numbers included.  The entity shows no
    option, the f-string raising, exactly when the input to show has
    more than 4300 digits. *)
Theorem option_input_current_option data output :
  match current_option data output with
  | Some option => option_input option = Return (shown_input data output)
  | None => int_max_str_digits < digit_count (shown_input data output)
  end.
Proof.
  destruct (current_option_cases data output) as [[-> ->]|[_ ->]].
  - reflexivity.
  - destruct (input_option (shown_input data output)) as [option|] eqn:E.
    + apply option_input_of_input. exact E.
    + apply input_option_None. exact E.
Qed.

(** X19.  Every option that the entity offers is understood by
    [async_select_option]: "None" gives input 0, and "Input n" gives [n],
    which is between 1 and [num_inputs]. *)
Theorem options_parse num_inputs opts option :
  options num_inputs = Some opts ->
  option ∈ opts ->
  exists input_num,
    option_input option = Return input_num /\
    (input_num = 0 /\ option = "None"%string \/
     1 <= input_num <= num_inputs /\
     exists text,
       str_of_int input_num = Some text /\
       option = ("Input " ++ text)%string).
Proof.
  intros Hopts H. apply (options_Some _ _ Hopts) in H as [->|(i & Hi & Hopt)].
  - exists 0. split; [reflexivity | left; auto].
  - exists i. split; [exact (option_input_of_input _ _ Hopt)|].
    right. split; [exact Hi|]. apply input_option_Some. exact Hopt.
Qed.

(** X20.  The option shown for an output is one of the offered options
    exactly when the input it stands for is 0 or between 1 and
    [num_inputs]. *)
Theorem current_option_offered data output num_inputs opts option :
  options num_inputs = Some opts ->
  current_option data output = Some option ->
  option ∈ opts <->
  shown_input data output = 0 \/ 1 <= shown_input data output <= num_inputs.
Proof.
  intros Hopts Hcur. rewrite (options_Some _ _ Hopts).
  destruct (current_option_cases data output) as [[E H]|[E H]];
    rewrite H in Hcur.
  - injection Hcur as <-. split; auto.
  - split.
    + intros [->|(i & Hi & Hopt)]; [destruct (input_option_not_None _ Hcur)|].
      rewrite (input_option_inj _ _ _ Hcur Hopt). right. exact Hi.
    + intros [H0|Hrange]; [contradiction|]. right.
      exists (shown_input data output). auto.
Qed.

End SelectEntity.

(** ** Use of the transport by the methods *)

Section Usage.

Ltac usage_solve := unfold usage_le, usage_add, usage_zero; simpl; lia.

Lemma within_refl u w : within u w w.
Proof.
  unfold within. repeat split; try lia.
  exists []. rewrite app_nil_r. split; [reflexivity | simpl; lia].
Qed.

Lemma within_trans u v w1 w2 w3 :
  within u w1 w2 -> within v w2 w3 -> within (usage_add u v) w1 w3.
Proof.
  intros (Ho & Hr & Hd & Hc & H1 & H2 & H3 & H4 & l & Hl & Hlen)
         (Ho' & Hr' & Hd' & Hc' & H1' & H2' & H3' & H4' & l' & Hl' & Hlen').
  unfold within. simpl.
  repeat split; try congruence; try lia.
  exists (l ++ l'). rewrite Hl', Hl, app_assoc, length_app.
  split; [reflexivity | lia].
Qed.

Lemma within_weaken u v w w' : usage_le u v -> within u w w' -> within v w w'.
Proof.
  intros (L1 & L2 & L3 & L4 & L5)
         (Ho & Hr & Hd & Hc & H1 & H2 & H3 & H4 & l & Hl & Hlen).
  unfold within. repeat split; try assumption; try lia.
  exists l. split; [assumption | lia].
Qed.

Lemma bounded_weaken {A} u v (p : prog A) :
  usage_le u v -> bounded u p -> bounded v p.
Proof. intros Hle Hp c w. eapply within_weaken; [exact Hle | apply Hp]. Qed.

Lemma bounded_Ret {A} u (a : A) : bounded u (Ret a).
Proof.
  intros c w. simpl. eapply within_weaken; [|apply (within_refl usage_zero)].
  usage_solve.
Qed.

Lemma bounded_Throw {A} u e : bounded u (@Throw A e).
Proof.
  intros c w. simpl. eapply within_weaken; [|apply (within_refl usage_zero)].
  usage_solve.
Qed.

Lemma bounded_bind {A B} u v t (m : prog A) (k : A -> prog B) :
  usage_le (usage_add u v) t ->
  bounded u m -> (forall a, bounded v (k a)) -> bounded t (bind m k).
Proof.
  intros Hle Hm Hk c w. rewrite exec_bind.
  specialize (Hm c w). destruct (exec m c w) as [[[a|e] c1] w1]; simpl in Hm.
  - eapply within_weaken; [exact Hle|].
    eapply within_trans; [exact Hm | apply Hk].
  - simpl. eapply within_weaken; [|exact Hm]. revert Hle. usage_solve.
Qed.

Lemma bounded_try_except {A} u v t (body : prog A) handler :
  usage_le (usage_add u v) t ->
  bounded u body -> (forall e, bounded v (handler e)) ->
  bounded t (try_except body handler).
Proof.
  intros Hle Hm Hk c w. rewrite exec_try_except.
  specialize (Hm c w). destruct (exec body c w) as [[[a|e] c1] w1]; simpl in Hm.
  - simpl. eapply within_weaken; [|exact Hm]. revert Hle. usage_solve.
  - eapply within_weaken; [exact Hle|].
    eapply within_trans; [exact Hm | apply Hk].
Qed.

Lemma bounded_get_self u : bounded u get_self.
Proof. intros c w. apply (bounded_Ret u c c w). Qed.

Lemma bounded_modify_self u f : bounded u (modify_self f).
Proof. intros c w. apply (bounded_Ret u tt (f c) w). Qed.

Lemma bounded_of_outcome {A} u (r : outcome A) : bounded u (of_outcome r).
Proof. destruct r; [apply bounded_Ret | apply bounded_Throw]. Qed.

Lemma within_step u w w' :
  open_oracle w' = open_oracle w -> read_oracle w' = read_oracle w ->
  drain_oracle w' = drain_oracle w -> close_oracle w' = close_oracle w ->
  (n_opens w <= n_opens w' <= n_opens w + u_opens u)%nat ->
  (n_reads w <= n_reads w' <= n_reads w + u_reads u)%nat ->
  (n_drains w <= n_drains w' <= n_drains w + u_drains u)%nat ->
  (n_closes w <= n_closes w' <= n_closes w + u_closes u)%nat ->
  (exists written, wire w' = wire w ++ written /\ (length written <= u_writes u)%nat) ->
  within u w w'.
Proof. unfold within. tauto. Qed.

Lemma bounded_open_connection u :
  (1 <= u_opens u)%nat -> bounded u open_connection.
Proof.
  intros H c w. unfold open_connection. cbn [exec]. rewrite exec_of_outcome.
  apply within_step; simpl; try reflexivity; try lia.
  exists []. rewrite app_nil_r. split; [reflexivity | simpl; lia].
Qed.

Lemma bounded_readuntil u conn :
  (1 <= u_reads u)%nat -> bounded u (readuntil conn).
Proof.
  intros H c w. unfold readuntil. cbn [exec]. rewrite exec_of_outcome.
  apply within_step; simpl; try reflexivity; try lia.
  exists []. rewrite app_nil_r. split; [reflexivity | simpl; lia].
Qed.

Lemma bounded_writer_write u conn data :
  (1 <= u_writes u)%nat -> bounded u (writer_write conn data).
Proof.
  intros H c w. unfold writer_write. cbn [exec].
  apply within_step; simpl; try reflexivity; try lia.
  exists [(conn, data)]. split; [reflexivity | simpl; lia].
Qed.

Lemma bounded_drain u conn :
  (1 <= u_drains u)%nat -> bounded u (drain conn).
Proof.
  intros H c w. unfold drain. cbn [exec]. rewrite exec_of_outcome.
  apply within_step; simpl; try reflexivity; try lia.
  exists []. rewrite app_nil_r. split; [reflexivity | simpl; lia].
Qed.

Lemma bounded_close_writer u conn :
  (1 <= u_closes u)%nat -> bounded u (close_writer conn).
Proof.
  intros H c w. unfold close_writer. cbn [exec]. rewrite exec_of_outcome.
  apply within_step; simpl; try reflexivity; try lia.
  exists []. rewrite app_nil_r. split; [reflexivity | simpl; lia].
Qed.

Lemma bounded_formatted u text : bounded u (formatted text).
Proof.
  destruct text; [apply bounded_Ret | apply bounded_Throw].
Qed.

Lemma bounded_encode_line u command : bounded u (encode_line command).
Proof.
  unfold encode_line. destruct (Py.encode_ascii _);
    [apply bounded_Ret | apply bounded_Throw].
Qed.

Lemma bounded_read_until_prompt : bounded (mkUsage 0 1 0 0 0) _read_until_prompt.
Proof.
  unfold _read_until_prompt.
  apply (bounded_try_except (mkUsage 0 1 0 0 0) usage_zero); [usage_solve| |].
  - apply (bounded_bind usage_zero (mkUsage 0 1 0 0 0)); [usage_solve| |].
    + apply bounded_get_self.
    + intros self. destruct (_reader self); [|apply bounded_Throw].
      apply (bounded_bind (mkUsage 0 1 0 0 0) usage_zero); [usage_solve| |].
      * apply bounded_readuntil. simpl. lia.
      * intros data. apply bounded_Ret.
  - intros [msg|msg]; [apply bounded_Ret|].
    apply (bounded_bind usage_zero usage_zero); [usage_solve| |].
    + apply bounded_modify_self.
    + intros _. apply bounded_Throw.
Qed.

Lemma bounded_read_response_loop budget : forall line,
  bounded (mkUsage 0 budget 0 0 0) (_read_response_loop budget line).
Proof.
  induction budget as [|budget IH]; intros line; [apply bounded_Ret|].
  rewrite read_response_loop_S.
  destruct (looks_like_timestamp line); [|apply bounded_Ret].
  apply (bounded_bind (mkUsage 0 1 0 0 0) (mkUsage 0 budget 0 0 0)); [usage_solve| |].
  - apply bounded_read_until_prompt.
  - exact IH.
Qed.

Lemma bounded_read_response : bounded (mkUsage 0 4 0 0 0) _read_response.
Proof.
  unfold _read_response.
  apply (bounded_bind (mkUsage 0 1 0 0 0) (mkUsage 0 3 0 0 0)); [usage_solve| |].
  - apply bounded_read_until_prompt.
  - apply bounded_read_response_loop.
Qed.

Lemma bounded_send_command_raw command :
  bounded (mkUsage 0 0 1 1 0) (_send_command_raw command).
Proof.
  unfold _send_command_raw.
  apply (bounded_bind usage_zero (mkUsage 0 0 1 1 0)); [usage_solve| |].
  - apply bounded_get_self.
  - intros self. destruct (_writer self); [|apply bounded_Throw].
    apply (bounded_bind usage_zero (mkUsage 0 0 1 1 0)); [usage_solve| |].
    + apply bounded_encode_line.
    + intros data.
      apply (bounded_bind (mkUsage 0 0 1 0 0) (mkUsage 0 0 0 1 0)); [usage_solve| |].
      * apply bounded_writer_write. simpl. lia.
      * intros _. apply bounded_drain. simpl. lia.
Qed.

Lemma bounded_authenticate response :
  bounded (mkUsage 0 4 1 1 0) (authenticate response).
Proof.
  unfold authenticate. destruct (Py.contains "Password:" response);
    [|apply bounded_Ret].
  apply (bounded_bind usage_zero (mkUsage 0 4 1 1 0)); [usage_solve| |].
  - apply bounded_get_self.
  - intros self. destruct (no_password (password self)); [apply bounded_Throw|].
    apply (bounded_bind (mkUsage 0 0 1 1 0) (mkUsage 0 4 0 0 0)); [usage_solve| |].
    + apply bounded_send_command_raw.
    + intros _.
      apply (bounded_bind (mkUsage 0 4 0 0 0) usage_zero); [usage_solve| |].
      * apply bounded_read_response.
      * intros login. destruct (negb _); [apply bounded_Throw | apply bounded_Ret].
Qed.

Lemma bounded_read_greeting : bounded (mkUsage 1 5 0 0 0) read_greeting.
Proof.
  unfold read_greeting.
  apply (bounded_bind (mkUsage 1 0 0 0 0) (mkUsage 0 5 0 0 0)); [usage_solve| |].
  - apply bounded_open_connection. simpl. lia.
  - intros conn.
    apply (bounded_bind usage_zero (mkUsage 0 5 0 0 0)); [usage_solve| |].
    + apply bounded_modify_self.
    + intros _.
      apply (bounded_bind (mkUsage 0 1 0 0 0) (mkUsage 0 4 0 0 0)); [usage_solve| |].
      * apply bounded_read_until_prompt.
      * intros _. apply bounded_read_response.
Qed.

Lemma bounded_connect : bounded (mkUsage 1 9 1 1 0) connect.
Proof.
  unfold connect, connect_body, open_and_handshake.
  apply (bounded_try_except (mkUsage 1 9 1 1 0) usage_zero); [usage_solve| |].
  - apply (bounded_bind (mkUsage 1 9 1 1 0) usage_zero); [usage_solve| |].
    + apply (bounded_bind (mkUsage 1 5 0 0 0) (mkUsage 0 4 1 1 0)); [usage_solve| |].
      * apply bounded_read_greeting.
      * apply bounded_authenticate.
    + intros _. apply bounded_modify_self.
  - intros [msg|msg]; unfold connect_handler.
    + apply (bounded_bind usage_zero usage_zero); [usage_solve| |].
      * apply bounded_get_self.
      * intros self.
        apply (bounded_bind usage_zero usage_zero); [usage_solve| |].
        -- apply bounded_formatted.
        -- intros port_text. apply bounded_Throw.
    + apply (bounded_bind usage_zero usage_zero); [usage_solve| |].
      * apply bounded_modify_self.
      * intros _. apply bounded_Throw.
Qed.

Lemma bounded_disconnect : bounded (mkUsage 0 0 0 0 1) disconnect.
Proof.
  unfold disconnect.
  apply (bounded_bind usage_zero (mkUsage 0 0 0 0 1)); [usage_solve| |].
  - apply bounded_get_self.
  - intros self. destruct (_writer self); [|apply bounded_Ret].
    apply (bounded_bind (mkUsage 0 0 0 0 1) usage_zero); [usage_solve| |].
    + apply (bounded_try_except (mkUsage 0 0 0 0 1) usage_zero); [usage_solve| |].
      * apply bounded_close_writer. simpl. lia.
      * intros e. apply bounded_Ret.
    + intros _. apply bounded_modify_self.
Qed.

Lemma bounded_ensure_connected : bounded (mkUsage 1 9 1 1 0) _ensure_connected.
Proof.
  unfold _ensure_connected.
  apply (bounded_bind usage_zero (mkUsage 1 9 1 1 0)); [usage_solve| |].
  - apply bounded_get_self.
  - intros self. destruct (negb (is_connected self)); [|apply bounded_Ret].
    apply (bounded_try_except (mkUsage 1 9 1 1 0) usage_zero); [usage_solve| |].
    + apply bounded_connect.
    + intros e. apply bounded_Throw.
Qed.

Lemma bounded_send_command_body command expect_response :
  bounded (mkUsage 0 4 1 1 0) (send_command_body command expect_response).
Proof.
  unfold send_command_body.
  apply (bounded_bind usage_zero (mkUsage 0 4 1 1 0)); [usage_solve| |].
  - apply bounded_get_self.
  - intros self. destruct (_writer self); [|apply bounded_Throw].
    apply (bounded_bind usage_zero (mkUsage 0 4 1 1 0)); [usage_solve| |].
    + apply bounded_encode_line.
    + intros data.
      apply (bounded_bind (mkUsage 0 0 1 0 0) (mkUsage 0 4 0 1 0)); [usage_solve| |].
      * apply bounded_writer_write. simpl. lia.
      * intros _.
        apply (bounded_bind (mkUsage 0 0 0 1 0) (mkUsage 0 4 0 0 0)); [usage_solve| |].
        -- apply bounded_drain. simpl. lia.
        -- intros _. destruct expect_response; [|apply bounded_Ret].
           apply (bounded_bind (mkUsage 0 4 0 0 0) usage_zero); [usage_solve| |].
           ++ apply bounded_read_response.
           ++ intros response. apply bounded_Ret.
Qed.

Lemma bounded_send_command command expect_response :
  bounded command_usage (_send_command command expect_response).
Proof.
  unfold _send_command, send_command_locked.
  apply (bounded_bind (mkUsage 1 9 1 1 0) (mkUsage 0 4 1 1 0)); [usage_solve| |].
  - apply bounded_ensure_connected.
  - intros _.
    apply (bounded_try_except (mkUsage 0 4 1 1 0) usage_zero); [usage_solve| |].
    + apply bounded_send_command_body.
    + intros e. apply (bounded_bind usage_zero usage_zero); [usage_solve| |].
      * apply bounded_modify_self.
      * intros _. apply bounded_Throw.
Qed.

Lemma bounded_get_output_tie output : bounded command_usage (get_output_tie output).
Proof.
  unfold get_output_tie.
  apply (bounded_bind usage_zero command_usage); [usage_solve| |].
  - apply bounded_formatted.
  - intros command.
    apply (bounded_bind command_usage usage_zero); [usage_solve| |].
    + apply bounded_send_command.
    + intros [response|]; [apply bounded_of_outcome | apply bounded_Throw].
Qed.

Lemma bounded_set_output_tie input_num output :
  bounded command_usage (set_output_tie input_num output).
Proof.
  unfold set_output_tie. destruct (input_num =? 0); [apply bounded_Ret|].
  apply (bounded_bind usage_zero command_usage); [usage_solve| |].
  - apply bounded_formatted.
  - intros command.
    apply (bounded_bind command_usage usage_zero); [usage_solve| |].
    + apply bounded_send_command.
    + intros [response|]; [apply bounded_Ret | apply bounded_Throw].
Qed.

Lemma bounded_get_all_ties_loop outputs : forall ties,
  bounded (usage_times (length outputs) command_usage)
          (get_all_ties_loop outputs ties).
Proof.
  induction outputs as [|output rest IH]; intros ties; [apply bounded_Ret|].
  cbn [get_all_ties_loop length usage_times].
  apply (bounded_bind command_usage (usage_times (length rest) command_usage));
    [usage_solve| |].
  - apply (bounded_try_except command_usage usage_zero); [usage_solve| |].
    + apply (bounded_bind command_usage usage_zero); [usage_solve| |].
      * apply bounded_get_output_tie.
      * intros tied. apply bounded_Ret.
    + intros e. apply bounded_Ret.
  - exact IH.
Qed.

Lemma bounded_get_all_ties num_outputs :
  bounded (usage_times (Z.to_nat num_outputs) command_usage)
          (get_all_ties num_outputs).
Proof.
  unfold get_all_ties, py_range. rewrite Z.add_simpl_r.
  rewrite <- (length_seqZ 1 num_outputs). apply bounded_get_all_ties_loop.
Qed.

Lemma usage_times_fields n u :
  u_opens (usage_times n u) = (n * u_opens u)%nat /\
  u_reads (usage_times n u) = (n * u_reads u)%nat /\
  u_writes (usage_times n u) = (n * u_writes u)%nat /\
  u_drains (usage_times n u) = (n * u_drains u)%nat /\
  u_closes (usage_times n u) = (n * u_closes u)%nat.
Proof.
  induction n as [|n (H1 & H2 & H3 & H4 & H5)]; simpl; [repeat split|].
  rewrite H1, H2, H3, H4, H5. repeat split.
Qed.

Lemma exec_connect_handler e c w :
  snd (exec (connect_handler e) c w) = w.
Proof.
  destruct e; [|reflexivity].
  unfold connect_handler. rewrite exec_bind, exec_get_self. cbv beta iota.
  rewrite exec_bind, exec_formatted.
  destruct (Py.str_of_int (port c)); reflexivity.
Qed.

Lemma read_greeting_opens c w :
  n_opens (snd (exec read_greeting c w)) = S (n_opens w).
Proof.
  unfold read_greeting, open_connection. cbn [bind exec].
  destruct (fst (do_open w)) as [conn|e]; [|reflexivity].
  cbn [of_outcome bind].
  pose proof (bounded_bind usage_zero (mkUsage 0 5 0 0 0) (mkUsage 0 5 0 0 0)
                (modify_self (set_streams (Some conn) (Some conn)))
                (fun _ => bind _read_until_prompt (fun _ => _read_response))
                ltac:(usage_solve) (bounded_modify_self _ _)) as H.
  assert (Hrest : bounded (mkUsage 0 5 0 0 0)
                   (bind _read_until_prompt (fun _ => _read_response))).
  { apply (bounded_bind (mkUsage 0 1 0 0 0) (mkUsage 0 4 0 0 0)); [usage_solve| |].
    - apply bounded_read_until_prompt.
    - intros _. apply bounded_read_response. }
  destruct (H (fun _ => Hrest) c (snd (do_open w))) as (_ & _ & _ & _ & Ho & _).
  change (n_opens (snd (do_open w))) with (S (n_opens w)) in Ho.
  cbn [u_opens] in Ho. lia.
Qed.

Lemma connect_opens c w : n_opens (snd (exec connect c w)) = S (n_opens w).
Proof.
  unfold connect, connect_body, open_and_handshake.
  rewrite exec_try_except, !exec_bind.
  pose proof (read_greeting_opens c w) as Hg.
  destruct (exec read_greeting c w) as [[[response|e] c1] w1]; simpl in Hg.
  - destruct (bounded_authenticate response c1 w1) as (_ & _ & _ & _ & Ho & _).
    destruct (exec (authenticate response) c1 w1) as [[[[]|e] c2] w2]; simpl in Ho.
    + simpl. lia.
    + rewrite exec_connect_handler. lia.
  - rewrite exec_connect_handler. exact Hg.
Qed.

(** X9.  Every [connect] opens exactly one connection and closes none,
    makes at most 9 reads and at most one write and one drain. *)
Theorem connect_usage c w :
  n_opens (world_of (exec connect c w)) = S (n_opens w) /\
  n_closes (world_of (exec connect c w)) = n_closes w /\
  (n_reads (world_of (exec connect c w)) <= n_reads w + 9)%nat /\
  (n_drains (world_of (exec connect c w)) <= n_drains w + 1)%nat /\
  (length (wire (world_of (exec connect c w))) <= length (wire w) + 1)%nat.
Proof.
  unfold world_of. split; [apply connect_opens|].
  destruct (bounded_connect c w)
    as (_ & _ & _ & _ & _ & Hr & Hd & Hc & l & Hl & Hlen).
  simpl in *. rewrite Hl, length_app. repeat split; lia.
Qed.

(** X10.  Every [_send_command] opens at most one connection and closes
    none, makes at most 13 reads and at most 2 writes and 2 drains. *)
Theorem send_command_usage command expect_response c w :
  (n_opens (world_of (exec (_send_command command expect_response) c w))
     <= n_opens w + 1)%nat /\
  n_closes (world_of (exec (_send_command command expect_response) c w))
     = n_closes w /\
  (n_reads (world_of (exec (_send_command command expect_response) c w))
     <= n_reads w + 13)%nat /\
  (n_drains (world_of (exec (_send_command command expect_response) c w))
     <= n_drains w + 2)%nat /\
  (length (wire (world_of (exec (_send_command command expect_response) c w)))
     <= length (wire w) + 2)%nat.
Proof.
  unfold world_of.
  destruct (bounded_send_command command expect_response c w)
    as (_ & _ & _ & _ & Ho & Hr & Hd & Hc & l & Hl & Hlen).
  simpl in *. rewrite Hl, length_app. repeat split; lia.
Qed.

(** X11.  A poll of [num_outputs] outputs closes no connection, opens at
    most [num_outputs] ones, and makes at most 13 reads, 2 writes and 2
    drains for each output. *)
Theorem get_all_ties_usage num_outputs c w :
  (n_opens (world_of (exec (get_all_ties num_outputs) c w))
     <= n_opens w + Z.to_nat num_outputs)%nat /\
  n_closes (world_of (exec (get_all_ties num_outputs) c w)) = n_closes w /\
  (n_reads (world_of (exec (get_all_ties num_outputs) c w))
     <= n_reads w + 13 * Z.to_nat num_outputs)%nat /\
  (n_drains (world_of (exec (get_all_ties num_outputs) c w))
     <= n_drains w + 2 * Z.to_nat num_outputs)%nat /\
  (length (wire (world_of (exec (get_all_ties num_outputs) c w)))
     <= length (wire w) + 2 * Z.to_nat num_outputs)%nat.
Proof.
  unfold world_of.
  destruct (bounded_get_all_ties num_outputs c w)
    as (_ & _ & _ & _ & Ho & Hr & Hd & Hc & l & Hl & Hlen).
  destruct (usage_times_fields (Z.to_nat num_outputs) command_usage)
    as (E1 & E2 & E3 & E4 & E5).
  rewrite E1 in Ho. rewrite E2 in Hr. rewrite E3 in Hlen.
  rewrite E4 in Hd. rewrite E5 in Hc.
  simpl in *. rewrite Hl, length_app. repeat split; lia.
Qed.

End Usage.

(** ** More on the transport session and the command channel *)

Section Lines.

Import Py.

Lemma is_ascii_lstrip s : is_ascii s = true -> is_ascii (lstrip s) = true.
Proof.
  induction s as [|c s IH]; [reflexivity|]. simpl. intros H.
  destruct (is_space c); [apply andb_true_iff in H; tauto | exact H].
Qed.

Lemma is_ascii_rstrip s : is_ascii s = true -> is_ascii (rstrip s) = true.
Proof.
  induction s as [|c s IH]; [reflexivity|]. simpl. intros H.
  apply andb_true_iff in H as [Hc Hs].
  destruct (is_space c && is_empty (rstrip s)); [reflexivity|].
  simpl. rewrite Hc, (IH Hs). reflexivity.
Qed.

Lemma is_ascii_strip s : is_ascii s = true -> is_ascii (strip s) = true.
Proof. intros H. apply is_ascii_rstrip, is_ascii_lstrip, H. Qed.

(** A line that was read is ASCII and trimmed. *)
Lemma nth_line_clean w k line :
  nth_line w k = Return line -> is_ascii line = true /\ strip line = line.
Proof.
  unfold nth_line, line_of.
  destruct (read_oracle w (k + n_reads w)) as [data|[msg|msg]]; intros [= <-].
  - split; [apply is_ascii_strip, decode_ascii_ignore_is_ascii | apply strip_idem].
  - split; reflexivity.
Qed.

Lemma exec_read_response_line c w line c' w' :
  exec _read_response c w = (Return line, c', w') ->
  is_ascii line = true /\ strip line = line.
Proof.
  intros H. destruct (_reader c) as [conn|] eqn:Hr.
  - destruct (exec_read_response c conn Hr w) as (k & _ & Hexec & _).
    rewrite Hexec in H. injection H as Hline _ _.
    exact (nth_line_clean _ _ _ Hline).
  - unfold _read_response in H.
    rewrite exec_bind, (exec_read_until_prompt_none c w Hr) in H. discriminate.
Qed.

(** X2.  A response that [_read_response] returns is made of ASCII
    characters and has no white space at either end; the client is as it
    was and nothing was written. *)
Theorem read_response_clean c w line c' w' :
  exec _read_response c w = (Return line, c', w') ->
  c' = c /\ wire w' = wire w /\
  is_ascii line = true /\ strip line = line.
Proof.
  intros H.
  destruct (exec_read_response_frame _ _ _ _ _ H) as [Hc Hw].
  destruct (exec_read_response_line _ _ _ _ _ H) as [Hascii Hstrip].
  repeat split; assumption.
Qed.

Lemma read_response_clean_witness :
  opened_client None = opened_client None /\
  wire (advance_reads 1 (scripted_world [" In05  "]%string)) =
    wire (scripted_world [" In05  "]%string) /\
  is_ascii "In05" = true /\ strip "In05" = "In05"%string.
Proof.
  apply (read_response_clean (opened_client None)
           (scripted_world [" In05  "]%string) "In05" (opened_client None)
           (advance_reads 1 (scripted_world [" In05  "]%string))).
  vm_compute. reflexivity.
Defined.

(** A read that times out gives the empty line and leaves the client as
    it was. *)
Lemma read_until_prompt_timeout c w conn msg :
  _reader c = Some conn ->
  read_oracle w (n_reads w) = ReadRaise (TimeoutError msg) ->
  exec _read_until_prompt c w = (Return EmptyString, c, advance_reads 1 w).
Proof.
  intros Hr Ht. rewrite (exec_read_until_prompt c conn Hr w).
  unfold nth_line. simpl. rewrite Ht. reflexivity.
Qed.

End Lines.

Section Disconnect.

Lemma exec_disconnect c w :
  exec disconnect c w =
  match _writer c with
  | Some _ =>
      (Return tt, set_connected false (set_streams None None c), snd (do_close w))
  | None => (Return tt, c, w)
  end.
Proof.
  unfold disconnect. rewrite exec_bind, exec_get_self. cbv beta iota.
  destruct (_writer c) as [conn|]; [|reflexivity].
  rewrite exec_bind, exec_try_except. unfold close_writer. cbn [exec].
  rewrite exec_of_outcome.
  destruct (fst (do_close w)) as [[]|e]; reflexivity.
Qed.

(** X1.  [disconnect] never raises and writes nothing.  With a writer it
    closes once and ends with no reader, no writer and [_connected] unset,
    whatever the close did; without a writer it changes nothing; and a
    second [disconnect] right after changes nothing. *)
Theorem disconnect_clears c w :
  result_of (exec disconnect c w) = Return tt /\
  wire (world_of (exec disconnect c w)) = wire w /\
  (_writer c <> None ->
   _reader (client_of (exec disconnect c w)) = None /\
   _writer (client_of (exec disconnect c w)) = None /\
   _connected (client_of (exec disconnect c w)) = false /\
   n_closes (world_of (exec disconnect c w)) = S (n_closes w)) /\
  (_writer c = None -> exec disconnect c w = (Return tt, c, w)) /\
  exec disconnect (client_of (exec disconnect c w)) (world_of (exec disconnect c w)) =
    (Return tt, client_of (exec disconnect c w), world_of (exec disconnect c w)).
Proof.
  rewrite (exec_disconnect c w).
  destruct (_writer c) as [conn|] eqn:Hw; unfold result_of, client_of, world_of;
    cbn [fst snd].
  - split; [reflexivity|]. split; [reflexivity|]. split; [intros _; repeat split|].
    split; [discriminate|]. rewrite exec_disconnect. reflexivity.
  - split; [reflexivity|]. split; [reflexivity|]. split; [congruence|].
    split; [reflexivity|]. rewrite exec_disconnect, Hw. reflexivity.
Qed.

End Disconnect.

Section RawSend.

Import Py.

Lemma encode_ascii_None s : is_ascii s = false -> encode_ascii s = None.
Proof.
  induction s as [|c s IH]; [discriminate|]. simpl.
  destruct (is_ascii_char c); [|reflexivity].
  simpl. intros H. rewrite (IH H). reflexivity.
Qed.

Lemma is_ascii_line command : is_ascii (command ++ CRLF) = is_ascii command.
Proof. rewrite is_ascii_app. simpl. apply andb_true_r. Qed.

(** X4.  [_send_command_raw] never changes the client and never reads.
    Without a writer it raises "Not connected" and the world is untouched;
    a text with a non-ASCII character raises before anything is written;
    otherwise the text and CR LF are written once to the writer and
    drained, and the outcome is that of the drain. *)
Theorem send_command_raw_spec command c w :
  client_of (exec (_send_command_raw command) c w) = c /\
  n_reads (world_of (exec (_send_command_raw command) c w)) = n_reads w /\
  (_writer c = None ->
   exec (_send_command_raw command) c w = (Raise (Exception "Not connected"), c, w)) /\
  (is_ascii command = false ->
   world_of (exec (_send_command_raw command) c w) = w /\
   exists e, result_of (exec (_send_command_raw command) c w) = Raise e) /\
  (forall conn,
     _writer c = Some conn -> is_ascii command = true ->
     exec (_send_command_raw command) c w =
       (fst (do_drain (do_write conn (list_byte_of_string (command ++ CRLF)) w)),
        c,
        snd (do_drain (do_write conn (list_byte_of_string (command ++ CRLF)) w)))).
Proof.
  rewrite exec_send_command_raw. unfold client_of, world_of, result_of.
  destruct (_writer c) as [conn|] eqn:Hw.
  - destruct (is_ascii command) eqn:Hascii.
    + rewrite encode_ascii_is_ascii by (rewrite is_ascii_line; exact Hascii).
      cbn [fst snd]. repeat split; try discriminate.
      intros conn' [= <-] _. reflexivity.
    + rewrite encode_ascii_None by (rewrite is_ascii_line; exact Hascii).
      cbn [fst snd]. repeat split; try discriminate; eauto.
  - cbn [fst snd]. repeat split; try discriminate; eauto.
Qed.

End RawSend.

Section Commands.

Import Py.

(** X5.  When [_send_command] returns, [is_connected] is true; with
    [expect_response] the result is a response (never [None]) of ASCII
    characters without white space at its ends, whether or not it starts
    with "E"; without [expect_response] the result is [None]. *)
Theorem send_command_return command expect_response c w r c' w' :
  exec (_send_command command expect_response) c w = (Return r, c', w') ->
  is_connected c' = true /\
  if expect_response then
    exists response,
      r = Some response /\ is_ascii response = true /\ strip response = response
  else r = None.
Proof.
  rewrite exec_send_command.
  destruct (exec _ensure_connected c w) as [[[[]|e] c1] w1] eqn:Hens; [|discriminate].
  assert (Hconn : is_connected c1 = true).
  { rewrite exec_ensure_connected in Hens.
    destruct (is_connected c) eqn:Hc.
    - injection Hens as <- <-. exact Hc.
    - destruct (connect_post c w) as (r0 & c2 & w2 & Hconn & _ & Hpost).
      rewrite Hconn in Hens. injection Hens as -> -> ->.
      destruct Hpost as [-> _]. reflexivity. }
  assert (Hw : exists conn, _writer c1 = Some conn).
  { unfold is_connected in Hconn. destruct (_writer c1); eauto.
    rewrite andb_false_r in Hconn. discriminate. }
  destruct Hw as [conn Hw].
  rewrite (exec_send_command_body c1 w1 conn _ _ Hw).
  destruct (encode_ascii (command ++ CRLF)) as [data|]; [|discriminate].
  destruct (fst (do_drain (do_write conn data w1))) as [[]|e]; [|discriminate].
  destruct expect_response.
  - destruct (exec _read_response c1 _) as [[[response|e] c2] w2] eqn:Hread;
      [|discriminate].
    destruct (exec_read_response_line _ _ _ _ _ Hread) as [Hascii Hstrip].
    apply exec_read_response_frame in Hread as [-> _].
    intros [= <- <- <-]. split; [exact Hconn|]. eauto.
  - intros [= <- <- <-]. auto.
Qed.

Lemma send_command_return_witness :
  is_connected (connected_client None) = true /\
  exists response,
    Some "E10"%string = Some response /\
    is_ascii response = true /\ strip response = response.
Proof.
  apply (send_command_return "1%" true (connected_client None)
           (scripted_world ["E10"]%string) (Some "E10"%string) (connected_client None)
           (advance_reads 1
              (snd (do_drain (do_write 0 (list_byte_of_string ("1%" ++ CRLF))
                                       (scripted_world ["E10"]%string)))))).
  vm_compute. reflexivity.
Defined.

(** X12.  When [get_output_tie] returns, the last line written is
    [f"{output}%"] followed by CR LF, the decimal text of the output
    printed without error, on the writer of the client. *)
Theorem get_output_tie_wire output c w input_num c' w' :
  exec (get_output_tie output) c w = (Return input_num, c', w') ->
  exists conn output_text,
    str_of_int output = Some output_text /\
    _writer c' = Some conn /\
    last (wire w') =
      Some (conn, list_byte_of_string ((output_text ++ "%") ++ CRLF)).
Proof.
  rewrite exec_get_output_tie.
  destruct (tie_query output) as [command|] eqn:Hcmd; [|discriminate].
  destruct (exec (_send_command _ true) c w) as [[[[response|]|e] c1] w1] eqn:Hsend;
    intros [= _ <- <-].
  destruct (send_command_return_wire _ _ _ _ _ _ _ Hsend)
    as (conn & data & Hw & Henc & Hlast).
  rewrite (encode_tie_query _ _ Hcmd) in Henc. injection Henc as <-.
  apply tie_query_Some in Hcmd as (output_text & Htext & ->).
  exists conn, output_text. auto.
Qed.

End Commands.

(** ** The handshake and the state of the client *)

Section Handshake.

Import Py.

Lemma read_greeting_return c w response c1 w1 :
  exec read_greeting c w = (Return response, c1, w1) ->
  c1 = set_streams (Some (n_opens w)) (Some (n_opens w)) c /\ wire w1 = wire w.
Proof.
  intros H. destruct (read_greeting_post c w) as (r & c' & w' & Hexec & Hwire & Hc').
  rewrite Hexec in H. injection H as -> -> ->. auto.
Qed.

(** X7.  When the line read after the copyright message does not hold
    "Password:", [connect] returns with the session connected and nothing
    written, whether or not a password is configured. *)
Theorem connect_without_prompt c w response c1 w1 :
  exec read_greeting c w = (Return response, c1, w1) ->
  contains "Password:" response = false ->
  exec connect c w = (Return tt, set_connected true c1, w1) /\
  wire w1 = wire w /\
  is_connected (set_connected true c1) = true.
Proof.
  intros Hgreet Hprompt.
  destruct (read_greeting_return _ _ _ _ _ Hgreet) as [Hc1 Hwire].
  split; [|split; [exact Hwire | subst c1; reflexivity]].
  unfold connect, connect_body, open_and_handshake.
  rewrite exec_try_except, !exec_bind, Hgreet.
  unfold authenticate. rewrite Hprompt. reflexivity.
Qed.

Lemma connect_without_prompt_witness :
  exec connect (init "mav.local" 23 (Some "secret"%string))
       (scripted_world ["(c) Extron"; "ready"]%string) =
    (Return tt, set_connected true (opened_client (Some "secret"%string)),
     advance_reads 2 (snd (do_open (scripted_world ["(c) Extron"; "ready"]%string)))) /\
  wire (advance_reads 2 (snd (do_open (scripted_world ["(c) Extron"; "ready"]%string)))) =
    wire (scripted_world ["(c) Extron"; "ready"]%string) /\
  is_connected (set_connected true (opened_client (Some "secret"%string))) = true.
Proof.
  apply (connect_without_prompt (init "mav.local" 23 (Some "secret"%string))
           (scripted_world ["(c) Extron"; "ready"]%string) "ready").
  - vm_compute. reflexivity.
  - reflexivity.
Defined.

(** X8.  The password exchange: the prompt was read, a non-empty ASCII
    password is configured, its line is drained and an answer is read.
    [connect] returns, connected, when the answer holds "Login", and
    otherwise raises "Failed to connect: Invalid password" with
    [_connected] unset; either way the only write is the password line on
    the new connection. *)
Theorem connect_password_exchange c w pw response c1 w1 login c2 w2 :
  password c = Some pw -> pw <> EmptyString -> is_ascii pw = true ->
  exec read_greeting c w = (Return response, c1, w1) ->
  contains "Password:" response = true ->
  drain_oracle w1 (n_drains w1) = DrainOk ->
  exec _read_response c1
       (snd (do_drain (do_write (n_opens w) (list_byte_of_string (pw ++ CRLF)) w1))) =
    (Return login, c2, w2) ->
  exec connect c w =
    (if contains "Login" login then
       (Return tt, set_connected true c1, w2)
     else
       (Raise (Exception "Failed to connect: Invalid password"),
        set_connected false c1, w2)) /\
  wire w2 = wire w ++ [(n_opens w, list_byte_of_string (pw ++ CRLF))].
Proof.
  intros Hpw Hne Hascii Hgreet Hprompt Hdrain Hlogin.
  destruct (read_greeting_return _ _ _ _ _ Hgreet) as [Hc1 Hwire].
  destruct (exec_read_response_frame _ _ _ _ _ Hlogin) as [-> Hwire2].
  split; [|rewrite Hwire2; simpl; rewrite Hwire; reflexivity].
  unfold connect, connect_body, open_and_handshake.
  rewrite exec_try_except, !exec_bind, Hgreet.
  unfold authenticate. rewrite Hprompt.
  rewrite !exec_bind, exec_get_self. cbv beta iota.
  assert (Hpw1 : password c1 = Some pw) by (subst c1; exact Hpw).
  rewrite Hpw1. destruct pw as [|a pw]; [congruence|].
  cbn [no_password is_empty from_option]. unfold id.
  rewrite exec_bind, exec_send_command_raw.
  assert (Hw1 : _writer c1 = Some (n_opens w)) by (subst c1; reflexivity).
  rewrite Hw1.
  rewrite encode_ascii_is_ascii by (rewrite is_ascii_line; exact Hascii).
  assert (Hd : fst (do_drain (do_write (n_opens w)
                      (list_byte_of_string (String a pw ++ CRLF)) w1)) = Return tt)
    by (unfold do_drain; simpl; rewrite Hdrain; reflexivity).
  rewrite Hd, exec_bind, Hlogin.
  destruct (contains "Login" login); reflexivity.
Qed.

Lemma connect_password_exchange_witness :
  exec connect (init "mav.local" 23 (Some "secret"%string))
       (scripted_world ["(c) Extron"; "Password:"; "Denied"]%string) =
    (if contains "Login" "Denied" then
       (Return tt, set_connected true (opened_client (Some "secret"%string)),
        advance_reads 1
          (snd (do_drain (do_write 0 (list_byte_of_string ("secret" ++ CRLF))
             (advance_reads 2
                (snd (do_open (scripted_world
                   ["(c) Extron"; "Password:"; "Denied"]%string))))))))
     else
       (Raise (Exception "Failed to connect: Invalid password"),
        set_connected false (opened_client (Some "secret"%string)),
        advance_reads 1
          (snd (do_drain (do_write 0 (list_byte_of_string ("secret" ++ CRLF))
             (advance_reads 2
                (snd (do_open (scripted_world
                   ["(c) Extron"; "Password:"; "Denied"]%string))))))))) /\
  wire (advance_reads 1
          (snd (do_drain (do_write 0 (list_byte_of_string ("secret" ++ CRLF))
             (advance_reads 2
                (snd (do_open (scripted_world
                   ["(c) Extron"; "Password:"; "Denied"]%string)))))))) =
    wire (scripted_world ["(c) Extron"; "Password:"; "Denied"]%string) ++
    [(0%nat, list_byte_of_string ("secret" ++ CRLF))].
Proof.
  apply (connect_password_exchange (init "mav.local" 23 (Some "secret"%string))
           (scripted_world ["(c) Extron"; "Password:"; "Denied"]%string)
           "secret" "Password:" (opened_client (Some "secret"%string))
           (advance_reads 2
              (snd (do_open (scripted_world
                 ["(c) Extron"; "Password:"; "Denied"]%string))))
           "Denied" (opened_client (Some "secret"%string))).
  - reflexivity.
  - discriminate.
  - reflexivity.
  - vm_compute. reflexivity.
  - reflexivity.
  - reflexivity.
  - vm_compute. reflexivity.
Defined.

End Handshake.

Section Invariant.

Lemma get_all_ties_loop_wf outputs : forall ties c w,
  wf c -> wf (client_of (exec (get_all_ties_loop outputs ties) c w)).
Proof.
  induction outputs as [|output rest IH]; intros ties c w Hwf; [exact Hwf|].
  rewrite exec_get_all_ties_step, exec_get_output_tie.
  destruct (tie_query output) as [command|]; [|apply IH; exact Hwf].
  pose proof (send_command_wf c w command true Hwf) as H.
  destruct (exec (_send_command command true) c w)
    as [[[[response|]|e] c1] w1]; unfold client_of in H; cbn [fst snd] in H;
    apply IH; exact H.
Qed.

(** X6.  [_connected] is never left set without a writer: from a state where
    this holds, [connect], [disconnect], [_send_command] and
    [get_all_ties] end in such a state; there [is_connected] is just
    [_connected]. *)
Theorem client_state_invariant c w :
  wf c ->
  wf (client_of (exec connect c w)) /\
  wf (client_of (exec disconnect c w)) /\
  (forall command expect_response,
     wf (client_of (exec (_send_command command expect_response) c w))) /\
  (forall num_outputs, wf (client_of (exec (get_all_ties num_outputs) c w))) /\
  (forall c', wf c' -> is_connected c' = _connected c').
Proof.
  intros Hwf. split; [apply connect_wf; exact Hwf|].
  split; [apply disconnect_wf; exact Hwf|].
  split; [intros; apply send_command_wf; exact Hwf|].
  split; [intros; apply get_all_ties_loop_wf; exact Hwf|].
  intros c' Hwf'. unfold is_connected. destruct (_connected c') eqn:E; [|reflexivity].
  destruct (_writer c') eqn:Hw; [reflexivity|]. destruct (Hwf' E Hw).
Qed.

Lemma client_state_invariant_witness :
  wf (client_of (exec connect (init "mav.local" 23 None) (scripted_world ready_script))) /\
  wf (client_of (exec disconnect (init "mav.local" 23 None) (scripted_world ready_script))) /\
  (forall command expect_response,
     wf (client_of (exec (_send_command command expect_response)
                         (init "mav.local" 23 None) (scripted_world ready_script)))) /\
  (forall num_outputs,
     wf (client_of (exec (get_all_ties num_outputs)
                         (init "mav.local" 23 None) (scripted_world ready_script)))) /\
  (forall c', wf c' -> is_connected c' = _connected c').
Proof.
  apply (client_state_invariant (init "mav.local" 23 None) (scripted_world ready_script)).
  apply wf_init.
Defined.

End Invariant.

(** ** Polling: the unreachable device and the update *)

Section Unreachable.

Import Py.

Lemma exec_connect_unreachable c w e :
  open_oracle w (n_opens w) = OpenRaise e ->
  exists msg,
    exec connect c w =
    (Raise (Exception msg),
     match e with TimeoutError _ => c | Exception _ => set_connected false c end,
     snd (do_open w)).
Proof.
  intros H.
  assert (Hopen : exec open_connection c w = (Raise e, c, snd (do_open w))).
  { unfold open_connection. cbn [exec]. rewrite exec_of_outcome.
    unfold do_open at 1. cbn [fst]. rewrite H. reflexivity. }
  unfold connect, connect_body, open_and_handshake, read_greeting.
  rewrite exec_try_except, !exec_bind, Hopen.
  destruct e as [m|m]; [|eexists; reflexivity].
  unfold connect_handler. rewrite exec_bind, exec_get_self. cbv beta iota.
  rewrite exec_bind, exec_formatted.
  destruct (str_of_int (port c)); eexists; reflexivity.
Qed.

Lemma unreachable_do_open w : unreachable w -> unreachable (snd (do_open w)).
Proof. intros H n. exact (H n). Qed.

(** A query of an unreachable device raises, writes nothing and leaves the
    client unconnected; it makes one connection attempt when its line can
    be printed, and none otherwise. *)
Lemma get_output_tie_unreachable output c w :
  unreachable w -> _connected c = false ->
  exists e c' w',
    exec (get_output_tie output) c w = (Raise e, c', w') /\
    _connected c' = false /\ unreachable w' /\ wire w' = wire w /\
    n_opens w' =
      (n_opens w + match tie_query output with Some _ => 1 | None => 0 end)%nat.
Proof.
  intros Hu Hc. rewrite exec_get_output_tie.
  destruct (tie_query output) as [command|].
  - destruct (Hu (n_opens w)) as [e He].
    destruct (exec_connect_unreachable c w e He) as [msg Hconn].
    rewrite exec_send_command, exec_ensure_connected.
    unfold is_connected. rewrite Hc. cbn [andb]. rewrite Hconn.
    eexists _, _, _. split; [reflexivity|].
    split; [destruct e; [exact Hc | reflexivity]|].
    split; [apply unreachable_do_open; exact Hu|].
    split; [reflexivity|]. simpl. lia.
  - eexists _, c, w. split; [reflexivity|]. repeat split; auto.
Qed.

Lemma length_omap_cons {A B} (f : A -> option B) x l :
  length (omap f (x :: l)) =
  (match f x with Some _ => 1 | None => 0 end + length (omap f l))%nat.
Proof.
  change (omap f (x :: l))
    with (match f x with Some y => y :: omap f l | None => omap f l end).
  destruct (f x); reflexivity.
Qed.

Lemma get_all_ties_loop_unreachable outputs : forall (ties0 : gmap Z Z) c w,
  unreachable w -> _connected c = false ->
  exists (ties : gmap Z Z) c' w',
    exec (get_all_ties_loop outputs ties0) c w = (Return ties, c', w') /\
    (forall output, output ∈ outputs -> ties !! output = Some 0) /\
    (forall output, output ∉ outputs -> ties !! output = ties0 !! output) /\
    wire w' = wire w /\ _connected c' = false /\
    n_opens w' = (n_opens w + length (omap tie_query outputs))%nat.
Proof.
  induction outputs as [|o rest IH]; intros ties0 c w Hu Hc.
  - exists ties0, c, w. split; [reflexivity|]. split.
    + intros output H. apply elem_of_nil in H. destruct H.
    + repeat split; auto; simpl; lia.
  - rewrite exec_get_all_ties_step.
    destruct (get_output_tie_unreachable o c w Hu Hc)
      as (e & c1 & w1 & Hq & Hc1 & Hu1 & Hw1 & Ho1).
    rewrite Hq. cbn [tie_entry].
    destruct (IH (<[o := 0]> ties0) c1 w1 Hu1 Hc1)
      as (ties & c' & w' & Hexec & Hin & Hout & Hwire & Hc' & Hopens).
    exists ties, c', w'. split; [exact Hexec|]. split; [|split].
    + intros output H. destruct (decide (output ∈ rest)) as [Hr|Hr]; [auto|].
      apply elem_of_cons in H as [->|H]; [|contradiction].
      etransitivity; [apply Hout; exact Hr | apply lookup_insert_eq].
    + intros output H. apply not_elem_of_cons in H as [Hne Hr].
      etransitivity; [apply Hout; exact Hr | apply lookup_insert_ne; congruence].
    + split; [congruence|]. split; [exact Hc'|].
      rewrite Hopens, Ho1, length_omap_cons. lia.
Qed.

(** Every output up to a number that can be printed has a query line. *)
Lemma omap_tie_query_printable num_outputs :
  digit_count num_outputs <= int_max_str_digits ->
  length (omap tie_query (seqZ 1 num_outputs)) = Z.to_nat num_outputs.
Proof.
  intros Hlim. rewrite <- (length_seqZ 1 num_outputs).
  assert (H : Forall (fun output => is_Some (tie_query output)) (seqZ 1 num_outputs)).
  { apply Forall_forall. intros output Hin. apply elem_of_seqZ in Hin.
    destruct (str_of_int_mono output num_outputs) as [text Htext]; [lia | exact Hlim|].
    unfold tie_query. rewrite Htext. eauto. }
  induction H as [|output rest [command Hcmd] _ IH]; [reflexivity|].
  rewrite length_omap_cons, Hcmd, IH. reflexivity.
Qed.

(** X15.  A device that refuses every connection, a client not marked
    connected: [get_all_ties] returns 0 for each of the outputs, with
    nothing written and the client still not connected, after one
    connection attempt for each output whose query line can be printed:
    for each of the outputs, when their number has at most 4300 digits. *)
Theorem get_all_ties_unreachable num_outputs c w :
  unreachable w -> _connected c = false ->
  exists (ties : gmap Z Z) c' w',
    exec (get_all_ties num_outputs) c w = (Return ties, c', w') /\
    (forall output, 1 <= output <= num_outputs -> ties !! output = Some 0) /\
    wire w' = wire w /\ _connected c' = false /\
    n_opens w' =
      (n_opens w + length (omap tie_query (seqZ 1 num_outputs)))%nat /\
    (digit_count num_outputs <= int_max_str_digits ->
     n_opens w' = (n_opens w + Z.to_nat num_outputs)%nat).
Proof.
  intros Hu Hc. unfold get_all_ties, py_range. rewrite Z.add_simpl_r.
  destruct (get_all_ties_loop_unreachable (seqZ 1 num_outputs) ∅ c w Hu Hc)
    as (ties & c' & w' & Hexec & Hin & _ & Hwire & Hc' & Hopens).
  exists ties, c', w'. split; [exact Hexec|]. split.
  - intros output H. apply Hin. apply elem_of_seqZ. lia.
  - split; [exact Hwire|]. split; [exact Hc'|]. split; [exact Hopens|].
    intros Hlim. rewrite Hopens, (omap_tie_query_printable _ Hlim). reflexivity.
Qed.

End Unreachable.

Section Update.

Import Coordinator Select.

Lemma exec_async_update_data num_outputs c w :
  exists (ties : gmap Z Z) c' w',
    exec (get_all_ties num_outputs) c w = (Return ties, c', w') /\
    exec (_async_update_data num_outputs) c w =
      (Return ({["ties"%string := ties]} : gmap string (gmap Z Z)), c', w').
Proof.
  unfold get_all_ties.
  destruct (get_all_ties_loop_spec (py_range 1 (num_outputs + 1)) ∅ c w)
    as (ties & log & c' & w' & _ & Hexec & _).
  exists ties, c', w'. split; [exact Hexec|].
  unfold _async_update_data, get_all_ties.
  rewrite exec_try_except, exec_bind, Hexec. reflexivity.
Qed.

Lemma shown_input_update (ties : gmap Z Z) output :
  shown_input (Some ({["ties"%string := ties]} : gmap string (gmap Z Z))) output =
  default 0 (ties !! output).
Proof. unfold shown_input. rewrite lookup_singleton_eq. reflexivity. Qed.

Lemma get_all_ties_keys num_outputs c w (ties : gmap Z Z) c' w' :
  exec (get_all_ties num_outputs) c w = (Return ties, c', w') ->
  forall output, is_Some (ties !! output) <-> 1 <= output <= num_outputs.
Proof.
  unfold get_all_ties, py_range. rewrite Z.add_simpl_r.
  destruct (get_all_ties_loop_spec (seqZ 1 num_outputs) ∅ c w)
    as (ties0 & log & c0 & w0 & _ & Hexec & Hkeys & Hframe & Hlog).
  rewrite Hexec. intros Heq output.
  assert (ties0 = ties) as -> by congruence.
  split.
  - intros Hsome.
    destruct (decide (output ∈ seqZ 1 num_outputs)) as [Hin|Hnot].
    + apply elem_of_seqZ in Hin. lia.
    + rewrite (Hframe output Hnot), lookup_empty in Hsome.
      destruct Hsome as [x Hx]. discriminate.
  - intros Hrange.
    assert (Hin : output ∈ seqZ 1 num_outputs) by (apply elem_of_seqZ; lia).
    rewrite <- Hkeys in Hin.
    apply list_elem_of_fmap in Hin as ([o r] & -> & Hin). cbn [fst].
    rewrite (Hlog (NoDup_seqZ 1 num_outputs) _ _ Hin). eauto.
Qed.

(** X16.  [_async_update_data] never raises [UpdateFailed]: it returns the
    dict whose only key is "ties", and the mapping under it is the one of
    [get_all_ties], with an entry for each output from 1 to [num_outputs]
    and no other. *)
Theorem async_update_data_returns num_outputs c w :
  exists (ties : gmap Z Z) c' w',
    exec (get_all_ties num_outputs) c w = (Return ties, c', w') /\
    exec (_async_update_data num_outputs) c w =
      (Return ({["ties"%string := ties]} : gmap string (gmap Z Z)), c', w') /\
    (forall key, key <> "ties"%string ->
       ({["ties"%string := ties]} : gmap string (gmap Z Z)) !! key = None) /\
    (forall output, is_Some (ties !! output) <-> 1 <= output <= num_outputs).
Proof.
  destruct (exec_async_update_data num_outputs c w) as (ties & c' & w' & H1 & H2).
  exists ties, c', w'. split; [exact H1|]. split; [exact H2|]. split.
  - intros key Hne. apply lookup_singleton_ne. congruence.
  - exact (get_all_ties_keys _ _ _ _ _ _ H1).
Qed.

(** X17.  After an update from a device that refuses every connection, the
    update still returns, and every output in range shows the option
    "None". *)
Theorem update_unreachable num_outputs c w :
  unreachable w -> _connected c = false ->
  exists data c' w',
    exec (_async_update_data num_outputs) c w = (Return data, c', w') /\
    wire w' = wire w /\
    forall output,
      1 <= output <= num_outputs ->
      current_option (Some data) output = Some "None"%string.
Proof.
  intros Hu Hc.
  destruct (get_all_ties_loop_unreachable (seqZ 1 num_outputs) ∅ c w Hu Hc)
    as (ties & c' & w' & Hexec & Hin & _ & Hwire & _).
  assert (Hzero : forall output,
            1 <= output <= num_outputs -> ties !! output = Some 0)
    by (intros output H; apply Hin, elem_of_seqZ; lia).
  destruct (exec_async_update_data num_outputs c w) as (ties' & c2 & w2 & H1 & H2).
  unfold get_all_ties, py_range in H1. rewrite Z.add_simpl_r, Hexec in H1.
  injection H1 as <- <- <-.
  eexists _, c', w'. split; [exact H2|]. split; [exact Hwire|].
  intros output Hrange.
  destruct (current_option_cases
              (Some ({["ties"%string := ties]} : gmap string (gmap Z Z))) output)
    as [[_ E]|[Hne _]]; [exact E|].
  rewrite shown_input_update, (Hzero output Hrange) in Hne. contradiction.
Qed.

End Update.

(** ** Polling a healthy device, and the connection test *)

Section HealthyPoll.

Import Py.

Lemma healthy_nth_line w k : healthy w -> exists line, nth_line w k = Return line.
Proof.
  intros [_ Hread]. unfold nth_line, line_of.
  specialize (Hread (k + n_reads w)%nat).
  destruct (read_oracle w (k + n_reads w)) as [data|[msg|msg]]; eauto.
  destruct (Hread msg eq_refl).
Qed.

Lemma healthy_within u w w' : within u w w' -> healthy w -> healthy w'.
Proof.
  intros (_ & Hr & Hd & _) [H1 H2]. split; intros n.
  - rewrite Hd. apply H1.
  - rewrite Hr. apply H2.
Qed.

(** On a connected client and a healthy link a command returns, leaves the
    client as it was and writes its line and nothing else. *)
Lemma send_command_healthy command data c w conn conn' :
  is_connected c = true -> _writer c = Some conn -> _reader c = Some conn' ->
  healthy w -> encode_ascii (command ++ CRLF) = Some data ->
  exists response w',
    exec (_send_command command true) c w = (Return (Some response), c, w') /\
    wire w' = wire w ++ [(conn, data)] /\
    n_opens w' = n_opens w /\ healthy w'.
Proof.
  intros Hc Hw Hr Hh Henc.
  rewrite (exec_send_command_connected _ _ _ _ Hc).
  rewrite (exec_send_command_body c w conn _ _ Hw), Henc.
  assert (Hd : fst (do_drain (do_write conn data w)) = Return tt).
  { unfold do_drain. simpl. rewrite (proj1 Hh). reflexivity. }
  rewrite Hd.
  assert (Hh2 : healthy (snd (do_drain (do_write conn data w))))
    by (destruct Hh; split; assumption).
  destruct (exec_read_response c conn' Hr (snd (do_drain (do_write conn data w))))
    as (k & _ & Hexec & _).
  destruct (healthy_nth_line _ k Hh2) as [line Hline].
  rewrite Hexec, Hline. cbn [after_read].
  exists line, (advance_reads (S k) (snd (do_drain (do_write conn data w)))).
  split; [reflexivity|]. split; [reflexivity|]. split; [reflexivity|].
  destruct Hh; split; assumption.
Qed.

Lemma get_all_ties_loop_healthy outputs : forall (ties0 : gmap Z Z) c w conn conn',
  is_connected c = true -> _writer c = Some conn -> _reader c = Some conn' ->
  healthy w ->
  exists (ties : gmap Z Z) w',
    exec (get_all_ties_loop outputs ties0) c w = (Return ties, c, w') /\
    wire w' = wire w ++ omap (query_write conn) outputs /\
    n_opens w' = n_opens w.
Proof.
  induction outputs as [|o rest IH]; intros ties0 c w conn conn' Hc Hw Hr Hh.
  - exists ties0, w. split; [reflexivity|]. simpl. rewrite app_nil_r. auto.
  - rewrite exec_get_all_ties_step, exec_get_output_tie.
    change (omap (query_write conn) (o :: rest))
      with (match query_write conn o with
            | Some y => y :: omap (query_write conn) rest
            | None => omap (query_write conn) rest
            end).
    unfold query_write at 1.
    destruct (tie_query o) as [command|] eqn:Hcmd.
    + destruct (send_command_healthy _ _ c w conn conn' Hc Hw Hr Hh
                  (encode_tie_query _ _ Hcmd))
        as (response & w1 & Hsend & Hwire & Hopens & Hh1).
      rewrite Hsend.
      destruct (IH (<[o := tie_entry (tie_of_response response)]> ties0)
                   c w1 conn conn' Hc Hw Hr Hh1)
        as (ties & w' & Hexec & Hwire' & Hopens').
      exists ties, w'. split; [exact Hexec|]. split; [|congruence].
      apply tie_query_Some in Hcmd as (text & -> & ->).
      rewrite Hwire', Hwire, <- app_assoc. reflexivity.
    + destruct (IH (<[o := tie_entry (Raise (Exception str_limit_message))]> ties0)
                   c w conn conn' Hc Hw Hr Hh)
        as (ties & w' & Hexec & Hwire' & Hopens').
      exists ties, w'. split; [exact Hexec|]. split; [|exact Hopens'].
      unfold tie_query in Hcmd.
      destruct (str_of_int o); [discriminate | exact Hwire'].
Qed.

(** Every output up to a number that can be printed has a query line, made
    of its decimal text. *)
Lemma omap_query_write_printable conn num_outputs :
  digit_count num_outputs <= int_max_str_digits ->
  omap (query_write conn) (seqZ 1 num_outputs) =
  map (fun output =>
         (conn, list_byte_of_string ((decimal output ++ "%") ++ CRLF)))
      (seqZ 1 num_outputs).
Proof.
  intros Hlim.
  assert (H : Forall (fun output => digit_count output <= int_max_str_digits)
                     (seqZ 1 num_outputs)).
  { apply Forall_forall. intros output Hin. apply elem_of_seqZ in Hin.
    pose proof (digit_count_mono output num_outputs). lia. }
  induction H as [|output rest Hout _ IH]; [reflexivity|].
  change (omap (query_write conn) (output :: rest))
    with (match query_write conn output with
          | Some y => y :: omap (query_write conn) rest
          | None => omap (query_write conn) rest
          end).
  unfold query_write at 1.
  rewrite (proj2 (str_of_int_Some output (decimal output)) (conj eq_refl Hout)).
  rewrite IH. reflexivity.
Qed.

(** X14.  A connected client on a link where no drain fails and no read
    ends with an error other than a timeout: [get_all_ties] writes exactly
    the query lines of outputs 1 to [num_outputs], in that order, on the
    writer it has, opens no connection and leaves the client as it was.
    An output of more than 4300 digits has no query line; there is none
    when [num_outputs] has at most 4300 digits. *)
Theorem get_all_ties_healthy num_outputs c w conn conn' :
  is_connected c = true -> _writer c = Some conn -> _reader c = Some conn' ->
  healthy w ->
  exists (ties : gmap Z Z) w',
    exec (get_all_ties num_outputs) c w = (Return ties, c, w') /\
    wire w' = wire w ++ omap (query_write conn) (seqZ 1 num_outputs) /\
    n_opens w' = n_opens w /\
    (digit_count num_outputs <= int_max_str_digits ->
     wire w' =
       wire w ++
       map (fun output =>
              (conn, list_byte_of_string ((decimal output ++ "%") ++ CRLF)))
           (seqZ 1 num_outputs)).
Proof.
  intros Hc Hw Hr Hh. unfold get_all_ties, py_range. rewrite Z.add_simpl_r.
  destruct (get_all_ties_loop_healthy (seqZ 1 num_outputs) ∅ c w conn conn'
              Hc Hw Hr Hh) as (ties & w' & Hexec & Hwire & Hopens).
  exists ties, w'. split; [exact Hexec|]. split; [exact Hwire|].
  split; [exact Hopens|].
  intros Hlim. rewrite Hwire, (omap_query_write_printable _ _ Hlim). reflexivity.
Qed.

Lemma healthy_scripted lines : healthy (scripted_world lines).
Proof.
  split; [reflexivity|]. intros n msg. simpl. unfold scripted_reads.
  destruct (lines !! n); discriminate.
Qed.

Lemma get_all_ties_healthy_witness :
  exists (ties : gmap Z Z) w',
    exec (get_all_ties 2) (connected_client None)
         (scripted_world ["Out01 In05 All"; "Out02 In07 All"]%string) =
      (Return ties, connected_client None, w') /\
    wire w' =
      wire (scripted_world ["Out01 In05 All"; "Out02 In07 All"]%string) ++
      omap (query_write 0) (seqZ 1 2) /\
    n_opens w' = n_opens (scripted_world ["Out01 In05 All"; "Out02 In07 All"]%string) /\
    (digit_count 2 <= int_max_str_digits ->
     wire w' =
       wire (scripted_world ["Out01 In05 All"; "Out02 In07 All"]%string) ++
       map (fun output =>
              (0%nat, list_byte_of_string ((decimal output ++ "%") ++ CRLF)))
           (seqZ 1 2)).
Proof.
  apply (get_all_ties_healthy 2 (connected_client None)
           (scripted_world ["Out01 In05 All"; "Out02 In07 All"]%string) 0%nat 0%nat).
  - reflexivity.
  - reflexivity.
  - reflexivity.
  - apply healthy_scripted.
Defined.

End HealthyPoll.

Section Probe.

Import ConfigFlow.

Lemma send_command_connected_return c w command expect_response r c' w' :
  is_connected c = true ->
  exec (_send_command command expect_response) c w = (Return r, c', w') ->
  c' = c.
Proof.
  intros Hc. rewrite (exec_send_command_connected _ _ _ _ Hc).
  assert (Hw : exists conn, _writer c = Some conn).
  { unfold is_connected in Hc. destruct (_writer c); eauto.
    rewrite andb_false_r in Hc. discriminate. }
  destruct Hw as [conn Hw].
  rewrite (exec_send_command_body c w conn _ _ Hw).
  destruct (Py.encode_ascii _) as [data|]; [|discriminate].
  destruct (fst (do_drain _)) as [[]|e]; [|discriminate].
  destruct expect_response.
  - destruct (exec _read_response c _) as [[[response|e] c2] w2] eqn:Hread;
      [|discriminate].
    apply exec_read_response_frame in Hread as [-> _]. intros [= _ <- _]. reflexivity.
  - intros [= _ <- _]. reflexivity.
Qed.

Lemma within_closes u w w' :
  u_closes u = 0%nat -> within u w w' -> n_closes w' = n_closes w.
Proof. intros E (_ & _ & _ & _ & _ & _ & _ & H & _). lia. Qed.

(** X21.  The connection test of the config flow on its fresh client: when
    it returns, the client is back in its initial state, one connection
    was opened and one close was made; when it raises, no close was
    made. *)
Theorem test_connection_cleanup host port password w :
  match result_of (exec test_connection (init host port password) w) with
  | Return _ =>
      client_of (exec test_connection (init host port password) w)
        = init host port password /\
      n_opens (world_of (exec test_connection (init host port password) w))
        = S (n_opens w) /\
      n_closes (world_of (exec test_connection (init host port password) w))
        = S (n_closes w)
  | Raise _ =>
      n_closes (world_of (exec test_connection (init host port password) w))
        = n_closes w
  end.
Proof.
  unfold test_connection. rewrite exec_bind.
  pose proof (connect_opens (init host port password) w) as Hopens.
  pose proof (within_closes (mkUsage 1 9 1 1 0) _ _ eq_refl
                (bounded_connect (init host port password) w)) as Hcloses.
  destruct (connect_post (init host port password) w)
    as (r & c1 & w1 & Hconn & _ & Hpost).
  rewrite Hconn in *. cbn [snd] in Hopens, Hcloses.
  destruct r as [[]|e]; [|exact Hcloses].
  destruct Hpost as [-> _].
  rewrite exec_bind. unfold get_info.
  set (c1 := set_connected true _).
  pose proof (within_closes command_usage _ _ eq_refl
                (bounded_send_command "I" true c1 w1)) as Hc2.
  pose proof (bounded_send_command_body "I" true c1 w1) as Hbody.
  pose proof (exec_send_command_connected c1 w1 "I" true eq_refl) as Hsame.
  destruct (exec (_send_command "I" true) c1 w1) as [[[info|e] c2] w2] eqn:Hsend;
    cbn [snd] in Hc2.
  - assert (Ho2 : n_opens w2 = n_opens w1).
    { destruct (exec (send_command_body "I" true) c1 w1) as [[[a|e] c3] w3];
        [|discriminate].
      injection Hsame as _ _ ->. destruct Hbody as (_ & _ & _ & _ & H & _).
      simpl in H. lia. }
    apply send_command_connected_return in Hsend as ->; [|reflexivity].
    rewrite exec_bind, exec_disconnect. unfold result_of, client_of, world_of.
    cbn. repeat split; lia.
  - unfold result_of, world_of. cbn [fst snd]. lia.
Qed.

End Probe.

(** ** A silent device, and instances of the statements above *)

Section Silence.

Import Py.

(** X3.  A connected client, an output that can be printed, a drain that
    succeeds and a read that times out: [_send_command] on the query line
    returns the empty response, [get_output_tie] returns 0, and the client
    stays as it was, still connected, after a single read. *)
Theorem get_output_tie_timeout output output_text c w conn conn' msg :
  str_of_int output = Some output_text ->
  is_connected c = true -> _writer c = Some conn -> _reader c = Some conn' ->
  drain_oracle w (n_drains w) = DrainOk ->
  read_oracle w (n_reads w) = ReadRaise (TimeoutError msg) ->
  exec (_send_command (output_text ++ "%") true) c w =
    (Return (Some EmptyString), c,
     advance_reads 1
       (snd (do_drain (do_write conn
               (list_byte_of_string ((output_text ++ "%") ++ CRLF)) w)))) /\
  exec (get_output_tie output) c w =
    (Return 0, c,
     advance_reads 1
       (snd (do_drain (do_write conn
               (list_byte_of_string ((output_text ++ "%") ++ CRLF)) w)))).
Proof.
  intros Htext Hc Hw Hr Hdrain Hread.
  assert (Hcmd : tie_query output = Some (output_text ++ "%")%string)
    by (unfold tie_query; rewrite Htext; reflexivity).
  assert (Hsend : exec (_send_command (output_text ++ "%") true) c w =
    (Return (Some EmptyString), c,
     advance_reads 1
       (snd (do_drain (do_write conn
               (list_byte_of_string ((output_text ++ "%") ++ CRLF)) w))))).
  { rewrite (exec_send_command_connected _ _ _ _ Hc).
    rewrite (exec_send_command_body c w conn _ _ Hw), (encode_tie_query _ _ Hcmd).
    assert (Hd : fst (do_drain (do_write conn
                   (list_byte_of_string ((output_text ++ "%") ++ CRLF)) w)) = Return tt)
      by (unfold do_drain; simpl; rewrite Hdrain; reflexivity).
    rewrite Hd. unfold _read_response.
    rewrite exec_bind, (exec_read_until_prompt c conn' Hr).
    assert (Hl : nth_line (snd (do_drain (do_write conn
                   (list_byte_of_string ((output_text ++ "%") ++ CRLF)) w))) 0
                 = Return EmptyString)
      by (unfold nth_line; simpl; rewrite Hread; reflexivity).
    rewrite Hl. reflexivity. }
  split; [exact Hsend|].
  rewrite exec_get_output_tie, Hcmd, Hsend. reflexivity.
Qed.

Lemma get_output_tie_timeout_witness :
  exec (_send_command ("3" ++ "%") true) (connected_client None) (scripted_world []) =
    (Return (Some EmptyString), connected_client None,
     advance_reads 1
       (snd (do_drain (do_write 0
               (list_byte_of_string (("3" ++ "%") ++ CRLF)) (scripted_world []))))) /\
  exec (get_output_tie 3) (connected_client None) (scripted_world []) =
    (Return 0, connected_client None,
     advance_reads 1
       (snd (do_drain (do_write 0
               (list_byte_of_string (("3" ++ "%") ++ CRLF)) (scripted_world []))))).
Proof.
  apply (get_output_tie_timeout 3 "3" (connected_client None) (scripted_world [])
           0%nat 0%nat EmptyString); reflexivity.
Defined.

End Silence.

Section Witnesses.

Import Py Select Coordinator.

Lemma options_parse_witness :
  exists input_num,
    option_input "Input 2" = Return input_num /\
    (input_num = 0 /\ "Input 2"%string = "None"%string \/
     1 <= input_num <= 3 /\
     exists text,
       str_of_int input_num = Some text /\
       "Input 2"%string = ("Input " ++ text)%string).
Proof.
  apply (options_parse 3 ["None"; "Input 1"; "Input 2"; "Input 3"]%string "Input 2").
  - vm_compute. reflexivity.
  - apply list_elem_of_In. simpl. auto.
Defined.

Lemma current_option_offered_witness :
  "Input 2"%string ∈ ["None"; "Input 1"; "Input 2"; "Input 3"]%string <->
  shown_input (Some {["ties"%string := {[1 := 2]}]}) 1 = 0 \/
  1 <= shown_input (Some {["ties"%string := {[1 := 2]}]}) 1 <= 3.
Proof.
  apply (current_option_offered (Some {["ties"%string := {[1 := 2]}]}) 1 3).
  - vm_compute. reflexivity.
  - vm_compute. reflexivity.
Defined.

Lemma get_output_tie_wire_witness :
  exists conn output_text,
    str_of_int 7 = Some output_text /\
    _writer (connected_client None) = Some conn /\
    last (wire (advance_reads 1
            (snd (do_drain (do_write 0 (list_byte_of_string ("7%" ++ CRLF))
                                     (scripted_world ["Out07 In02 All"]%string)))))) =
      Some (conn, list_byte_of_string ((output_text ++ "%") ++ CRLF)).
Proof.
  apply (get_output_tie_wire 7 (connected_client None)
           (scripted_world ["Out07 In02 All"]%string) 2 (connected_client None)).
  vm_compute. reflexivity.
Defined.

Lemma unreachable_dead_world : unreachable dead_world.
Proof. intros n. eexists. reflexivity. Qed.

Lemma get_all_ties_unreachable_witness :
  exists (ties : gmap Z Z) c' w',
    exec (get_all_ties 4) (init "mav.local" 23 None) dead_world = (Return ties, c', w') /\
    (forall output, 1 <= output <= 4 -> ties !! output = Some 0) /\
    wire w' = wire dead_world /\ _connected c' = false /\
    n_opens w' = (n_opens dead_world + length (omap tie_query (seqZ 1 4)))%nat /\
    (digit_count 4 <= int_max_str_digits ->
     n_opens w' = (n_opens dead_world + Z.to_nat 4)%nat).
Proof.
  apply (get_all_ties_unreachable 4 (init "mav.local" 23 None) dead_world).
  - apply unreachable_dead_world.
  - reflexivity.
Defined.

Lemma update_unreachable_witness :
  exists data c' w',
    exec (_async_update_data 4) (init "mav.local" 23 None) dead_world =
      (Return data, c', w') /\
    wire w' = wire dead_world /\
    forall output,
      1 <= output <= 4 -> current_option (Some data) output = Some "None"%string.
Proof.
  apply (update_unreachable 4 (init "mav.local" 23 None) dead_world).
  - apply unreachable_dead_world.
  - reflexivity.
Defined.

End Witnesses.
